(** * VertexDB: the table store engine of [vertex-db.js], embedded in Rocq

    The development follows the JavaScript class [VertexDB]:

    - [JS]          the fragment of the language the class relies on
                    (primitive values, [===], the relational operators,
                    [String], [parseInt], [Array.prototype.slice], ...);
    - [Engine]      the run detection and binary insertion that V8's
                    [Array.prototype.sort] applies to short arrays;
    - [VertexDB]    the class itself: one record for the instance fields,
                    one definition per method, in a state-and-exception
                    monad over a heap of row arrays;
    - [Vocabulary], [Scenario]  the words of the properties and the stores
                    they are tried on;
    - [JSFacts], [EngineFacts], [VertexDBSpec]  the lemmas and theorems:
                    inserts and schemas, transactions, the condition
                    evaluator, auto-increment ids, soft deletion, ordering. *)

From Stdlib Require Import ZArith String Ascii List Lia Permutation.
From stdpp Require Import base option list gmap strings pretty.

Local Open Scope string_scope.
Local Open Scope Z_scope.
Local Open Scope list_scope.

(* ===================================================================== *)
(** ** The JavaScript fragment *)
(* ===================================================================== *)

Module JS.

(** Primitive values. A [number] is an integer that a double holds exactly;
    fractions, NaN and the infinities are not values of the fragment.
    Printing and parsing ([ToString], [parseInt]) are those of the safe
    integers, from [-(2^53 - 1)] to [2^53 - 1]; sums round as doubles do
    ([number_add]). A string is a sequence of 8-bit code units. *)
Inductive value :=
  | undefined
  | null
  | boolean (b : bool)
  | number (n : Z)
  | str (s : string).

#[global] Instance value_eq_dec : EqDecision value.
Proof. solve_decision. Defined.

(** What a caller may pass where the class expects "any": a primitive or an
    array of primitives (the argument of [whereIn]). *)
Inductive operand :=
  | Prim (v : value)
  | Arr (vs : list value).

(** ToBoolean. *)
Definition truthy (v : value) : bool :=
  match v with
  | undefined | null => false
  | boolean b => b
  | number n => negb (n =? 0)%Z
  | str s => negb (String.eqb s "")
  end.

(** [a === b] on primitives. *)
Definition strict_eq (a b : value) : bool := bool_decide (a = b).

(** [a === b] where [a] is a primitive read from a row and [b] any operand:
    an array is an object and never identical to a primitive. *)
Definition strict_eq_operand (a : value) (b : operand) : bool :=
  match b with
  | Prim v => strict_eq a v
  | Arr _ => false
  end.

Definition typeof (v : value) : string :=
  match v with
  | undefined => "undefined"
  | null => "object"
  | boolean _ => "boolean"
  | number _ => "number"
  | str _ => "string"
  end.

(** [String(v)]. *)
Definition ToString (v : value) : string :=
  match v with
  | undefined => "undefined"
  | null => "null"
  | boolean true => "true"
  | boolean false => "false"
  | number n => pretty n
  | str s => s
  end.

(** [Array.prototype.join(",")], which is what ToPrimitive does to an array. *)
Definition join_comma (vs : list value) : string :=
  String.concat ","
    (map (fun v => match v with undefined | null => "" | _ => ToString v end) vs).

Definition ToPrimitive (o : operand) : value :=
  match o with
  | Prim v => v
  | Arr vs => str (join_comma vs)
  end.

(** *** Objects *)

(** The names every plain object inherits from [Object.prototype]:
    [o[name]] finds the inherited member when [o] has no field of its own
    under one of them, and [undefined] under any other name. *)
Definition Object_prototype_names : list string :=
  ["constructor"; "hasOwnProperty"; "isPrototypeOf"; "propertyIsEnumerable";
   "toLocaleString"; "toString"; "valueOf"; "__defineGetter__";
   "__defineSetter__"; "__lookupGetter__"; "__lookupSetter__"; "__proto__"].

Definition inherited (name : string) : bool :=
  bool_decide (name ∈ Object_prototype_names).

(** *** Strings *)

Definition is_whitespace (c : ascii) : bool :=
  let n := nat_of_ascii c in
  ((9 <=? n) && (n <=? 13) || (n =? 32) || (n =? 160))%nat.

Fixpoint trim_start (s : string) : string :=
  match s with
  | String c s' => if is_whitespace c then trim_start s' else s
  | EmptyString => EmptyString
  end.

Definition reverse_string (s : string) : string :=
  string_of_list_ascii (rev (list_ascii_of_string s)).

Definition trim (s : string) : string :=
  reverse_string (trim_start (reverse_string (trim_start s))).

(** [s.includes(sub)]. *)
Fixpoint includes (s sub : string) : bool :=
  String.prefix sub s ||
  match s with
  | String _ s' => includes s' sub
  | EmptyString => false
  end.

(** [s.replace(/%/g, '')]. *)
Fixpoint strip_percent (s : string) : string :=
  match s with
  | String c s' =>
      if Ascii.eqb c "%" then strip_percent s' else String c (strip_percent s')
  | EmptyString => EmptyString
  end.

Definition lower_char (c : ascii) : ascii :=
  let n := nat_of_ascii c in
  if ((65 <=? n) && (n <=? 90) ||
      (192 <=? n) && (n <=? 222) && negb (n =? 215))%nat
  then ascii_of_nat (n + 32) else c.

Fixpoint toLowerCase (s : string) : string :=
  match s with
  | String c s' => String (lower_char c) (toLowerCase s')
  | EmptyString => EmptyString
  end.

Definition upper_char (c : ascii) : ascii :=
  let n := nat_of_ascii c in
  if ((97 <=? n) && (n <=? 122) ||
      (224 <=? n) && (n <=? 254) && negb (n =? 247))%nat
  then ascii_of_nat (n - 32) else c.

(** Code unit 223, the sharp s, is the one 8-bit unit whose upper case is
    two units. *)
Fixpoint toUpperCase (s : string) : string :=
  match s with
  | String c s' =>
      if (nat_of_ascii c =? 223)%nat then String "S" (String "S" (toUpperCase s'))
      else String (upper_char c) (toUpperCase s')
  | EmptyString => EmptyString
  end.

(** *** Numbers *)

(** [Number.MAX_SAFE_INTEGER]. *)
Definition MAX_SAFE_INTEGER : Z := 2 ^ 53 - 1.

(** [Number.isSafeInteger(n)]. *)
Definition isSafeInteger (n : Z) : bool := Z.abs n <=? MAX_SAFE_INTEGER.

(** The double nearest to an integer, below the overflow threshold: up to
    [2^53] the integer itself; beyond, the integer is cut to 53 significant
    bits, to the nearest multiple of the unit in the last place, a tie
    going to the even significand. *)
Definition round_double (x : Z) : Z :=
  let m := Z.abs x in
  if m <? 2 ^ 53 then x
  else
    let ulp := 2 ^ (Z.log2 m - 52) in
    let q := m / ulp in
    let r := m mod ulp in
    let q :=
      if 2 * r <? ulp then q
      else if ulp <? 2 * r then q + 1
      else if Z.even q then q else q + 1 in
    Z.sgn x * (q * ulp).

(** [a + b] on numbers. *)
Definition number_add (a b : Z) : Z := round_double (a + b).

(** *** Numbers read from strings *)

Definition digit_value (radix : Z) (c : ascii) : option Z :=
  let n := Z.of_nat (nat_of_ascii c) in
  let d :=
    (if (48 <=? n) && (n <=? 57) then n - 48
     else if (97 <=? n) && (n <=? 122) then n - 87
     else if (65 <=? n) && (n <=? 90) then n - 55
     else 36)%Z in
  if (d <? radix)%Z then Some d else None.

(** The longest prefix of digits, accumulated left to right; [None] when
    there is no digit at all. *)
Fixpoint digits_prefix (radix : Z) (acc : option Z) (s : string) : option Z :=
  match s with
  | String c s' =>
      match digit_value radix c with
      | Some d => digits_prefix radix (Some (default 0 acc * radix + d)%Z) s'
      | None => acc
      end
  | EmptyString => acc
  end.

Definition split_sign (s : string) : Z * string :=
  match s with
  | String "-" s' => ((-1)%Z, s')
  | String "+" s' => (1%Z, s')
  | _ => (1%Z, s)
  end.

(** [parseInt(s)] without a radix argument; [None] is NaN. *)
Definition parseInt_string (s : string) : option Z :=
  let '(sign, body) := split_sign (trim_start s) in
  let '(radix, body) :=
    match body with
    | String "0" (String "x" r) | String "0" (String "X" r) => (16%Z, r)
    | _ => (10%Z, body)
    end in
  (fun n => (sign * n)%Z) <$> digits_prefix radix None body.

Definition parseInt (v : value) : option Z := parseInt_string (ToString v).

Fixpoint all_digits (s : string) : bool :=
  match s with
  | String c s' => bool_decide (is_Some (digit_value 10 c)) && all_digits s'
  | EmptyString => true
  end.

(** StringToNumber on the number fragment: the empty or blank string is 0, a
    signed run of decimal digits is that integer, and a string that spells
    no number is NaN ([None]). Strings that spell a number outside the
    fragment (a fraction, an exponent, a radix prefix, Infinity) are not
    covered and read as NaN too. *)
Definition StringToNumber (s : string) : option Z :=
  let t := trim s in
  if String.eqb t "" then Some 0%Z
  else
    let '(sign, body) := split_sign t in
    if negb (String.eqb body "") && all_digits body
    then (fun n => (sign * n)%Z) <$> digits_prefix 10 None body
    else None.

Definition ToNumber (v : value) : option Z :=
  match v with
  | undefined => None
  | null => Some 0
  | boolean b => Some (if b then 1 else 0)%Z
  | number n => Some n
  | str s => StringToNumber s
  end.

(** *** Relational operators *)

(** The abstract relational comparison [x < y]; [None] is its "undefined"
    answer (an operand converts to NaN). *)
Definition lessThan (x y : value) : option bool :=
  match x, y with
  | str a, str b => Some (String.ltb a b)
  | _, _ =>
      match ToNumber x, ToNumber y with
      | Some a, Some b => Some (a <? b)%Z
      | _, _ => None
      end
  end.

Definition lt (a b : value) : bool := bool_decide (lessThan a b = Some true).
Definition gt (a b : value) : bool := bool_decide (lessThan b a = Some true).
Definition le (a b : value) : bool := bool_decide (lessThan b a = Some false).
Definition ge (a b : value) : bool := bool_decide (lessThan a b = Some false).

(** *** Arrays *)

(** [vs.includes(x)] (SameValueZero, which is [===] on this fragment). *)
Definition array_includes (vs : list value) (x : value) : bool :=
  existsb (strict_eq x) vs.

Definition relative_index (len i : Z) : Z :=
  (if i <? 0 then Z.max (len + i) 0 else Z.min i len)%Z.

(** [l.slice(start, end)]. *)
Definition slice {A} (l : list A) (start end_ : Z) : list A :=
  let len := Z.of_nat (length l) in
  let k := relative_index len start in
  let final := relative_index len end_ in
  take (Z.to_nat (final - k)%Z) (drop (Z.to_nat k) l).

(** [Math.max(x, ...xs)] on a non-empty argument list. *)
Definition Math_max (x : Z) (xs : list Z) : Z := fold_left Z.max xs x.

End JS.

(* ===================================================================== *)
(** ** The engine's [Array.prototype.sort] on short arrays *)
(* ===================================================================== *)

(** [results.sort(compare)] is a service of the JavaScript engine. ECMAScript
    fixes the outcome only for a consistent comparator; for any other the
    order is the engine's. [Engine.sort] is V8's procedure (Node, Chrome) for
    an array below its minimum run length of 64 elements: find the leading
    run, reverse it when it is descending, then insert each remaining element
    by binary search. The class is stated over an arbitrary sort; this one
    instantiates it. *)
Module Engine.
Section Sort.
Context {A : Type}.
Variable compare : A -> A -> Z.

(** How many further elements continue the run that ends in [prev]. *)
Fixpoint run_extend (descending : bool) (prev : A) (l : list A) : nat :=
  match l with
  | [] => 0%nat
  | cur :: l' =>
      let order := compare cur prev in
      if (if descending then order >=? 0 else order <? 0)
      then 0%nat
      else S (run_extend descending cur l')
  end.

(** CountAndMakeRun: the array with its leading run made ascending, and
    the length of that run. *)
Definition CountAndMakeRun (l : list A) : list A * nat :=
  match l with
  | elementHigh :: elementLow :: rest =>
      let isDescending := compare elementLow elementHigh <? 0 in
      let runLength := (2 + run_extend isDescending elementLow rest)%nat in
      (if isDescending
       then rev (take runLength l) ++ drop runLength l
       else l, runLength)
  | _ => (l, List.length l)
  end.

(** The binary search of BinaryInsertionSort: where [pivot] goes in the
    sorted prefix [pre], searching in [left, right). *)
Fixpoint search_position (fuel : nat) (pre : list A) (pivot : A)
    (left right : nat) : nat :=
  match fuel with
  | O => left
  | S fuel' =>
      if (left <? right)%nat then
        let mid := (left + (right - left) / 2)%nat in
        match pre !! mid with
        | Some x =>
            if compare pivot x <? 0
            then search_position fuel' pre pivot left mid
            else search_position fuel' pre pivot (mid + 1)%nat right
        | None => left
        end
      else left
  end.

Definition insert_pivot (pre : list A) (pivot : A) : list A :=
  let left :=
    search_position (S (List.length pre)) pre pivot 0%nat (List.length pre) in
  take left pre ++ pivot :: drop left pre.

Fixpoint BinaryInsertionSort (pre rest : list A) : list A :=
  match rest with
  | [] => pre
  | pivot :: rest' => BinaryInsertionSort (insert_pivot pre pivot) rest'
  end.

Definition sort (l : list A) : list A :=
  if (List.length l <? 2)%nat then l
  else
    let '(l', runLength) := CountAndMakeRun l in
    BinaryInsertionSort (take runLength l') (drop runLength l').

End Sort.
End Engine.

(* ===================================================================== *)
(** ** The class [VertexDB] *)
(* ===================================================================== *)

Module VertexDB.
Import JS.

(** *** Data *)

(** A row is a plain object with primitive fields; reading an absent field
    gives [undefined], which is what [row[field]] gives for every field
    name that is not [inherited] (under an inherited name the code reads a
    member of [Object.prototype], which is no value of the fragment). Rows
    are never mutated in place by the class (every change builds a fresh
    object), so a row is a value. *)
Abbreviation row := (gmap string value).

Definition read (r : row) (f : string) : value := default undefined (r !! f).

(** One entry of [_whereConditions]: [{field, operator, value}]. *)
Module Condition.
Record t := Make { field : string; operator : string; value : operand }.
End Condition.

(** The rule set a schema gives for one field. A regular expression is its
    [test] predicate. *)
Module Rule.
Record t := Make {
  required : bool;
  type : option string;
  min : option Z;
  max : option Z;
  length : option Z;
  pattern : option (string -> bool)
}.
End Rule.

(** [Object.entries(schema)]: the rules in declaration order. *)
Definition schema := list (string * Rule.t).

Record relation := Relation {
  rel_table : string; rel_type : string; rel_foreignKey : string }.

Inductive violation :=
  | IsRequired
  | MustBeOfType (type : string)
  | AtLeast (min : Z)
  | AtMost (max : Z)
  | ExactLength (length : Z)
  | PatternMismatch.

(** The failures the class raises, by kind; [TypeError] comes from the
    language ([x.includes is not a function]), [Raised] from a caller's
    callback. *)
Inductive error :=
  | TableNotFound (tableName : string)
  | TableAlreadyExists (tableName : string)
  | TriggerAlreadyExists (triggerName : string)
  | InvalidInput (message : string)
  | SchemaValidationError (field : string) (rule : violation)
  | TypeError
  | Raised (message : string).

Inductive result (A : Type) :=
  | Ok (a : A)
  | Throw (e : error).
Arguments Ok {A} a.
Arguments Throw {A} e.

(** A trigger receives [{operation, OLD, NEW}] and either returns [false],
    returns anything else, or raises. Its verdict is all the class uses. *)
Record trigger_event := TriggerEvent {
  operation : string; OLD : option row; NEW : option row }.

Inductive trigger_outcome := ReturnsFalse | ReturnsOther | Raises.

Definition trigger := trigger_event -> trigger_outcome.

(** The instance fields. The row arrays live in [heap] and a table holds a
    reference into it: [backup] and [restore] copy references, [push] changes
    the array behind one. Logging, [_lastError] and [_indexes] are left out. *)
Record store := Store {
  heap : list (list row);
  _tables : gmap string nat;
  _triggers : gmap string (list (string * trigger));
  _whereConditions : list Condition.t;
  _operator : string;
  _orderBy : option (string * string);
  _limit : option Z;
  _offset : Z;
  _searchConditions : list (string * value);
  _relationships : gmap string (list relation);
  _timestamps : bool;
  _softDelete : bool;
  _schemas : option (gmap string schema);
  _lastInsertId : value;
  ticks : nat
}.

Definition set_heap (h : list (list row)) (s : store) : store :=
  Store h (_tables s) (_triggers s) (_whereConditions s) (_operator s)
    (_orderBy s) (_limit s) (_offset s) (_searchConditions s)
    (_relationships s) (_timestamps s) (_softDelete s) (_schemas s)
    (_lastInsertId s) (ticks s).

Definition set_tables (t : gmap string nat) (s : store) : store :=
  Store (heap s) t (_triggers s) (_whereConditions s) (_operator s)
    (_orderBy s) (_limit s) (_offset s) (_searchConditions s)
    (_relationships s) (_timestamps s) (_softDelete s) (_schemas s)
    (_lastInsertId s) (ticks s).

Definition set_triggers (t : gmap string (list (string * trigger)))
    (s : store) : store :=
  Store (heap s) (_tables s) t (_whereConditions s) (_operator s)
    (_orderBy s) (_limit s) (_offset s) (_searchConditions s)
    (_relationships s) (_timestamps s) (_softDelete s) (_schemas s)
    (_lastInsertId s) (ticks s).

Definition set_whereConditions (c : list Condition.t) (s : store) : store :=
  Store (heap s) (_tables s) (_triggers s) c (_operator s)
    (_orderBy s) (_limit s) (_offset s) (_searchConditions s)
    (_relationships s) (_timestamps s) (_softDelete s) (_schemas s)
    (_lastInsertId s) (ticks s).

Definition set_orderBy (o : option (string * string)) (s : store) : store :=
  Store (heap s) (_tables s) (_triggers s) (_whereConditions s) (_operator s)
    o (_limit s) (_offset s) (_searchConditions s)
    (_relationships s) (_timestamps s) (_softDelete s) (_schemas s)
    (_lastInsertId s) (ticks s).

Definition set_limit (l : option Z) (o : Z) (s : store) : store :=
  Store (heap s) (_tables s) (_triggers s) (_whereConditions s) (_operator s)
    (_orderBy s) l o (_searchConditions s)
    (_relationships s) (_timestamps s) (_softDelete s) (_schemas s)
    (_lastInsertId s) (ticks s).

Definition set_searchConditions (c : list (string * value))
    (s : store) : store :=
  Store (heap s) (_tables s) (_triggers s) (_whereConditions s) (_operator s)
    (_orderBy s) (_limit s) (_offset s) c
    (_relationships s) (_timestamps s) (_softDelete s) (_schemas s)
    (_lastInsertId s) (ticks s).

Definition set_relationships (r : gmap string (list relation))
    (s : store) : store :=
  Store (heap s) (_tables s) (_triggers s) (_whereConditions s) (_operator s)
    (_orderBy s) (_limit s) (_offset s) (_searchConditions s)
    r (_timestamps s) (_softDelete s) (_schemas s)
    (_lastInsertId s) (ticks s).

Definition set_schemas (m : option (gmap string schema)) (s : store) : store :=
  Store (heap s) (_tables s) (_triggers s) (_whereConditions s) (_operator s)
    (_orderBy s) (_limit s) (_offset s) (_searchConditions s)
    (_relationships s) (_timestamps s) (_softDelete s) m
    (_lastInsertId s) (ticks s).

Definition set_lastInsertId (v : value) (s : store) : store :=
  Store (heap s) (_tables s) (_triggers s) (_whereConditions s) (_operator s)
    (_orderBy s) (_limit s) (_offset s) (_searchConditions s)
    (_relationships s) (_timestamps s) (_softDelete s) (_schemas s)
    v (ticks s).

Definition set_ticks (n : nat) (s : store) : store :=
  Store (heap s) (_tables s) (_triggers s) (_whereConditions s) (_operator s)
    (_orderBy s) (_limit s) (_offset s) (_searchConditions s)
    (_relationships s) (_timestamps s) (_softDelete s) (_schemas s)
    (_lastInsertId s) n.

(** The constructor's [config]. *)
Record config := Config { timestamps : bool; softDelete : bool }.

(** [new VertexDB(config)]. [_schemas] and [_lastInsertId] are not assigned
    by the constructor. *)
Definition new (c : config) : store :=
  Store [] ∅ ∅ [] "AND" None None 0 [] ∅ (timestamps c) (softDelete c)
    None undefined 0%nat.

(** The array a reference points to. *)
Definition deref (s : store) (l : nat) : list row := default [] (heap s !! l).

(** The rows of a table, as direct inspection of [_tables] shows them. *)
Definition rows_of (s : store) (tableName : string) : option (list row) :=
  deref s <$> _tables s !! tableName.

(** The whole table-to-rows mapping. *)
Definition table_rows (s : store) : gmap string (list row) :=
  deref s <$> _tables s.

(** *** Methods run in a state monad with exceptions: a raised failure keeps
    the changes made before it. *)
Definition M (A : Type) : Type := store -> store * result A.

Definition ret {A} (a : A) : M A := fun s => (s, Ok a).
Definition throw {A} (e : error) : M A := fun s => (s, Throw e).
Definition bind {A B} (m : M A) (k : A -> M B) : M B :=
  fun s =>
    match m s with
    | (s', Ok a) => k a s'
    | (s', Throw e) => (s', Throw e)
    end.
Definition gets {A} (f : store -> A) : M A := fun s => (s, Ok (f s)).
Definition modify (f : store -> store) : M unit := fun s => (f s, Ok tt).
Definition lift {A} (r : result A) : M A := fun s => (s, r).

Notation "'do' x <- m ; k" := (bind m (fun x => k))
  (at level 10, x name, m at level 100, k at level 200).
Notation "m ;; k" := (bind m (fun _ => k))
  (at level 100, k at level 200, right associativity).

(** [{...a, ...b}]: the fields of [b] override those of [a]. *)
Definition spread (a b : row) : row := b ∪ a.

(** [this._tables.set(tableName, array)] with a newly built array. *)
Definition set_new_array (tableName : string) (rows : list row) : M unit :=
  modify (fun s =>
    set_tables (<[tableName := List.length (heap s)]> (_tables s))
      (set_heap (heap s ++ [rows]) s)).

(** *** Methods *)

Section Class.
(** What the host supplies: the ISO-8601 text of the [n]-th clock reading
    ([new Date().toISOString()]), and [Array.prototype.sort]. *)
Variable clock : nat -> string.
Variable array_sort : (row -> row -> Z) -> list row -> list row.

Definition now : M string :=
  fun s => (set_ticks (S (ticks s)) s, Ok (clock (ticks s))).

(** [_trigger]: every trigger of the table runs; the mutation is kept
    unless one of them returned [false]. A raising trigger is logged and
    otherwise ignored. *)
Definition _trigger (s : store) (tableName operation : string)
    (OLD NEW : option row) : bool :=
  fold_left
    (fun shouldCommit '(triggerName, trigger) =>
       match trigger (TriggerEvent operation OLD NEW) with
       | ReturnsFalse => false
       | ReturnsOther | Raises => shouldCommit
       end)
    (default [] (_triggers s !! tableName)) true.

(** [_validateSchema]: the first violated rule, rows first, then fields in
    declaration order. *)
Definition violated {X} (rule : option X) (bad : X -> bool) : option X :=
  match rule with
  | Some x => if bad x then Some x else None
  | None => None
  end.

Definition check_rules (r : row) (field : string) (rules : Rule.t)
    : result unit :=
  let v := read r field in
  if Rule.required rules && (strict_eq v undefined || strict_eq v null)
  then Throw (SchemaValidationError field IsRequired)
  else
  match violated (Rule.type rules)
          (fun ty => truthy (str ty) && negb (String.eqb (typeof v) ty)) with
  | Some ty => Throw (SchemaValidationError field (MustBeOfType ty))
  | None =>
  match violated (Rule.min rules)
          (fun m => truthy (number m) && lt v (number m)) with
  | Some m => Throw (SchemaValidationError field (AtLeast m))
  | None =>
  match violated (Rule.max rules)
          (fun m => truthy (number m) && gt v (number m)) with
  | Some m => Throw (SchemaValidationError field (AtMost m))
  | None =>
  match violated (Rule.length rules)
          (fun n => truthy (number n) &&
                    negb (Z.of_nat (String.length (ToString v)) =? n)) with
  | Some n => Throw (SchemaValidationError field (ExactLength n))
  | None =>
  match violated (Rule.pattern rules)
          (fun test => negb (test (ToString v))) with
  | Some _ => Throw (SchemaValidationError field PatternMismatch)
  | None => Ok tt
  end end end end end.

Fixpoint check_row (r : row) (sch : schema) : result unit :=
  match sch with
  | [] => Ok tt
  | (field, rules) :: sch' =>
      match check_rules r field rules with
      | Throw e => Throw e
      | Ok _ => check_row r sch'
      end
  end.

Fixpoint _validateSchema (data : list row) (sch : schema) : result unit :=
  match data with
  | [] => Ok tt
  | r :: data' =>
      match check_row r sch with
      | Throw e => Throw e
      | Ok _ => _validateSchema data' sch
      end
  end.

(** An array the caller builds ([const data = [...]]) before handing it to
    the class. *)
Definition array_literal (rows : list row) : M nat :=
  fun s => (set_heap (heap s ++ [rows]) s, Ok (List.length (heap s))).

(** The [data.map(...)] of [setTable] when timestamps are on: a row keeps a
    truthy [created_at] or [updated_at] and gets a clock reading otherwise. *)
Fixpoint stamp_rows (data : list row) : M (list row) :=
  match data with
  | [] => ret []
  | r :: data' =>
      do created <-
        (if truthy (read r "created_at") then ret (read r "created_at")
         else do t <- now; ret (str t));
      do updated <-
        (if truthy (read r "updated_at") then ret (read r "updated_at")
         else do t <- now; ret (str t));
      do rest <- stamp_rows data';
      ret (<["updated_at" := updated]> (<["created_at" := created]> r)
           :: rest)
  end.

(** [setTable(tableName, data, schema)]. [data] is a reference to the
    caller's array ([None] for the default, a new empty array); without
    timestamps the table is that very array. The argument is typed as an
    array, so the "Data must be an array" branch has no input here. *)
Definition setTable (tableName : string) (data : option nat)
    (sch : option schema) : M unit :=
  do data <- (match data with
              | Some l => ret l
              | None => array_literal []
              end);
  do rows <- gets (fun s => deref s data);
  (match sch with
   | Some sch => lift (_validateSchema rows sch)
   | None => ret tt
   end) ;;
  do stamping <- gets _timestamps;
  if stamping
  then do rows <- stamp_rows rows; set_new_array tableName rows
  else modify (fun s => set_tables (<[tableName := data]> (_tables s)) s).

Definition createTrigger (tableName triggerName : string) (t : trigger)
    : M unit :=
  fun s =>
    match _tables s !! tableName with
    | None => (s, Throw (TableNotFound tableName))
    | Some _ =>
        let existing := default [] (_triggers s !! tableName) in
        let s1 := set_triggers (<[tableName := existing]> (_triggers s)) s in
        if existsb (fun '(n, _) => String.eqb n triggerName) existing
        then (s1, Throw (TriggerAlreadyExists triggerName))
        else
          (set_triggers
             (<[tableName := existing ++ [(triggerName, t)]]> (_triggers s))
             s, Ok tt)
    end.

Definition createTable (tableName : string) (sch : option schema)
    : M unit :=
  fun s =>
    match _tables s !! tableName with
    | Some _ => (s, Throw (TableAlreadyExists tableName))
    | None =>
        let s1 :=
          set_tables (<[tableName := List.length (heap s)]> (_tables s))
            (set_heap (heap s ++ [[]]) s) in
        match sch with
        | Some sch =>
            (set_schemas
               (Some (<[tableName := sch]> (default ∅ (_schemas s1)))) s1,
             Ok tt)
        | None => (s1, Ok tt)
        end
    end.

(** *** The condition builder *)

Definition search (conditions : list (string * value)) : M unit :=
  modify (set_searchConditions conditions).

Definition orderBy (column : string) (direction : option string) : M unit :=
  modify (set_orderBy
            (Some (column, toUpperCase (default "ASC" direction)))).

Definition limit (lim : Z) (offset : option Z) : M unit :=
  modify (set_limit (Some lim) (default 0 offset)).

Definition whereOperator (field operator : string) (v : operand) : M unit :=
  modify (fun s =>
    set_whereConditions
      (_whereConditions s ++ [Condition.Make field operator v]) s).

Definition where_ (field : string) (v : operand) (operator : option string)
    : M unit :=
  modify (fun s =>
    set_whereConditions
      (_whereConditions s ++
         [Condition.Make field (default "AND" operator) v]) s).

Definition orWhere (field : string) (v : operand) : M unit :=
  where_ field v (Some "OR").

Definition whereIn (field : string) (values : operand) : M unit :=
  match values with
  | Arr _ =>
      modify (fun s =>
        set_whereConditions
          (_whereConditions s ++ [Condition.Make field "IN" values]) s)
  | Prim _ => throw (InvalidInput "Values must be an array")
  end.

Definition whereLike (field : string) (pattern : string) : M unit :=
  modify (fun s =>
    set_whereConditions
      (_whereConditions s ++
         [Condition.Make field "LIKE" (Prim (str pattern))]) s).

Definition _resetConditions (s : store) : store :=
  Store (heap s) (_tables s) (_triggers s) [] "AND" None None 0 []
    (_relationships s) (_timestamps s) (_softDelete s) (_schemas s)
    (_lastInsertId s) (ticks s).

(** *** The evaluator *)

(** The body of the [switch (condition.operator)] in [_applyConditions]. *)
Definition eval_condition (r : row) (condition : Condition.t)
    : result bool :=
  let x := read r (Condition.field condition) in
  let v := Condition.value condition in
  if String.eqb (Condition.operator condition) "IN" then
    match v with
    | Arr vs => Ok (array_includes vs x)
    | Prim (str s) => Ok (includes s (ToString x))
    | Prim _ => Throw TypeError
    end
  else if String.eqb (Condition.operator condition) "LIKE" then
    match v with
    | Prim (str p) => Ok (includes (ToString x) (strip_percent p))
    | _ => Throw TypeError
    end
  else if String.eqb (Condition.operator condition) ">" then
    Ok (gt x (ToPrimitive v))
  else if String.eqb (Condition.operator condition) "<" then
    Ok (lt x (ToPrimitive v))
  else if String.eqb (Condition.operator condition) ">=" then
    Ok (ge x (ToPrimitive v))
  else if String.eqb (Condition.operator condition) "<=" then
    Ok (le x (ToPrimitive v))
  else if String.eqb (Condition.operator condition) "!=" then
    Ok (negb (strict_eq_operand x v))
  else
    Ok (strict_eq_operand x v).

(** [conditions.every(...)]: stops at the first [false] or failure. *)
Fixpoint every {A} (f : A -> result bool) (l : list A) : result bool :=
  match l with
  | [] => Ok true
  | x :: l' =>
      match f x with
      | Throw e => Throw e
      | Ok false => Ok false
      | Ok true => every f l'
      end
  end.

(** [rows.filter(...)] with a callback that may raise. *)
Fixpoint filter_rows (f : row -> result bool) (l : list row)
    : result (list row) :=
  match l with
  | [] => Ok []
  | r :: l' =>
      match f r with
      | Throw e => Throw e
      | Ok keep =>
          match filter_rows f l' with
          | Throw e => Throw e
          | Ok rest => Ok (if keep then r :: rest else rest)
          end
      end
  end.

(** The where-condition step of a read: does the row pass all conditions? *)
Definition where_accepts (conditions : list Condition.t) (r : row)
    : result bool :=
  every (eval_condition r) conditions.

Definition search_accepts (conditions : list (string * value)) (r : row)
    : bool :=
  existsb
    (fun '(column, term) =>
       includes (toLowerCase (ToString (read r column)))
                (toLowerCase (ToString term)))
    conditions.

(** The comparator handed to [results.sort]. *)
Definition order_compare (column direction : string) (a b : row) : Z :=
  if String.eqb direction "ASC"
  then (if gt (read a column) (read b column) then 1 else -1)
  else (if lt (read a column) (read b column) then 1 else -1).

Definition _applyConditions (s : store) (data : list row)
    : result (list row) :=
  match
    (if (0 <? List.length (_whereConditions s))%nat
     then filter_rows (where_accepts (_whereConditions s)) data
     else Ok data)
  with
  | Throw e => Throw e
  | Ok results =>
      let results :=
        if (0 <? List.length (_searchConditions s))%nat
        then List.filter (search_accepts (_searchConditions s)) results
        else results in
      let results :=
        match _orderBy s with
        | Some (column, direction) =>
            array_sort (order_compare column direction) results
        | None => results
        end in
      let results :=
        match _limit s with
        | Some lim => slice results (_offset s) (_offset s + lim)
        | None => results
        end in
      Ok results
  end.

(** *** Reads *)

Definition get (tableName : string) : M (list row) :=
  fun s =>
    match _tables s !! tableName with
    | None => (s, Throw (TableNotFound tableName))
    | Some l =>
        let results := deref s l in
        let results :=
          if _softDelete s
          then List.filter (fun r => negb (truthy (read r "deleted_at")))
                 results
          else results in
        match _applyConditions s results with
        | Throw e => (s, Throw e)
        | Ok results => (_resetConditions s, Ok results)
        end
    end.

Definition getOne (tableName : string) : M (option row) :=
  do results <- get tableName; ret (head results).

Definition count (tableName : string) : M nat :=
  do results <- get tableName; ret (List.length results).

Definition exists_ (tableName : string) : M bool :=
  do n <- count tableName; ret (0 <? n)%nat.

(** The shape of [distinct], [avg], [sum], [min], [max], [groupBy] and
    [toJSON]: [const results = this.get(tableName)] followed by a
    computation [f] on the rows returned. *)
Definition derived_read {A} (f : list row -> A) (tableName : string) : M A :=
  do results <- get tableName; ret (f results).

(** *** Writes *)

Definition _getNextId (s : store) (tableName : string) : Z :=
  match rows_of s tableName with
  | None | Some [] => 1
  | Some (r :: table) =>
      let id := fun r : row => default 0 (parseInt (read r "id")) in
      number_add (Math_max (id r) (map id table)) 1
  end.

Definition getLastInsertId (s : store) : value :=
  if negb (truthy (_lastInsertId s)) then null else _lastInsertId s.

Definition insert (tableName : string) (data : row) : M unit :=
  fun s =>
    match _tables s !! tableName with
    | None => (s, Throw (TableNotFound tableName))
    | Some table =>
        let newData :=
          if strict_eq (read data "id") (str "AUTO_INCREMENT")
          then <["id" := number (_getNextId s tableName)]> data
          else data in
        let s := set_lastInsertId (read newData "id") s in
        let '(s, newData) :=
          if _timestamps s then
            (set_ticks (S (S (ticks s))) s,
             <["updated_at" := str (clock (S (ticks s)))]>
               (<["created_at" := str (clock (ticks s))]> newData))
          else (s, newData) in
        let shouldInsert :=
          _trigger s tableName "insert" None (Some newData) in
        if shouldInsert
        then (set_heap (alter (fun rows => rows ++ [newData]) table (heap s))
                s, Ok tt)
        else (s, Ok tt)
    end.

Fixpoint bulkInsert (tableName : string) (dataArray : list row) : M unit :=
  match dataArray with
  | [] => ret tt
  | data :: rest => insert tableName data ;; bulkInsert tableName rest
  end.

(** The test [update] and [delete] apply to each row. *)
Definition matches (conditions : list Condition.t) (r : row) : bool :=
  forallb
    (fun condition =>
       strict_eq_operand (read r (Condition.field condition))
         (Condition.value condition))
    conditions.

Definition update (tableName : string) (data : row) : M unit :=
  fun s =>
    match _tables s !! tableName with
    | None => (s, Throw (TableNotFound tableName))
    | Some table =>
        let '(s, updateData) :=
          if _timestamps s
          then (set_ticks (S (ticks s)) s,
                <["updated_at" := str (clock (ticks s))]> data)
          else (s, data) in
        let updatedTable :=
          map (fun r =>
                 let shouldUpdate := matches (_whereConditions s) r in
                 let newData :=
                   if shouldUpdate then spread r updateData else r in
                 let shouldUpdate :=
                   shouldUpdate &&
                   _trigger s tableName "update" (Some r) (Some newData) in
                 if shouldUpdate then newData else r)
              (deref s table) in
        let '(s, _) := set_new_array tableName updatedTable s in
        (_resetConditions s, Ok tt)
    end.

(** The soft branch of [delete]: each row that matches and is not vetoed
    gets its own clock reading. *)
Fixpoint mark_deleted (shouldDelete : row -> bool) (table : list row)
    : M (list row) :=
  match table with
  | [] => ret []
  | r :: table' =>
      do r' <-
        (if shouldDelete r
         then do t <- now; ret (<["deleted_at" := str t]> r)
         else ret r);
      do rest <- mark_deleted shouldDelete table';
      ret (r' :: rest)
  end.

Definition delete (tableName : string) : M unit :=
  fun s =>
    match _tables s !! tableName with
    | None => (s, Throw (TableNotFound tableName))
    | Some table =>
        let shouldDelete := fun r =>
          matches (_whereConditions s) r &&
          _trigger s tableName "delete" (Some r) None in
        ((if _softDelete s
          then do updatedTable <- mark_deleted shouldDelete (deref s table);
               set_new_array tableName updatedTable
          else set_new_array tableName
                 (List.filter (fun r => negb (shouldDelete r))
                    (deref s table))) ;;
         modify _resetConditions) s
    end.

Definition truncate (tableName : string) : M unit :=
  fun s =>
    match _tables s !! tableName with
    | None => (s, Throw (TableNotFound tableName))
    | Some _ => set_new_array tableName [] s
    end.

(** *** Schemas *)

Inductive schema_lookup := NoSchemas | NoEntry | Found (sch : schema).

(** [getSchema]: [null] before any schema was recorded, else the entry
    (or [undefined]). *)
Definition getSchema (s : store) (tableName : string) : schema_lookup :=
  match _schemas s with
  | None => NoSchemas
  | Some m => match m !! tableName with Some sch => Found sch | None => NoEntry end
  end.

Definition updateSchema (tableName : string) (sch : schema) : M unit :=
  fun s =>
    match _tables s !! tableName with
    | None => (s, Throw (TableNotFound tableName))
    | Some table =>
        let s :=
          set_schemas (Some (<[tableName := sch]> (default ∅ (_schemas s))))
            s in
        (s, _validateSchema (deref s table) sch)
    end.

(** *** Backup, restore, transaction *)

Record snapshot := Snapshot {
  timestamp : string;
  data : gmap string nat;
  metadata_tables : gmap string nat;
  metadata_relationships : gmap string (list relation)
}.

Fixpoint replace_first_T (s : string) : string :=
  match s with
  | String c s' =>
      if Ascii.eqb c "T" then String " " s' else String c (replace_first_T s')
  | EmptyString => EmptyString
  end.

Definition _getCurrentTimestamp : M string :=
  do t <- now; ret (replace_first_T (String.substring 0 19 t)).

(** [backup.data[tableName] = data]: the snapshot holds the table's array
    itself, not a copy of it, and no entry for a table called [__proto__]
    (that assignment goes to the inherited setter). The relationship lists
    are held by value: [setRelation], which pushes onto the arrays a
    snapshot shares, is not part of the model. *)
Definition backup : M snapshot :=
  do t <- _getCurrentTimestamp;
  gets (fun s =>
    Snapshot t (base.delete "__proto__" (_tables s))
      ((fun l => List.length (deref s l)) <$> _tables s)
      (_relationships s)).

Definition restore (b : snapshot) : M unit :=
  modify (fun s =>
    set_relationships (metadata_relationships b) (set_tables (data b) s)).

Definition transaction (callback : M unit) : M unit :=
  do b <- backup;
  fun s =>
    match callback s with
    | (s', Ok _) => (s', Ok tt)
    | (s', Throw error) =>
        match restore b s' with
        | (s'', Ok _) => (s'', Throw error)
        | (s'', Throw e) => (s'', Throw e)
        end
    end.


End Class.
End VertexDB.

(* ===================================================================== *)
(** ** The rest of the class *)
(* ===================================================================== *)

(** The methods around the core: table and column maintenance, the derived
    reads, joins, pagination, indexes and statistics. They reuse the store,
    the monad and the evaluator of [VertexDB]. Not modelled: logging, the
    JSON text of [toJSON] and [fromJSON], [avg], [min] and [max] (arithmetic
    outside the number fragment), [groupBy], and [setRelation] (it pushes
    onto an array that snapshots share, while [_relationships] holds its
    lists by value). *)
Module VertexDBMore.
Import JS VertexDB.

(** *** Language *)

(** [parts.join(sep)] on an array of primitives. *)
Definition array_join (sep : string) (vs : list value) : string :=
  String.concat sep
    (map (fun v => match v with undefined | null => "" | _ => ToString v end) vs).

(** [a + b] with [a] a number or a string and [b] a truthy primitive or 0:
    concatenation as soon as one side is a string, else addition with
    [true] counting 1. *)
Definition add (a b : value) : value :=
  match a, b with
  | str x, _ => str (x +:+ ToString b)
  | _, str y => str (ToString a +:+ y)
  | _, _ =>
      number (number_add (default 0 (ToNumber a)) (default 0 (ToNumber b)))
  end.

(** [x || 0]. *)
Definition or_zero (x : value) : value := if truthy x then x else number 0.

(** [Math.ceil(total / perPage)]: dividing by 0 leaves the integers. *)
Inductive quotient := Finite (n : Z) | Infinity | MinusInfinity | NaN.

Definition ceil_div (total perPage : Z) : quotient :=
  if perPage =? 0
  then (if total =? 0 then NaN
        else if 0 <? total then Infinity else MinusInfinity)
  else Finite (- ((- total) `div` perPage)).

(** [page < totalPages]. *)
Definition less_than_quotient (page : Z) (q : quotient) : bool :=
  match q with
  | Finite n => page <? n
  | Infinity => true
  | MinusInfinity | NaN => false
  end.

(** *** Triggers, tables, columns *)

(** The two failures that name no single table. *)
Inductive not_found :=
  | TriggerNotFound (tableName triggerName : string)
  | TablesNotFound.

(** [dropTrigger]: the check names one trigger, the removal is
    [this._triggers.delete(tableName)]. *)
Definition dropTrigger (tableName triggerName : string) (s : store)
    : store * (not_found + unit) :=
  match _triggers s !! tableName with
  | Some triggers =>
      if existsb (fun '(n, _) => String.eqb n triggerName) triggers
      then (set_triggers (base.delete tableName (_triggers s)) s, inr tt)
      else (s, inl (TriggerNotFound tableName triggerName))
  | None => (s, inl (TriggerNotFound tableName triggerName))
  end.

(** [addColumn(tableName, columnName, defaultValue = null)]: an omitted or
    [undefined] default is [null]. *)
Definition addColumn (tableName columnName : string) (defaultValue : value)
    : M unit :=
  fun s =>
    match _tables s !! tableName with
    | None => (s, Throw (TableNotFound tableName))
    | Some table =>
        let defaultValue :=
          if strict_eq defaultValue undefined then null else defaultValue in
        set_new_array tableName
          (map (fun r : row => <[columnName := defaultValue]> r)
             (deref s table)) s
    end.

Definition dropColumn (tableName columnName : string) : M unit :=
  fun s =>
    match _tables s !! tableName with
    | None => (s, Throw (TableNotFound tableName))
    | Some table =>
        set_new_array tableName
          (map (fun r : row => base.delete columnName r) (deref s table)) s
    end.

(** [raw(tableName, filterFn)], for a filter that returns and does not
    touch the store. *)
Definition raw (tableName : string) (filterFn : row -> bool)
    : M (list row) :=
  fun s =>
    match _tables s !! tableName with
    | None => (s, Throw (TableNotFound tableName))
    | Some table => (s, Ok (List.filter filterFn (deref s table)))
    end.

(** One index: the rows of the table grouped under their key. The order in
    which the keys were met is not recorded. *)
Abbreviation table_index := (gmap string (list row)).

(** *** Derived reads *)

Section Reads.
Variable clock : nat -> string.
Variable array_sort : (row -> row -> Z) -> list row -> list row.

(** [[...new Set(values)]]: each value once, at its first occurrence. *)
Definition set_values (vs : list value) : list value :=
  fold_left (fun seen v => if array_includes seen v then seen else seen ++ [v])
    vs [].

Definition distinct (tableName column : string) : M (list value) :=
  do results <- get array_sort tableName;
  ret (set_values (map (fun r => read r column) results)).

Definition sum (tableName column : string) : M value :=
  do results <- get array_sort tableName;
  ret (fold_left (fun sum r => add sum (or_zero (read r column)))
         results (number 0)).

Record page_result := Page {
  page_data : list row;
  total : nat;
  perPage : Z;
  currentPage : Z;
  totalPages : quotient;
  hasNextPage : bool;
  hasPrevPage : bool
}.

(** [paginate(tableName, page, perPage)]: [count] first, then
    [limit(perPage, offset).get(tableName)]. *)
Definition paginate (tableName : string) (page perPage : Z)
    : M page_result :=
  do total <- count array_sort tableName;
  let totalPages := ceil_div (Z.of_nat total) perPage in
  let offset := (page - 1) * perPage in
  do results <- (limit perPage (Some offset) ;; get array_sort tableName);
  ret (Page results total perPage page totalPages
         (less_than_quotient page totalPages) (1 <? page)).

(** *** Joins *)

(** The fields of a row under the names [`${table}_${key}`]. *)
Definition prefix_keys (table : string) (r : row) : row :=
  kmap (fun key => table +:+ "_" +:+ key) r.

(** [joined[`${table}_${key}`] = row[key]] for every key of the row. An
    assignment to the name [__proto__] goes to the inherited setter and
    creates no field. *)
Definition prefixed (table : string) (r : row) : row :=
  base.delete "__proto__" (prefix_keys table r).

(** The one way to a field called [__proto__]: the first row assigns
    [null] to that name, which removes the prototype and its setter, and
    the second row assigns to it afterwards. *)
Definition own_proto (first second : row) : row :=
  match first !! "__proto__", second !! "__proto__" with
  | Some null, Some v => {[ "__proto__" := v ]}
  | _, _ => ∅
  end.

Definition join_rows (table1 table2 key1 key2 : string)
    (data1 data2 : list row) : list row :=
  map (fun row1 =>
         match List.find
                 (fun row2 => strict_eq (read row2 key2) (read row1 key1))
                 data2 with
         | Some matching =>
             prefixed table2 matching ∪ prefixed table1 row1
             ∪ own_proto (prefix_keys table1 row1)
                 (prefix_keys table2 matching)
         | None => row1
         end)
      data1.

Definition join (table1 table2 key1 key2 : string) (s : store)
    : not_found + list row :=
  match rows_of s table1, rows_of s table2 with
  | Some data1, Some data2 =>
      inr (join_rows table1 table2 key1 key2 data1 data2)
  | _, _ => inl TablesNotFound
  end.

(** *** Indexes and statistics *)

(** The instance with its [_indexes] field: [undefined] until the first
    [createIndex], then a map in insertion order. *)
Record database := Database {
  core : store;
  _indexes : option (list (string * table_index))
}.

Definition index_key (columns : list string) (r : row) : string :=
  array_join "|" (map (fun col => read r col) columns).

Definition build_index (columns : list string) (table : list row)
    : table_index :=
  fold_left
    (fun (idx : table_index) r =>
       let key := index_key columns r in
       <[key := default [] (idx !! key) ++ [r]]> idx)
    table ∅.

(** [map.set(key, v)] on a map kept in insertion order. *)
Fixpoint map_set {V} (key : string) (v : V) (m : list (string * V))
    : list (string * V) :=
  match m with
  | [] => [(key, v)]
  | (k, x) :: m' =>
      if String.eqb k key then (k, v) :: m' else (k, x) :: map_set key v m'
  end.

Definition createIndex (tableName : string) (columns : list string)
    (d : database) : database * result unit :=
  match _tables (core d) !! tableName with
  | None => (d, Throw (TableNotFound tableName))
  | Some table =>
      let indexes := default [] (_indexes d) in
      let idx := build_index columns (deref (core d) table) in
      (Database (core d)
         (Some (map_set (tableName +:+ ":" +:+ String.concat "+" columns)
                  idx indexes)),
       Ok tt)
  end.

Definition dropTable (tableName : string) (d : database)
    : database * result unit :=
  let s := core d in
  match _tables s !! tableName with
  | None => (d, Throw (TableNotFound tableName))
  | Some _ =>
      let s := set_tables (base.delete tableName (_tables s)) s in
      let s := set_triggers (base.delete tableName (_triggers s)) s in
      let s := set_schemas (base.delete tableName <$> _schemas s) s in
      let s :=
        set_relationships (base.delete tableName (_relationships s)) s in
      (Database s
         (List.filter
            (fun '(key, _) => negb (String.prefix (tableName +:+ ":") key))
          <$> _indexes d),
       Ok tt)
  end.

(** A method of the core, run on the instance. *)
Definition on_core {A} (m : M A) (d : database) : database * result A :=
  let '(s, r) := m (core d) in (Database s (_indexes d), r).

Record stats := Stats {
  stats_tables : gmap string (nat * nat);
  totalRecords : nat;
  lastModified : string;
  stats_indexes : list string;
  stats_relationships : gmap string (list relation)
}.

(** [getStats]: per table the number of stored rows and the number of
    fields of the first one. [stats.tables[tableName] = ...] creates no
    entry for a table called [__proto__]; the order of the relationship
    entries is not recorded. *)
Definition getStats (d : database) : database * stats :=
  let s := core d in
  let counts :=
    (fun l => (List.length (deref s l),
               match deref s l with r :: _ => size r | [] => 0%nat end))
    <$> _tables s in
  (Database (set_ticks (S (ticks s)) s) (_indexes d),
   Stats (base.delete "__proto__" counts)
     (map_fold (fun _ '(n, _) acc => (acc + n)%nat) 0%nat counts)
     (replace_first_T (String.substring 0 19 (clock (ticks s))))
     (fst <$> default [] (_indexes d))
     (_relationships s)).

End Reads.
End VertexDBMore.

(* ===================================================================== *)
(** ** Vocabulary for the properties, and the stores they are tried on *)
(* ===================================================================== *)

Module Vocabulary.
Import JS VertexDB.

(** No condition, search, order or limit is pending: the state the
    constructor and [_resetConditions] leave. *)
Definition no_pending (s : store) : Prop :=
  _whereConditions s = [] /\ _searchConditions s = [] /\
  _orderBy s = None /\ _limit s = None.

(** The rows a read starts from: all of them, or those without a deletion
    mark when soft deletion is on. *)
Definition live_rows (s : store) (rows : list row) : list row :=
  if _softDelete s
  then List.filter (fun r => negb (truthy (read r "deleted_at"))) rows
  else rows.

(** The integer [_getNextId] takes from a row: [parseInt(row.id) || 0]. *)
Definition id_number (r : row) : Z := default 0 (parseInt (read r "id")).

(** Every id number of the rows is a safe integer, one that doubles tell
    apart from its neighbours. *)
Definition safe_ids (rows : list row) : Prop :=
  forall r, r ∈ rows -> isSafeInteger (id_number r) = true.

(** An id as the specification counts it: an integer id is itself, a
    missing id and an id that is not an integer are 0. *)
Definition integer_id_or_zero (r : row) : Z :=
  match read r "id" with
  | number n => n
  | _ => 0
  end.

(** The next id in the words of the specification:
    max(existing integer ids, 0) + 1. *)
Definition spec_next_id (rows : list row) : Z :=
  fold_right Z.max 0 (map integer_id_or_zero rows) + 1.

(** The verdict of the table's triggers on a row about to be inserted or
    deleted. *)
Definition vetoed (s : store) (tableName operation : string)
    (OLD NEW : option row) : Prop :=
  _trigger s tableName operation OLD NEW = false.

End Vocabulary.

(** Concrete stores and rows. The clock starts at midnight of 1 January
    2025 and shows its reading count in the fraction; the sort is V8's. *)
Module Scenario.
Import JS VertexDB.

Definition clock (n : nat) : string :=
  "2025-01-01T00:00:00." +:+ pretty n +:+ "Z".

Definition array_sort := @Engine.sort row.

Definition obj (fields : list (string * value)) : row := list_to_map fields.

(** Run a method and keep the store. *)
Definition exec {A} (m : M A) (s : store) : store := (m s).1.

Definition plain : config := Config false false.
Definition soft : config := Config false true.

Definition required_name : schema :=
  [("name", Rule.Make true (Some "string") None None None None)].

Definition required_age : schema :=
  [("age", Rule.Make true (Some "number") (Some 18) (Some 100) None None)].

(** [db.createTable('users', {name: {type: 'string', required: true}})]. *)
Definition users_with_schema : store :=
  exec (createTable "users" (Some required_name)) (new plain).

(** [db.createTable('users')]. *)
Definition users_empty : store := exec (createTable "users" None) (new plain).

Definition veto_all : trigger := fun _ => ReturnsFalse.

(** [users] with a trigger that vetoes every mutation. *)
Definition guarded_users : store :=
  exec (createTrigger "users" "deny" veto_all) users_empty.

Definition jane : row :=
  obj [("id", number 1); ("name", str "Jane"); ("age", number 25)].
Definition john : row :=
  obj [("id", number 2); ("name", str "John"); ("age", number 25)].
Definition june : row :=
  obj [("id", number 3); ("name", str "Jane"); ("age", number 31)].

Definition three_users : store :=
  exec (bulkInsert clock "users" [jane; john; june]) users_empty.

(** The same three users in a store with soft deletion on. *)
Definition soft_users : store :=
  exec (bulkInsert clock "users" [jane; john; june])
    (exec (createTable "users" None) (new soft)).

End Scenario.

(** Further vocabulary and stores, for the properties of the rest of the
    class. *)
Module MoreVocabulary.
Import JS VertexDB VertexDBMore.

(** Every table points at an array that exists. *)
Definition well_formed (s : store) : Prop :=
  forall (tableName : string) (l : nat),
    _tables s !! tableName = Some l -> is_Some (heap s !! l).

(** A method that never changes an array that is already there: it may
    only add arrays. *)
Definition adds_arrays_only {A} (m : M A) : Prop :=
  forall s : store, heap s `prefix_of` heap (m s).1.

(** The table has the trigger. *)
Definition has_trigger (s : store) (tableName triggerName : string) : Prop :=
  exists (triggers : list (string * trigger)) (t : trigger),
    _triggers s !! tableName = Some triggers /\ (triggerName, t) ∈ triggers.

(** What the soft branch of [delete] makes of a table when the clock has
    been read [t] times: the rows to delete carry successive readings. *)
Fixpoint marked_rows (clock : nat -> string) (shouldDelete : row -> bool)
    (t : nat) (table : list row) : list row :=
  match table with
  | [] => []
  | r :: table' =>
      if shouldDelete r
      then <["deleted_at" := str (clock t)]> r
           :: marked_rows clock shouldDelete (S t) table'
      else r :: marked_rows clock shouldDelete t table'
  end.

(** What a stored value adds to a numeric total: a number itself, [true]
    one, every other value that is not a non-empty string nothing. *)
Definition numeric_value (v : value) : Z :=
  match v with
  | number n => n
  | boolean true => 1
  | _ => 0
  end.

(** Each value once, where it first occurs. *)
Fixpoint first_occurrences (vs : list value) : list value :=
  match vs with
  | [] => []
  | v :: vs' =>
      v :: List.filter (fun x => negb (strict_eq x v)) (first_occurrences vs')
  end.

(** The total of a column, and the total of its absolute values. *)
Definition column_total (column : string) (rows : list row) : Z :=
  foldr Z.add 0 (map (fun r => numeric_value (read r column)) rows).

Definition column_magnitude (column : string) (rows : list row) : Z :=
  foldr Z.add 0 (map (fun r => Z.abs (numeric_value (read r column))) rows).

Definition nonempty_string (v : value) : Prop :=
  exists x : string, v = str x /\ x <> "".

End MoreVocabulary.

Module MoreScenario.
Import JS VertexDB VertexDBMore Scenario.

Definition allow_all : trigger := fun _ => ReturnsOther.
Definition failing : trigger := fun _ => Raises.

(** [users] with the triggers [audit] and [deny]. *)
Definition two_triggers : store :=
  exec (createTrigger "users" "audit" allow_all ;;
        createTrigger "users" "deny" veto_all) users_empty.

(** Three users and the pending condition [where('name', 'Jane')]. *)
Definition janes : store :=
  exec (where_ "name" (Prim (str "Jane")) None) three_users.

(** Three users and the pending condition [where('name', 'LIKE', 5)]. *)
Definition like_five : store :=
  exec (whereOperator "name" "LIKE" (Prim (number 5))) three_users.

(** Three users and the pending [limit(2, 1)]. *)
Definition second_and_third : store := exec (limit 2 (Some 1)) three_users.

Definition order1 : row :=
  obj [("id", number 10); ("user_id", number 1); ("total", number 30)].
Definition order2 : row :=
  obj [("id", number 11); ("user_id", number 1); ("total", number 5)].

(** Three users and two orders of the first one. *)
Definition shop : store :=
  exec (createTable "orders" None ;;
        bulkInsert clock "orders" [order1; order2]) three_users.

Definition auto (name : string) : row :=
  obj [("id", str "AUTO_INCREMENT"); ("name", str name)].

(** A callback that rewrites the users and then fails. *)
Definition rewrite_then_fail : M unit :=
  update clock "users" (obj [("age", number 1)]) ;; throw (Raised "boom").

End MoreScenario.

(* ===================================================================== *)
(** ** Facts about the language fragment and the engine *)
(* ===================================================================== *)

Module JSFacts.
Import JS.

Example parseInt_examples :
  parseInt (number 42) = Some 42 /\ parseInt (number (-5)) = Some (-5) /\
  parseInt (str " 12abc") = Some 12 /\ parseInt (str "abc") = None /\
  parseInt (str "0x1F") = Some 31 /\ parseInt undefined = None /\
  parseInt (str "-07") = Some (-7) /\ parseInt (str "") = None.
Proof. vm_compute. repeat split. Qed.

Example relational_examples :
  gt (number 20) (number 18) = true /\ gt (str "b") (str "a") = true /\
  lt (str "10") (number 9) = false /\ lt undefined (number 1) = false /\
  ge undefined undefined = false /\ le null (number 0) = true /\
  gt (str " 12 ") (number 3) = true.
Proof. vm_compute. repeat split. Qed.

Example string_examples :
  includes "John Doe" (strip_percent "%John%") = true /\
  includes "abc" "" = true /\ includes "abc" "cb" = false /\
  toLowerCase "JoHn" = "john" /\ toUpperCase "desc" = "DESC" /\
  trim "  a b  " = "a b".
Proof. vm_compute. repeat split. Qed.

Example slice_examples :
  slice [1; 2; 3; 4] 1 3 = [2; 3] /\ slice [1; 2; 3] 5 7 = [] /\
  slice [1; 2; 3] (-2) 10 = [2; 3] /\ slice [1; 2; 3] 2 1 = [].
Proof. vm_compute. repeat split. Qed.

(** *** Sums of doubles *)

Example round_double_examples :
  round_double (2 ^ 53) = 2 ^ 53 /\
  round_double (2 ^ 53 + 1) = 2 ^ 53 /\
  round_double (2 ^ 53 + 2) = 2 ^ 53 + 2 /\
  round_double (2 ^ 53 + 3) = 2 ^ 53 + 4 /\
  round_double (- (2 ^ 53 + 1)) = - 2 ^ 53 /\
  round_double (2 ^ 54 + 2) = 2 ^ 54 /\
  round_double (2 ^ 54 + 6) = 2 ^ 54 + 8 /\
  number_add 9007199254740991 2 = 9007199254740992 /\
  number_add 9007199254740992 1 = 9007199254740992.
Proof. vm_compute. repeat split. Qed.

(** Up to [2^53] in absolute value a sum is exact. *)
Lemma round_double_exact (x : Z) : Z.abs x <= 2 ^ 53 -> round_double x = x.
Proof.
  intros Hx. unfold round_double.
  destruct (Z.ltb_spec (Z.abs x) (2 ^ 53)) as [_ | Hge]; [done|].
  change (2 ^ 53) with 9007199254740992 in *.
  assert (Hcases : x = 9007199254740992 \/ x = - 9007199254740992) by lia.
  destruct Hcases as [-> | ->]; reflexivity.
Qed.

Lemma isSafeInteger_spec (n : Z) :
  isSafeInteger n = true <-> - MAX_SAFE_INTEGER <= n <= MAX_SAFE_INTEGER.
Proof.
  unfold isSafeInteger. rewrite Z.leb_le. lia.
Qed.

(** One more than a safe integer is exact. *)
Lemma number_add_one (n : Z) :
  isSafeInteger n = true -> number_add n 1 = n + 1.
Proof.
  intros Hn%isSafeInteger_spec. apply round_double_exact.
  unfold MAX_SAFE_INTEGER in Hn. change (2 ^ 53) with 9007199254740992 in *.
  lia.
Qed.


(** *** [parseInt] reads back what [String] prints *)

Lemma digit_value_char (d : N) :
  (d < 10)%N -> digit_value 10 (pretty_N_char d) = Some (Z.of_N d).
Proof.
  intros Hd.
  assert (H : (d = 0 \/ d = 1 \/ d = 2 \/ d = 3 \/ d = 4 \/ d = 5 \/
               d = 6 \/ d = 7 \/ d = 8 \/ d = 9)%N) by lia.
  repeat (destruct H as [-> | H]; [reflexivity|]). by subst.
Qed.

Lemma digit_not_blank (c : ascii) :
  is_Some (digit_value 10 c) ->
  is_whitespace c = false /\ c <> "-"%char /\ c <> "+"%char /\
  c <> "x"%char /\ c <> "X"%char.
Proof.
  destruct c as [[] [] [] [] [] [] [] []]; vm_compute;
    intros [? H]; try discriminate H; repeat split; discriminate.
Qed.

Lemma pretty_N_go_all_digits (x : N) (s : string) :
  all_digits (pretty_N_go x s) = all_digits s.
Proof.
  revert s. induction (N.lt_wf_0 x) as [x _ IH]; intros s.
  destruct (decide (x = 0%N)) as [-> | Hx].
  - by rewrite pretty_N_go_0.
  - rewrite pretty_N_go_step by lia.
    rewrite IH by (apply N.div_lt; lia). simpl.
    by rewrite digit_value_char by (apply N.mod_lt; lia).
Qed.

Lemma pretty_N_go_nonempty (x : N) (s : string) :
  s <> "" -> pretty_N_go x s <> "".
Proof.
  revert s. induction (N.lt_wf_0 x) as [x _ IH]; intros s Hs.
  destruct (decide (x = 0%N)) as [-> | Hx].
  - by rewrite pretty_N_go_0.
  - rewrite pretty_N_go_step by lia.
    apply IH; [apply N.div_lt; lia|done].
Qed.

Lemma digits_prefix_pretty (x : N) (s : string) :
  (0 < x)%N ->
  digits_prefix 10 None (pretty_N_go x s) = digits_prefix 10 (Some (Z.of_N x)) s.
Proof.
  revert s. induction (N.lt_wf_0 x) as [x _ IH]; intros s Hx.
  rewrite pretty_N_go_step by done.
  pose proof (N.div_mod x 10 ltac:(lia)) as Hdm.
  pose proof (N.mod_lt x 10 ltac:(lia)) as Hm.
  destruct (decide (x `div` 10 = 0)%N) as [Hz | Hnz].
  - rewrite Hz, pretty_N_go_0. simpl.
    rewrite digit_value_char by done. simpl. do 2 f_equal. lia.
  - rewrite IH; [|apply N.div_lt; lia|lia]. simpl.
    rewrite digit_value_char by done. simpl. do 2 f_equal. lia.
Qed.

Lemma parseInt_digits (ds : string) (sign : Z) :
  all_digits ds = true -> ds <> "" ->
  (let '(radix, body) :=
     match ds with
     | String "0" (String "x" r) | String "0" (String "X" r) => (16, r)
     | _ => (10, ds)
     end in
   (fun n => sign * n) <$> digits_prefix radix None body)
  = (fun n => sign * n) <$> digits_prefix 10 None ds.
Proof.
  intros Hds Hne.
  destruct ds as [|c [|c' r]]; [done| |].
  { by destruct c as [[] [] [] [] [] [] [] []]. }
  simpl in Hds. apply andb_prop in Hds as [_ Hds].
  apply andb_prop in Hds as [Hc' _]. apply bool_decide_eq_true in Hc'.
  apply digit_not_blank in Hc' as (_ & _ & _ & Hx & HX).
  destruct c as [[] [] [] [] [] [] [] []]; try reflexivity.
  destruct c' as [[] [] [] [] [] [] [] []]; try reflexivity; congruence.
Qed.

Lemma parseInt_string_digits (ds : string) :
  all_digits ds = true -> ds <> "" ->
  parseInt_string ds = digits_prefix 10 None ds /\
  parseInt_string (String "-" ds) = (fun n => - n) <$> digits_prefix 10 None ds.
Proof.
  intros Hds Hne.
  assert (Hfirst : exists c r, ds = String c r /\ is_Some (digit_value 10 c)).
  { destruct ds as [|c r]; [done|]. exists c, r. split; [done|].
    simpl in Hds. apply andb_prop in Hds as [Hc _].
    by apply bool_decide_eq_true in Hc. }
  destruct Hfirst as (c & r & -> & Hc).
  apply digit_not_blank in Hc as (Hws & Hm & Hp & _).
  split.
  - unfold parseInt_string. simpl trim_start. rewrite Hws.
    assert (Hsplit : split_sign (String c r) = (1, String c r)).
    { unfold split_sign.
      destruct c as [[] [] [] [] [] [] [] []]; try reflexivity; congruence. }
    rewrite Hsplit. rewrite (parseInt_digits (String c r) 1) by done.
    destruct (digits_prefix 10 None (String c r)) as [n|]; simpl; [|done].
    f_equal. lia.
  - unfold parseInt_string. simpl trim_start. cbn [is_whitespace].
    change (is_whitespace "-") with false. cbn [split_sign].
    rewrite (parseInt_digits (String c r) (-1)) by done.
    destruct (digits_prefix 10 None (String c r)) as [n|]; simpl; [|done].
    f_equal.
Qed.

(** Reading a number back as an integer gives that number. *)
Lemma parseInt_number (n : Z) : parseInt (number n) = Some n.
Proof.
  unfold parseInt, ToString, pretty, pretty_Z.
  destruct n as [|p|p]; [reflexivity| |];
    unfold pretty, pretty_positive, pretty, pretty_N;
    (destruct (decide (N.pos p = 0%N)) as [?|_]; [done|]);
    pose proof (pretty_N_go_all_digits (N.pos p) "") as Hds;
    assert (Hne : pretty_N_go (N.pos p) "" <> "")
      by (rewrite pretty_N_go_step by lia; by apply pretty_N_go_nonempty);
    destruct (parseInt_string_digits _ Hds Hne) as [Hpos Hneg].
  - rewrite Hpos, digits_prefix_pretty by lia. done.
  - change ("-" +:+ pretty_N_go (N.pos p) "")%string
      with (String "-" (pretty_N_go (N.pos p) "")).
    rewrite Hneg, digits_prefix_pretty by lia. done.
Qed.

End JSFacts.

Module EngineFacts.
Import Engine.

Example sort_numbers :
  Engine.sort (fun a b => a - b) [3; 1; 2; 5; 4] = [1; 2; 3; 4; 5] /\
  Engine.sort (fun a b => a - b) [5; 4; 3; 2; 1] = [1; 2; 3; 4; 5] /\
  Engine.sort (fun a b => a - b) [2; 1] = [1; 2].
Proof. vm_compute. repeat split. Qed.

Section Sort.
Context {A : Type}.
Variable compare : A -> A -> Z.
Local Abbreviation sort := (Engine.sort compare).
Local Abbreviation insert_pivot := (Engine.insert_pivot compare).
Local Abbreviation BinaryInsertionSort := (Engine.BinaryInsertionSort compare).
Local Abbreviation CountAndMakeRun := (Engine.CountAndMakeRun compare).

(** The binary search never runs out of fuel: once the fuel exceeds the
    width of the interval, more fuel gives the same position. *)
Lemma search_position_fuel (pre : list A) (pivot : A) (fuel1 : nat) :
  forall (fuel2 left right : nat),
    (right - left < fuel1)%nat -> (right - left < fuel2)%nat ->
    (right <= List.length pre)%nat ->
    Engine.search_position compare fuel1 pre pivot left right
    = Engine.search_position compare fuel2 pre pivot left right.
Proof.
  induction fuel1 as [|fuel1 IH]; intros fuel2 left right H1 H2 Hr; [lia|].
  destruct fuel2 as [|fuel2]; [lia|]. cbn [Engine.search_position].
  destruct (left <? right)%nat eqn:Hlt; [|done].
  apply Nat.ltb_lt in Hlt.
  pose proof (Nat.div_lt (right - left) 2 ltac:(lia) ltac:(lia)) as Hdiv.
  destruct (pre !! (left + (right - left) / 2)%nat) as [x|] eqn:Hx; [|done].
  destruct (compare pivot x <? 0); apply IH; lia.
Qed.

Lemma insert_pivot_perm pre pivot : insert_pivot pre pivot ≡ₚ pivot :: pre.
Proof.
  unfold insert_pivot.
  set (k := search_position _ _ _ _ _).
  rewrite <- Permutation_middle. constructor. by rewrite take_drop.
Qed.

Lemma BinaryInsertionSort_perm rest :
  forall pre, BinaryInsertionSort pre rest ≡ₚ pre ++ rest.
Proof.
  induction rest as [|x rest IH]; intros pre; simpl.
  - by rewrite app_nil_r.
  - rewrite IH, insert_pivot_perm. apply Permutation_middle.
Qed.

Lemma CountAndMakeRun_perm l : (CountAndMakeRun l).1 ≡ₚ l.
Proof.
  unfold CountAndMakeRun.
  destruct l as [|a [|b rest]]; try reflexivity.
  destruct (compare b a <? 0); [|reflexivity].
  cbn [fst]. rewrite <- Permutation_rev. by rewrite take_drop.
Qed.

(** Whatever the comparator answers, the engine only reorders. *)
Lemma sort_perm l : sort l ≡ₚ l.
Proof.
  unfold sort. destruct (List.length l <? 2)%nat; [reflexivity|].
  pose proof (CountAndMakeRun_perm l) as Hp.
  destruct (CountAndMakeRun l) as [l' n]. cbn [fst] in Hp.
  rewrite BinaryInsertionSort_perm, take_drop. exact Hp.
Qed.
End Sort.
End EngineFacts.

(* ===================================================================== *)
(** ** Properties of the class *)
(* ===================================================================== *)

Module VertexDBSpec.
Import JS VertexDB Vocabulary.

Section Properties.
Variable clock : nat -> string.
Variable array_sort : (row -> row -> Z) -> list row -> list row.

Local Abbreviation get := (VertexDB.get array_sort).
Local Abbreviation getOne := (VertexDB.getOne array_sort).
Local Abbreviation count := (VertexDB.count array_sort).
Local Abbreviation exists_ := (VertexDB.exists_ array_sort).
Local Abbreviation derived_read := (VertexDB.derived_read array_sort).
Local Abbreviation _applyConditions := (VertexDB._applyConditions array_sort).
Local Abbreviation insert := (VertexDB.insert clock).
Local Abbreviation bulkInsert := (VertexDB.bulkInsert clock).
Local Abbreviation update := (VertexDB.update clock).
Local Abbreviation delete := (VertexDB.delete clock).
Local Abbreviation setTable := (VertexDB.setTable clock).
Local Abbreviation transaction := (VertexDB.transaction clock).
Local Abbreviation backup := (VertexDB.backup clock).

Lemma filter_rows_pure (f : row -> bool) (l : list row) :
  filter_rows (fun r => Ok (f r)) l = Ok (List.filter f l).
Proof.
  induction l as [|r l IH]; simpl; [done|].
  rewrite IH. by destruct (f r).
Qed.

Lemma filter_rows_ext (f g : row -> result bool) (l : list row) :
  (forall r, f r = g r) -> filter_rows f l = filter_rows g l.
Proof.
  intros Hfg. induction l as [|r l IH]; simpl; [done|].
  by rewrite Hfg, IH.
Qed.

(** An equality condition is evaluated the same under every tag that is
    not one of the seven operator names. *)
Lemma eval_condition_default (r : row) (f tag : string) (v : operand) :
  tag = "AND" \/ tag = "OR" ->
  eval_condition r (Condition.Make f tag v)
  = Ok (strict_eq_operand (read r f) v).
Proof. by intros [-> | ->]. Qed.

(** C10. A terminal operation on a table that does not exist raises
    TableNotFound and changes nothing: [get], the reads built on it
    ([getOne], [count], [exists] and every aggregate), [update] and [delete]
    all return the store as they found it, so every pending where, search,
    order and limit setting is still there and applies to the next terminal
    call. *)
Theorem missing_table_keeps_conditions
    (s : store) (tableName : string) (data : row) :
  _tables s !! tableName = None ->
  get tableName s = (s, Throw (TableNotFound tableName)) /\
  getOne tableName s = (s, Throw (TableNotFound tableName)) /\
  count tableName s = (s, Throw (TableNotFound tableName)) /\
  exists_ tableName s = (s, Throw (TableNotFound tableName)) /\
  (forall (A : Type) (f : list row -> A),
     derived_read f tableName s = (s, Throw (TableNotFound tableName))) /\
  update tableName data s = (s, Throw (TableNotFound tableName)) /\
  delete tableName s = (s, Throw (TableNotFound tableName)) /\
  forall other : string,
    get other (get tableName s).1 = get other s /\
    update other data (update tableName data s).1 = update other data s /\
    delete other (delete tableName s).1 = delete other s.
Proof.
  intros Hnone.
  assert (Hget : get tableName s = (s, Throw (TableNotFound tableName))).
  { unfold VertexDB.get. by rewrite Hnone. }
  assert (Hupd :
    update tableName data s = (s, Throw (TableNotFound tableName))).
  { unfold VertexDB.update. by rewrite Hnone. }
  assert (Hdel : delete tableName s = (s, Throw (TableNotFound tableName))).
  { unfold VertexDB.delete. by rewrite Hnone. }
  split; [exact Hget|].
  split; [unfold VertexDB.getOne, bind; by rewrite Hget|].
  split; [unfold VertexDB.count, bind; by rewrite Hget|].
  split; [unfold VertexDB.exists_, VertexDB.count, bind; by rewrite Hget|].
  split; [intros A f; unfold VertexDB.derived_read, bind; by rewrite Hget|].
  split; [exact Hupd|]. split; [exact Hdel|].
  intros other. by rewrite Hget, Hupd, Hdel.
Qed.

(** C6. On a store with nothing pending, [where(f1, v1).orWhere(f2, v2)
    .get(table)] returns, in table order, exactly the live rows whose [f1]
    is [v1] and whose [f2] is [v2]: a conjunction. It is the very result
    of [where(f1, v1).where(f2, v2).get(table)], because the tag "OR" that
    [orWhere] records falls, like "AND", into the equality branch of the
    evaluator. The conditions are reset afterwards. *)
Theorem orWhere_is_conjunction
    (s : store) (tableName : string) (l : nat)
    (f1 f2 : string) (v1 v2 : operand) :
  _tables s !! tableName = Some l ->
  no_pending s ->
  let both := fun r : row =>
    strict_eq_operand (read r f1) v1 && strict_eq_operand (read r f2) v2 in
  (where_ f1 v1 None ;; orWhere f2 v2 ;; get tableName) s
  = (_resetConditions s, Ok (List.filter both (live_rows s (deref s l)))) /\
  (where_ f1 v1 None ;; orWhere f2 v2 ;; get tableName) s
  = (where_ f1 v1 None ;; where_ f2 v2 None ;; get tableName) s /\
  (forall r : row,
     eval_condition r (Condition.Make f2 "OR" v2)
     = eval_condition r (Condition.Make f2 "AND" v2)) /\
  (_softDelete s = false ->
   (where_ f1 v1 None ;; orWhere f2 v2 ;; get tableName) s
   = (_resetConditions s, Ok (List.filter both (deref s l)))).
Proof.
  intros Htab (Hw & Hs & Ho & Hl) both.
  assert (Hchain : forall tag, tag = "AND" \/ tag = "OR" ->
    (where_ f1 v1 None ;; where_ f2 v2 (Some tag) ;; get tableName) s
    = (_resetConditions s,
       Ok (List.filter both (live_rows s (deref s l))))).
  { intros tag Htag.
    unfold where_, orWhere, modify, bind, get; cbn.
    rewrite Htab, Hw. unfold _applyConditions; cbn.
    rewrite Hs, Ho, Hl; cbn.
    assert (Hacc : forall r,
      where_accepts
        [Condition.Make f1 "AND" v1; Condition.Make f2 tag v2] r
      = Ok (both r)).
    { intros r. unfold where_accepts; cbn [every].
      rewrite (eval_condition_default r f1 "AND") by auto.
      rewrite (eval_condition_default r f2 tag) by auto.
      unfold both.
      destruct (strict_eq_operand (read r f1) v1); [|done].
      by destruct (strict_eq_operand (read r f2) v2). }
    rewrite (filter_rows_ext _ (fun r => Ok (both r))) by exact Hacc.
    rewrite filter_rows_pure. unfold live_rows, deref, _resetConditions.
    cbn. by destruct (_softDelete s). }
  split; [|split; [|split]].
  - apply (Hchain "OR"). auto.
  - unfold orWhere. rewrite (Hchain "OR") by auto.
    symmetry. apply (Hchain "AND"). auto.
  - intros r.
    rewrite (eval_condition_default r f2 "OR") by auto.
    by rewrite (eval_condition_default r f2 "AND") by auto.
  - intros Hsoft. unfold orWhere. rewrite (Hchain "OR") by auto.
    unfold live_rows. by rewrite Hsoft.
Qed.

(** What [insert] does on an existing table, whatever the table's schema:
    it returns normally, records the id of the row it built, and pushes that
    row onto the table's array unless a trigger returned [false]. *)
Lemma insert_spec (s : store) (tableName : string) (l : nat) (data : row) :
  _tables s !! tableName = Some l ->
  exists (newData : row) (s1 : store),
    insert tableName data s = (s1, Ok tt) /\
    read newData "id"
    = (if strict_eq (read data "id") (str "AUTO_INCREMENT")
       then number (_getNextId s tableName) else read data "id") /\
    _lastInsertId s1 = read newData "id" /\
    _tables s1 = _tables s /\
    _triggers s1 = _triggers s /\
    _schemas s1 = _schemas s /\
    heap s1
    = (if _trigger s tableName "insert" None (Some newData)
       then alter (fun rows => rows ++ [newData]) l (heap s)
       else heap s).
Proof.
  intros Htab. unfold VertexDB.insert. rewrite Htab.
  set (d := if strict_eq (read data "id") (str "AUTO_INCREMENT")
            then <["id" := number (_getNextId s tableName)]> data else data).
  assert (Hid : read d "id"
    = (if strict_eq (read data "id") (str "AUTO_INCREMENT")
       then number (_getNextId s tableName) else read data "id")).
  { subst d. destruct (strict_eq _ _); [|done].
    unfold read. by rewrite lookup_insert_eq. }
  cbn [_timestamps set_lastInsertId].
  destruct (_timestamps s).
  - exists (<["updated_at" := str (clock (S (ticks s)))]>
              (<["created_at" := str (clock (ticks s))]> d)).
    unfold _trigger; cbn.
    match goal with |- context [fold_left ?f ?l true] =>
      destruct (fold_left f l true) end;
      eexists; (split; [reflexivity|]);
      (split; [unfold read; rewrite !lookup_insert_ne by done; exact Hid|]);
      cbn; unfold read; rewrite !lookup_insert_ne by done; done.
  - exists d. unfold _trigger; cbn.
    match goal with |- context [fold_left ?f ?l true] =>
      destruct (fold_left f l true) end;
      eexists; (split; [reflexivity|]); (split; [exact Hid|]); cbn; done.
Qed.

(** C9 (amended). [insert] on an existing table stores the id of the row it
    built in the last-insert-id state whatever the triggers answer: when a
    trigger vetoes, the row is not appended and the tables are as before,
    yet the state holds the vetoed row's id. [getLastInsertId] then returns
    that id if it is truthy, and [null] if it is 0, empty or absent. *)
Theorem insert_records_id_despite_veto
    (s : store) (tableName : string) (l : nat) (rows : list row)
    (data : row) :
  _tables s !! tableName = Some l ->
  heap s !! l = Some rows ->
  exists (newData : row) (s1 : store),
    insert tableName data s = (s1, Ok tt) /\
    read newData "id"
    = (if strict_eq (read data "id") (str "AUTO_INCREMENT")
       then number (_getNextId s tableName) else read data "id") /\
    _lastInsertId s1 = read newData "id" /\
    (vetoed s tableName "insert" None (Some newData) ->
     rows_of s1 tableName = Some rows /\ table_rows s1 = table_rows s) /\
    (~ vetoed s tableName "insert" None (Some newData) ->
     rows_of s1 tableName = Some (rows ++ [newData])) /\
    getLastInsertId s1
    = (if truthy (read newData "id") then read newData "id" else null).
Proof.
  intros Htab Hl.
  destruct (insert_spec s tableName l data Htab)
    as (newData & s1 & Hrun & Hid & Hlast & Ht & _ & _ & Hheap).
  exists newData, s1. unfold vetoed.
  split; [done|]. split; [done|]. split; [done|].
  split; [|split].
  - intros Hveto. rewrite Hveto in Hheap.
    unfold table_rows, rows_of, deref. rewrite Ht, Hheap, Htab. cbn.
    by rewrite Hl.
  - intros Hveto.
    destruct (_trigger s tableName "insert" None (Some newData)); [|done].
    unfold rows_of, deref. rewrite Ht, Htab, Hheap. cbn.
    by rewrite list_lookup_alter_eq, Hl.
  - unfold getLastInsertId. rewrite Hlast.
    by destruct (truthy (read newData "id")).
Qed.

(** [insert] never consults the schema: on an existing table it returns
    normally for every row, and a row that no trigger vetoes is appended even
    when [_validateSchema] rejects it. *)
Lemma insert_skips_validation
    (s : store) (tableName : string) (l : nat) (rows : list row)
    (sch : schema) (data : row) (e : error) :
  _tables s !! tableName = Some l ->
  heap s !! l = Some rows ->
  _triggers s !! tableName = None ->
  _timestamps s = false ->
  read data "id" <> str "AUTO_INCREMENT" ->
  getSchema s tableName = Found sch ->
  _validateSchema [data] sch = Throw e ->
  exists s1 : store,
    insert tableName data s = (s1, Ok tt) /\
    rows_of s1 tableName = Some (rows ++ [data]).
Proof.
  intros Htab Hl Htrig Hts Hid _ _.
  unfold VertexDB.insert. rewrite Htab.
  unfold strict_eq. rewrite bool_decide_eq_false_2 by done.
  cbn [_timestamps set_lastInsertId]. rewrite Hts.
  unfold _trigger. cbn [_triggers set_lastInsertId].
  unfold trigger in *. rewrite Htrig. cbn.
  eexists. split; [reflexivity|].
  unfold rows_of, deref. cbn. rewrite Htab. cbn.
  by rewrite list_lookup_alter_eq, Hl.
Qed.

(** [updateSchema] records the new schema first and validates afterwards:
    when the rows violate it, the failure is raised with the new schema
    already in place. *)
Lemma updateSchema_records_before_validating
    (s : store) (tableName : string) (l : nat) (sch : schema) (e : error) :
  _tables s !! tableName = Some l ->
  _validateSchema (deref s l) sch = Throw e ->
  exists s1 : store,
    updateSchema tableName sch s = (s1, Throw e) /\
    getSchema s1 tableName = Found sch.
Proof.
  intros Htab Hbad. unfold updateSchema. rewrite Htab.
  eexists. split.
  - f_equal. exact Hbad.
  - unfold getSchema. cbn. by rewrite lookup_insert_eq.
Qed.

(** The test of [update] and [delete] never reads a condition's operator. *)
Lemma matches_ignores_operator
    (conditions : list Condition.t) (r : row) :
  matches conditions r
  = matches
      (map (fun c =>
              Condition.Make (Condition.field c) "AND" (Condition.value c))
         conditions) r.
Proof.
  unfold matches. induction conditions as [|c cs IH]; simpl; [done|].
  by rewrite IH.
Qed.

(** On conditions that carry no operator name, as [where] and [orWhere]
    record them, the test of [update] and [delete] is the read evaluator's
    where-condition step. *)
Lemma matches_agrees_on_equalities
    (conditions : list Condition.t) (r : row) :
  Forall (fun c => Condition.operator c = "AND" \/
                   Condition.operator c = "OR") conditions ->
  where_accepts conditions r = Ok (matches conditions r).
Proof.
  unfold where_accepts, matches.
  induction 1 as [|[f tag v] cs Htag _ IH]; cbn [every forallb]; [done|].
  cbn in Htag. rewrite (eval_condition_default r f tag v Htag).
  cbn [Condition.field Condition.value].
  by destruct (strict_eq_operand (read r f) v).
Qed.

(** The comparator of [orderBy]: 1 exactly when the first key is greater
    (ascending) or smaller (any other direction), and -1 in every other
    case. It never answers 0. *)
Lemma order_compare_spec (column direction : string) (a b : row) :
  (order_compare column "ASC" a b = 1 <->
   gt (read a column) (read b column) = true) /\
  (direction <> "ASC" ->
   order_compare column direction a b = 1 <->
   lt (read a column) (read b column) = true) /\
  order_compare column direction a b <> 0.
Proof.
  unfold order_compare. split; [|split].
  - cbn. destruct (gt _ _); split; done.
  - intros Hd. rewrite (proj2 (String.eqb_neq _ _) Hd).
    destruct (lt _ _); split; done.
  - destruct (String.eqb direction "ASC");
      [destruct (gt _ _)|destruct (lt _ _)]; done.
Qed.

Lemma lessThan_irrefl (v : value) : lessThan v v <> Some true.
Proof.
  destruct v as [| |b|n|s]; cbn; try done.
  - destruct b; done.
  - rewrite Z.ltb_irrefl. done.
  - unfold String.ltb.
    pose proof (String.compare_antisym s s) as H.
    destruct (s ?= s)%string; done.
Qed.

(** Two rows with the same key: the comparator answers -1 whichever way
    they are presented, so each is reported to come before the other. *)
Lemma order_compare_tie (column direction : string) (a b : row) :
  read a column = read b column ->
  order_compare column direction a b = -1 /\
  order_compare column direction b a = -1.
Proof.
  intros Heq. unfold order_compare, gt, lt. rewrite Heq.
  rewrite bool_decide_eq_false_2 by apply lessThan_irrefl.
  by destruct (String.eqb direction "ASC").
Qed.

(** *** Auto-increment ids *)

Lemma Math_max_upper (xs : list Z) :
  forall x : Z, x <= Math_max x xs /\ forall y, y ∈ xs -> y <= Math_max x xs.
Proof.
  unfold Math_max. induction xs as [|a xs IH]; intros x; simpl.
  - split; [lia|]. intros y Hy. by apply elem_of_nil in Hy.
  - destruct (IH (Z.max x a)) as [Hx Hall]. split; [lia|].
    intros y Hy. apply elem_of_cons in Hy as [-> | Hy]; [lia|by apply Hall].
Qed.

Lemma Math_max_attained (xs : list Z) :
  forall x : Z, Math_max x xs ∈ x :: xs.
Proof.
  unfold Math_max. induction xs as [|a xs IH]; intros x; simpl.
  - apply list_elem_of_here.
  - specialize (IH (Z.max x a)).
    apply elem_of_cons in IH as [Heq | Hin].
    + rewrite Heq. destruct (Z.max_spec x a) as [[_ ->] | [_ ->]].
      * apply list_elem_of_further, list_elem_of_here.
      * apply list_elem_of_here.
    + by do 2 apply list_elem_of_further.
Qed.

(** [_getNextId] is 1 on an empty table; otherwise it adds 1, as doubles
    add, to the largest id number of the rows. *)
Lemma _getNextId_max (s : store) (tableName : string) (rows : list row) :
  rows_of s tableName = Some rows ->
  (rows = [] -> _getNextId s tableName = 1) /\
  (rows <> [] ->
   exists r, r ∈ rows /\
     (forall r', r' ∈ rows -> id_number r' <= id_number r) /\
     _getNextId s tableName = number_add (id_number r) 1).
Proof.
  intros Hrows. unfold _getNextId. rewrite Hrows.
  destruct rows as [|r0 rows]; [split; done|].
  cbv zeta.
  change (fun r : row => default 0 (parseInt (read r "id"))) with id_number.
  change (default 0 (parseInt (read r0 "id"))) with (id_number r0).
  destruct (Math_max_upper (map id_number rows) (id_number r0)) as [H0 Hall].
  pose proof (Math_max_attained (map id_number rows) (id_number r0)) as Hin.
  split; [done|]. intros _.
  assert (Hmax : exists r, r ∈ r0 :: rows /\
            Math_max (id_number r0) (map id_number rows) = id_number r).
  { apply elem_of_cons in Hin as [Heq | Hin].
    - exists r0. split; [apply list_elem_of_here|done].
    - apply list_elem_of_In, in_map_iff in Hin as (r & Heq & Hr).
      exists r. split; [apply list_elem_of_further, list_elem_of_In, Hr|].
      by rewrite Heq. }
  destruct Hmax as (r & Hr & Heq). exists r. split; [done|].
  split; [|by rewrite Heq].
  intros r' Hr'. rewrite <- Heq.
  apply elem_of_cons in Hr' as [-> | Hr']; [done|].
  apply Hall. apply list_elem_of_In, in_map, list_elem_of_In, Hr'.
Qed.

(** When the id numbers are safe integers the sum is exact: the next id is
    one more than the id number of some row and exceeds the id number of
    every row. *)
Lemma _getNextId_spec (s : store) (tableName : string) (rows : list row) :
  rows_of s tableName = Some rows ->
  safe_ids rows ->
  (rows = [] -> _getNextId s tableName = 1) /\
  (forall r, r ∈ rows -> id_number r < _getNextId s tableName) /\
  (rows <> [] ->
   exists r, r ∈ rows /\ _getNextId s tableName = id_number r + 1).
Proof.
  intros Hrows Hsafe.
  destruct (_getNextId_max s tableName rows Hrows) as [Hempty Hmax].
  split; [done|].
  destruct (decide (rows = [])) as [-> | Hne].
  { split; [|done]. intros r Hr. by apply elem_of_nil in Hr. }
  destruct (Hmax Hne) as (r & Hr & Hle & Hn).
  rewrite JSFacts.number_add_one in Hn by (by apply Hsafe).
  split.
  - intros r' Hr'. specialize (Hle r' Hr'). lia.
  - intros _. by exists r.
Qed.

(** Safe ids, checked row by row. *)
Lemma safe_ids_checked (rows : list row) :
  forallb (fun r => isSafeInteger (id_number r)) rows = true -> safe_ids rows.
Proof.
  intros Hall r Hr. rewrite forallb_forall in Hall.
  by apply Hall, list_elem_of_In.
Qed.

Lemma spec_next_id_bounds (rows : list row) :
  (forall r, r ∈ rows -> integer_id_or_zero r < spec_next_id rows) /\
  0 < spec_next_id rows /\
  (spec_next_id rows = 1 \/
   exists r, r ∈ rows /\ spec_next_id rows = integer_id_or_zero r + 1).
Proof.
  unfold spec_next_id. induction rows as [|r rows (IH1 & IH2 & IH3)]; simpl.
  - split; [|split; [lia|by left]].
    intros r Hr. by apply elem_of_nil in Hr.
  - split; [|split; [lia|]].
    + intros x Hx. apply elem_of_cons in Hx as [-> | Hx]; [lia|].
      specialize (IH1 x Hx). lia.
    + destruct (Z.max_spec (integer_id_or_zero r)
                  (fold_right Z.max 0 (map integer_id_or_zero rows)))
        as [[_ ->] | [_ ->]].
      * destruct IH3 as [? | (x & Hx & ?)]; [by left|right].
        exists x. split; [by apply list_elem_of_further|done].
      * right. exists r. split; [apply list_elem_of_here|done].
Qed.

(** C5 (amended). For a table with rows [rows] whose id numbers are safe
    integers, [insert] with the AUTO_INCREMENT sentinel assigns
    [n = _getNextId]: 1 on an empty table, otherwise one more than the
    largest id number among the rows, where a row's id number is
    [parseInt(id)], or 0 when that is NaN. There is no floor at 0: [n]
    agrees with "max(existing integer ids, 0) + 1" when the table is empty
    or some row has an id number of at least 0 (and the ids are integers
    or have no integer reading). When no trigger vetoes, the row is
    appended, and if [n] is a safe integer too the next auto-increment
    insert is assigned [n + 1], a larger id; when [n] is [2^53], the first
    integer past the safe ones, the next insert is assigned [2^53] again.
    After a veto the same [n] is assigned again. Inserting into another
    table, stored in another array, leaves [n] as it is. *)
Theorem auto_increment_ids
    (s : store) (tableName : string) (l : nat) (rows : list row)
    (data : row) :
  _tables s !! tableName = Some l ->
  heap s !! l = Some rows ->
  read data "id" = str "AUTO_INCREMENT" ->
  safe_ids rows ->
  let n := _getNextId s tableName in
  (rows = [] -> n = 1) /\
  (forall r, r ∈ rows -> id_number r < n) /\
  (rows <> [] -> exists r, r ∈ rows /\ n = id_number r + 1) /\
  ((forall r, r ∈ rows -> id_number r = integer_id_or_zero r) ->
   rows = [] \/ (exists r, r ∈ rows /\ 0 <= id_number r) ->
   n = spec_next_id rows) /\
  (exists (newData : row) (s1 : store),
     insert tableName data s = (s1, Ok tt) /\
     read newData "id" = number n /\
     (~ vetoed s tableName "insert" None (Some newData) ->
      rows_of s1 tableName = Some (rows ++ [newData]) /\
      (isSafeInteger n = true ->
       _getNextId s1 tableName = n + 1 /\ n < _getNextId s1 tableName) /\
      (n = 2 ^ 53 -> _getNextId s1 tableName = n)) /\
     (vetoed s tableName "insert" None (Some newData) ->
      rows_of s1 tableName = Some rows /\ _getNextId s1 tableName = n)) /\
  (forall (other : string) (l' : nat) (data' : row),
     _tables s !! other = Some l' -> l' <> l ->
     _getNextId (insert other data' s).1 tableName = n).
Proof.
  intros Htab Hl Hauto Hsafe n.
  assert (Hrows : rows_of s tableName = Some rows).
  { unfold rows_of, deref. by rewrite Htab; cbn; rewrite Hl. }
  destruct (_getNextId_spec s tableName rows Hrows Hsafe)
    as (Hempty & Hlt & Hex).
  split; [exact Hempty|]. split; [exact Hlt|]. split; [exact Hex|].
  split; [|split].
  - intros Hsame Hsome.
    destruct (spec_next_id_bounds rows) as (Sup & Spos & Sex).
    destruct (decide (rows = [])) as [-> | Hne].
    { subst n. rewrite Hempty by done. reflexivity. }
    destruct Hsome as [? | (r0 & Hr0 & Hnonneg)]; [done|].
    destruct (Hex Hne) as (r & Hr & Hn).
    assert (Hle : spec_next_id rows <= n).
    { destruct Sex as [-> | (x & Hx & ->)].
      - specialize (Hlt r0 Hr0). lia.
      - rewrite <- Hsame by done. specialize (Hlt x Hx). lia. }
    assert (Hge : n <= spec_next_id rows).
    { specialize (Sup r Hr). rewrite <- Hsame in Sup by done. lia. }
    lia.
  - destruct (insert_spec s tableName l data Htab)
      as (newData & s1 & Hrun & Hid & _ & Ht & _ & _ & Hheap).
    unfold strict_eq in Hid. rewrite bool_decide_eq_true_2 in Hid by done.
    exists newData, s1. split; [done|]. split; [done|]. unfold vetoed.
    split; intros Hveto.
    + destruct (_trigger s tableName "insert" None (Some newData)); [|done].
      assert (Hrows1 : rows_of s1 tableName = Some (rows ++ [newData])).
      { unfold rows_of, deref. rewrite Ht, Htab, Hheap. cbn.
        by rewrite list_lookup_alter_eq, Hl. }
      split; [done|].
      assert (Hnew : id_number newData = n).
      { unfold id_number. by rewrite Hid, JSFacts.parseInt_number. }
      split.
      * intros Hn.
        assert (Hsafe1 : safe_ids (rows ++ [newData])).
        { intros r Hr. apply elem_of_app in Hr as [Hr | Hr];
            [by apply Hsafe|].
          apply list_elem_of_singleton in Hr as ->. by rewrite Hnew. }
        destruct (_getNextId_spec s1 tableName _ Hrows1 Hsafe1)
          as (_ & Hlt1 & Hex1).
        destruct Hex1 as (r & Hr & Hn1); [by destruct rows|].
        assert (Hgt : n < _getNextId s1 tableName).
        { rewrite <- Hnew. apply Hlt1. apply elem_of_app. right.
          apply list_elem_of_here. }
        split; [|done].
        apply elem_of_app in Hr as [Hr | Hr].
        -- specialize (Hlt r Hr). fold n in Hlt. lia.
        -- apply list_elem_of_singleton in Hr as ->. lia.
      * intros Hn.
        destruct (_getNextId_max s1 tableName _ Hrows1) as [_ Hmax].
        destruct Hmax as (r & Hr & Hle & ->); [by destruct rows|].
        assert (Hr_eq : id_number r = n).
        { apply elem_of_app in Hr as [Hr | Hr].
          - specialize (Hlt r Hr). fold n in Hlt.
            assert (n <= id_number r); [|lia].
            rewrite <- Hnew. apply Hle, elem_of_app. right.
            apply list_elem_of_here.
          - by apply list_elem_of_singleton in Hr as ->. }
        rewrite Hr_eq, Hn. reflexivity.
    + rewrite Hveto in Hheap.
      assert (Hrows1 : rows_of s1 tableName = Some rows).
      { unfold rows_of, deref. rewrite Ht, Htab, Hheap. cbn. by rewrite Hl. }
      split; [done|]. unfold n, _getNextId. by rewrite Hrows1, Hrows.
  - intros other l' data' Hother Hne.
    destruct (insert_spec s other l' data' Hother)
      as (newData & s1 & Hrun & _ & _ & Ht & _ & _ & Hheap).
    rewrite Hrun. cbn [fst].
    assert (Hrows1 : rows_of s1 tableName = Some rows).
    { unfold rows_of, deref. rewrite Ht, Htab, Hheap. cbn.
      destruct (_trigger s other "insert" None (Some newData)).
      - by rewrite list_lookup_alter_ne, Hl by done.
      - by rewrite Hl. }
    unfold n, _getNextId. by rewrite Hrows1, Hrows.
Qed.

(** *** Soft deletion *)

(** The soft branch of [delete] keeps every row at its place; a row that is
    to be deleted gets a [deleted_at] read from the clock, the others are
    left as they are. Only the clock advances. *)
Lemma mark_deleted_spec (shouldDelete : row -> bool) (table : list row) :
  forall s : store,
  exists (rows1 : list row) (k : nat),
    mark_deleted clock shouldDelete table s = (set_ticks k s, Ok rows1) /\
    List.length rows1 = List.length table /\
    (forall i r, table !! i = Some r -> shouldDelete r = true ->
       exists t, rows1 !! i = Some (<["deleted_at" := str (clock t)]> r)) /\
    (forall i r, table !! i = Some r -> shouldDelete r = false ->
       rows1 !! i = Some r).
Proof.
  induction table as [|r table IH]; intros s.
  - exists [], (ticks s). split; [by destruct s|]. by repeat split.
  - cbn [mark_deleted]. unfold bind at 1.
    destruct (shouldDelete r) eqn:Hr.
    + unfold bind at 1, now, ret at 1. unfold bind at 1.
      destruct (IH (set_ticks (S (ticks s)) s))
        as (rows1 & k & Hrun & Hlen & Hyes & Hno).
      rewrite Hrun. unfold ret.
      exists (<["deleted_at" := str (clock (ticks s))]> r :: rows1), k.
      split; [done|]. split; [by cbn; rewrite Hlen|]. split.
      * intros [|i] x Hx Hdel; cbn in Hx.
        -- injection Hx as <-. by exists (ticks s).
        -- by apply Hyes.
      * intros [|i] x Hx Hdel; cbn in Hx.
        -- injection Hx as <-. congruence.
        -- by apply Hno.
    + unfold ret at 1. unfold bind at 1.
      destruct (IH s) as (rows1 & k & Hrun & Hlen & Hyes & Hno).
      rewrite Hrun. unfold ret.
      exists (r :: rows1), k.
      split; [done|]. split; [by cbn; rewrite Hlen|]. split.
      * intros [|i] x Hx Hdel; cbn in Hx.
        -- injection Hx as <-. congruence.
        -- by apply Hyes.
      * intros [|i] x Hx Hdel; cbn in Hx.
        -- by injection Hx as <-.
        -- by apply Hno.
Qed.

Lemma filter_rows_subset (f : row -> result bool) (l res : list row) :
  filter_rows f l = Ok res -> forall r, r ∈ res -> r ∈ l.
Proof.
  revert res. induction l as [|x l IH]; intros res; simpl.
  - intros [= <-] r Hr. done.
  - destruct (f x) as [keep|]; [|done].
    destruct (filter_rows f l) as [rest|]; [|done].
    intros [= <-] r Hr. specialize (IH rest eq_refl).
    destruct keep.
    + apply elem_of_cons in Hr as [-> | Hr].
      * apply list_elem_of_here.
      * by apply list_elem_of_further, IH.
    + by apply list_elem_of_further, IH.
Qed.

Lemma slice_subset {A} (l : list A) (a b : Z) (x : A) :
  x ∈ slice l a b -> x ∈ l.
Proof.
  unfold slice. intros Hx.
  apply elem_of_take in Hx as (i & Hi & _).
  rewrite lookup_drop in Hi. by apply list_elem_of_lookup_2 in Hi.
Qed.

(** A read only selects and reorders: with a sort that permutes, every row
    of the result is one of the rows the evaluator was given. *)
Lemma _applyConditions_subset (s : store) (data res : list row) :
  (forall cmp rs, array_sort cmp rs ≡ₚ rs) ->
  _applyConditions s data = Ok res ->
  forall r, r ∈ res -> r ∈ data.
Proof.
  intros Hsort. unfold VertexDB._applyConditions.
  destruct (if (0 <? List.length (_whereConditions s))%nat
            then filter_rows (where_accepts (_whereConditions s)) data
            else Ok data) as [res0|] eqn:Hw; [|done].
  intros [= <-] r Hr.
  assert (H0 : forall x, x ∈ res0 -> x ∈ data).
  { destruct (0 <? List.length (_whereConditions s))%nat.
    - by apply (filter_rows_subset _ _ _ Hw).
    - by injection Hw as ->. }
  apply H0. clear H0 Hw.
  destruct (_limit s); [apply slice_subset in Hr|].
  all: destruct (_orderBy s) as [[column direction]|];
    [rewrite Hsort in Hr|].
  all: destruct (0 <? List.length (_searchConditions s))%nat; [|done].
  all: apply list_elem_of_In, filter_In in Hr as [Hr _].
  all: by apply list_elem_of_In.
Qed.

(** With soft deletion on, [delete] returns normally and keeps the
    table's row sequence position by position: a row that passes [delete]'s
    test on the pending conditions and that no trigger vetoes is replaced by
    itself with a [deleted_at] clock reading (a non-empty string), every
    other row is untouched. On conditions recorded by [where] and [orWhere]
    that test is the one reads apply. The marked rows are still in
    [_tables]; [get] and [count] return only rows without a truthy
    [deleted_at], immediately after the delete and under any conditions set
    later; [truncate] empties the table, marked rows included. *)
Theorem soft_delete_marks_and_hides
    (s : store) (tableName : string) (l : nat) (rows : list row) :
  _softDelete s = true ->
  _tables s !! tableName = Some l ->
  heap s !! l = Some rows ->
  (forall n, clock n <> "") ->
  (forall cmp rs, array_sort cmp rs ≡ₚ rs) ->
  let shouldDelete := fun r : row =>
    matches (_whereConditions s) r &&
    _trigger s tableName "delete" (Some r) None in
  let unmarked := fun r : row => negb (truthy (read r "deleted_at")) in
  exists (s1 : store) (rows1 : list row),
    delete tableName s = (s1, Ok tt) /\
    rows_of s1 tableName = Some rows1 /\
    List.length rows1 = List.length rows /\
    (forall i r, rows !! i = Some r -> shouldDelete r = true ->
       exists t,
         rows1 !! i = Some (<["deleted_at" := str (clock t)]> r) /\
         unmarked (<["deleted_at" := str (clock t)]> r) = false) /\
    (forall i r, rows !! i = Some r -> shouldDelete r = false ->
       rows1 !! i = Some r) /\
    (Forall (fun c => Condition.operator c = "AND" \/
                      Condition.operator c = "OR") (_whereConditions s) ->
     forall r, where_accepts (_whereConditions s) r
               = Ok (matches (_whereConditions s) r)) /\
    get tableName s1 = (s1, Ok (List.filter unmarked rows1)) /\
    count tableName s1 = (s1, Ok (List.length (List.filter unmarked rows1))) /\
    (forall (s2 : store) (res : list row),
       rows_of s2 tableName = Some rows1 -> _softDelete s2 = true ->
       (get tableName s2).2 = Ok res ->
       forall r, r ∈ res -> r ∈ rows1 /\ unmarked r = true) /\
    exists s3 : store,
      truncate tableName s1 = (s3, Ok tt) /\ rows_of s3 tableName = Some [].
Proof.
  intros Hsoft Htab Hl Hclock Hsort shouldDelete unmarked.
  destruct (mark_deleted_spec shouldDelete rows s)
    as (rows1 & k & Hrun & Hlen & Hyes & Hno).
  assert (Hderef : deref s l = rows) by (unfold deref; by rewrite Hl).
  eexists _, rows1. split; [|split; [|split; [|split; [|split; [|split]]]]].
  - unfold VertexDB.delete. rewrite Htab, Hsoft, Hderef.
    fold shouldDelete. unfold bind at 1. unfold bind at 1.
    rewrite Hrun. unfold set_new_array, modify, bind. reflexivity.
  - unfold rows_of, deref. cbn. rewrite lookup_insert_eq. cbn.
    by rewrite list_lookup_middle.
  - exact Hlen.
  - intros i r Hi Hdel. destruct (Hyes i r Hi Hdel) as [t Ht].
    exists t. split; [done|]. unfold unmarked, read.
    rewrite lookup_insert_eq. cbn.
    destruct (String.eqb_spec (clock t) ""); [by destruct (Hclock t)|done].
  - exact Hno.
  - intros Htags r. by apply matches_agrees_on_equalities.
  - assert (Hget :
      get tableName
        (_resetConditions
           (set_tables (<[tableName := List.length (heap (set_ticks k s))]>
                          (_tables (set_ticks k s)))
              (set_heap (heap (set_ticks k s) ++ [rows1]) (set_ticks k s))))
      = (_resetConditions
           (set_tables (<[tableName := List.length (heap (set_ticks k s))]>
                          (_tables (set_ticks k s)))
              (set_heap (heap (set_ticks k s) ++ [rows1]) (set_ticks k s))),
         Ok (List.filter unmarked rows1))).
    { unfold VertexDB.get. cbn. rewrite lookup_insert_eq, Hsoft.
      unfold deref. cbn. rewrite list_lookup_middle by done. cbn.
      unfold VertexDB._applyConditions. cbn. reflexivity. }
    split; [exact Hget|]. split; [|split].
    + unfold VertexDB.count, bind. rewrite Hget. reflexivity.
    + intros s2 res Hrows2 Hsoft2 Hres r Hr.
      unfold rows_of in Hrows2. unfold VertexDB.get in Hres.
      destruct (_tables s2 !! tableName) as [l2|]; [|done].
      cbn in Hrows2. injection Hrows2 as Hrows2.
      rewrite Hrows2, Hsoft2 in Hres.
      destruct (VertexDB._applyConditions array_sort s2 _) as [res'|] eqn:Ha;
        [|done].
      cbn in Hres. injection Hres as ->.
      apply (_applyConditions_subset _ _ _ Hsort Ha) in Hr.
      apply list_elem_of_In, filter_In in Hr as [Hr Hun].
      split; [by apply list_elem_of_In|done].
    + eexists. unfold truncate. cbn. rewrite lookup_insert_eq.
      split; [reflexivity|].
      unfold rows_of, deref, set_new_array, modify. cbn.
      rewrite lookup_insert_eq. cbn.
      by rewrite list_lookup_middle by (by rewrite length_app).
Qed.

(** *** Transactions *)

(** A plain insert: no trigger on the table, no timestamps, an id of the
    caller's. The row is pushed onto the table's array. *)
Lemma insert_plain
    (s : store) (tableName : string) (l : nat) (data : row) :
  _tables s !! tableName = Some l ->
  _triggers s !! tableName = None ->
  _timestamps s = false ->
  read data "id" <> str "AUTO_INCREMENT" ->
  insert tableName data s
  = (set_heap (alter (fun rows => rows ++ [data]) l (heap s))
       (set_lastInsertId (read data "id") s), Ok tt).
Proof.
  intros Htab Htrig Hts Hid.
  unfold VertexDB.insert. rewrite Htab.
  unfold strict_eq. rewrite bool_decide_eq_false_2 by done.
  cbn [_timestamps set_lastInsertId]. rewrite Hts.
  unfold _trigger. cbn [_triggers set_lastInsertId].
  unfold trigger in *. by rewrite Htrig.
Qed.

Lemma bulkInsert_plain (tableName : string) (l : nat) (dataArray : list row) :
  forall (s : store) (rows : list row),
  _tables s !! tableName = Some l ->
  heap s !! l = Some rows ->
  _triggers s !! tableName = None ->
  _timestamps s = false ->
  Forall (fun data => read data "id" <> str "AUTO_INCREMENT") dataArray ->
  exists s1 : store,
    bulkInsert tableName dataArray s = (s1, Ok tt) /\
    _tables s1 = _tables s /\
    heap s1 !! l = Some (rows ++ dataArray).
Proof.
  induction dataArray as [|data rest IH]; intros s rows Htab Hl Htrig Hts Hids.
  - exists s. rewrite app_nil_r. by repeat split.
  - apply Forall_cons in Hids as [Hid Hids].
    cbn [VertexDB.bulkInsert]. unfold bind at 1.
    rewrite (insert_plain s tableName l data) by done.
    set (s' := set_heap _ _).
    destruct (IH s' (rows ++ [data])) as (s1 & Hrun & Ht1 & Hl1); try done.
    { subst s'. cbn. by rewrite list_lookup_alter_eq, Hl. }
    exists s1. rewrite Hrun. split; [done|]. split; [done|].
    by rewrite Hl1, <- app_assoc.
Qed.

(** [transaction] does not undo plain inserts: whatever rows the callback
    pushed before raising are in the table after the rollback, so with at
    least one insert the table-to-rows mapping differs from the one at
    entry. *)
Lemma transaction_keeps_plain_inserts
    (s : store) (tableName : string) (l : nat) (rows dataArray : list row)
    (e : error) :
  tableName <> "__proto__" ->
  _tables s !! tableName = Some l ->
  heap s !! l = Some rows ->
  _triggers s !! tableName = None ->
  _timestamps s = false ->
  Forall (fun data => read data "id" <> str "AUTO_INCREMENT") dataArray ->
  exists s1 : store,
    transaction (bulkInsert tableName dataArray ;; throw e) s
    = (s1, Throw e) /\
    rows_of s tableName = Some rows /\
    rows_of s1 tableName = Some (rows ++ dataArray) /\
    (dataArray <> [] -> table_rows s1 <> table_rows s).
Proof.
  intros Hname Htab Hl Htrig Hts Hids.
  destruct (bulkInsert_plain tableName l dataArray
              (set_ticks (S (ticks s)) s) rows)
    as (s1 & Hrun & Ht1 & Hl1); try done.
  assert (Hbefore : rows_of s tableName = Some rows).
  { unfold rows_of, deref. rewrite Htab. cbn. by rewrite Hl. }
  assert (Hafter :
    rows_of (set_relationships (_relationships s)
               (set_tables (base.delete "__proto__" (_tables s)) s1))
      tableName = Some (rows ++ dataArray)).
  { unfold rows_of, deref. cbn. rewrite lookup_delete_ne, Htab by done. cbn.
    by rewrite Hl1. }
  eexists. split; [|split; [exact Hbefore|split; [exact Hafter|]]].
  - unfold VertexDB.transaction, VertexDB.backup, _getCurrentTimestamp.
    unfold bind, now, ret, gets, throw, restore, modify.
    cbn [fst snd]. rewrite Hrun. reflexivity.
  - intros Hne Heq.
    assert (H : table_rows
                  (set_relationships (_relationships s)
                     (set_tables (base.delete "__proto__" (_tables s)) s1))
                  !! tableName
                = table_rows s !! tableName) by (by rewrite Heq).
    unfold table_rows in H. rewrite !lookup_fmap in H.
    unfold rows_of in Hbefore, Hafter. rewrite Hafter, Hbefore in H.
    injection H as H. apply (f_equal List.length) in H.
    rewrite length_app in H. destruct dataArray; [done|]. cbn in H. lia.
Qed.

(** *** Ordering on V8 *)

(** When all rows have the same key, V8's sort under the comparator of
    [orderBy] returns them in reverse: the whole array, however long, is
    taken for one descending run. *)
Lemma orderBy_reverses_equal_rows
    (column direction : string) (k : value) (rows : list row) :
  Forall (fun r => read r column = k) rows ->
  Engine.sort (order_compare column direction) rows = rev rows.
Proof.
  intros Hkeys.
  destruct rows as [|a [|b rest]]; [done|done|].
  set (l := a :: b :: rest) in *.
  assert (Hcmp : forall x y, x ∈ l -> y ∈ l ->
    order_compare column direction x y = -1).
  { intros x y Hx Hy. apply order_compare_tie.
    rewrite (proj1 (Forall_forall _ _) Hkeys x Hx).
    by rewrite (proj1 (Forall_forall _ _) Hkeys y Hy). }
  assert (Hrun : forall rs prev,
    prev ∈ l -> (forall r, r ∈ rs -> r ∈ l) ->
    Engine.run_extend (order_compare column direction) true prev rs
    = List.length rs).
  { induction rs as [|cur rs IH]; intros prev Hprev Hrs; cbn; [done|].
    rewrite (Hcmp cur prev) by (done || apply Hrs, list_elem_of_here).
    cbn. rewrite IH; [done|apply Hrs, list_elem_of_here|].
    intros r Hr. by apply Hrs, list_elem_of_further. }
  assert (Ha : a ∈ l) by apply list_elem_of_here.
  assert (Hb : b ∈ l) by apply list_elem_of_further, list_elem_of_here.
  unfold Engine.sort. cbn [List.length Nat.ltb Nat.leb].
  unfold Engine.CountAndMakeRun, l.
  rewrite (Hcmp b a Hb Ha). cbn [Z.ltb Z.compare].
  rewrite Hrun;
    [|done|intros r Hr; by do 2 apply list_elem_of_further].
  change (2 + List.length rest)%nat with (List.length (a :: b :: rest)).
  rewrite !firstn_all, !drop_all, app_nil_r.
  cbn [List.length Nat.leb].
  change (S (S (List.length rest))) with (List.length (a :: b :: rest)).
  rewrite <- (length_rev (a :: b :: rest)).
  by rewrite firstn_all, drop_all.
Qed.

End Properties.

(* ===================================================================== *)
(** ** The class on concrete stores *)
(* ===================================================================== *)

Section Cases.
Import Scenario.

Local Abbreviation get := (VertexDB.get array_sort).
Local Abbreviation count := (VertexDB.count array_sort).
Local Abbreviation insert := (VertexDB.insert clock).
Local Abbreviation update := (VertexDB.update clock).
Local Abbreviation delete := (VertexDB.delete clock).
Local Abbreviation setTable := (VertexDB.setTable clock).
Local Abbreviation transaction := (VertexDB.transaction clock).

Lemma clock_nonempty (n : nat) : clock n <> "".
Proof. done. Qed.

(** C1. A table created with the schema [{name: {type: 'string', required:
    true}}] and a row without [name]: [_validateSchema] rejects the row, and
    [setTable] with the same schema raises and stores nothing; [insert]
    returns normally and the table goes from no row to that row. *)
Theorem insert_accepts_row_violating_schema :
  let row1 := obj [("id", number 1)] in
  getSchema users_with_schema "users" = Found required_name /\
  _validateSchema [row1] required_name
  = Throw (SchemaValidationError "name" IsRequired) /\
  rows_of users_with_schema "users" = Some [] /\
  (exists s1 : store,
     insert "users" row1 users_with_schema = (s1, Ok tt) /\
     rows_of s1 "users" = Some [row1]) /\
  (exists s1 : store,
     (do data <- array_literal [row1];
      setTable "users" (Some data) (Some required_name)) users_with_schema
     = (s1, Throw (SchemaValidationError "name" IsRequired)) /\
     rows_of s1 "users" = Some []).
Proof.
  cbv zeta. split; [reflexivity|]. split; [reflexivity|].
  split; [reflexivity|]. split; eexists; split; reflexivity.
Qed.

(** C2. A callback that inserts two rows into the existing, empty table
    [users] and then raises: [transaction] re-raises the failure, but the
    rows are still in the table afterwards. The snapshot holds the table's
    array itself, [insert] pushes onto that array, and [restore] puts the
    same array back. A callback that changes rows through [update], which
    builds a new array, is rolled back. *)
Theorem transaction_keeps_inserted_rows :
  let row1 := obj [("id", number 1); ("name", str "Ann")] in
  let row2 := obj [("id", number 2); ("name", str "Bob")] in
  let callback :=
    insert "users" row1 ;; insert "users" row2 ;; throw (Raised "boom") in
  let undone :=
    update "users" (obj [("name", str "Eve")]) ;; throw (Raised "boom") in
  table_rows users_empty = {[ "users" := [] ]} /\
  (exists s1 : store,
     transaction callback users_empty = (s1, Throw (Raised "boom")) /\
     table_rows s1 = {[ "users" := [row1; row2] ]} /\
     table_rows s1 <> table_rows users_empty) /\
  (exists s0 s1 : store,
     (insert "users" row1 users_empty).1 = s0 /\
     transaction undone s0 = (s1, Throw (Raised "boom")) /\
     table_rows s0 = {[ "users" := [row1] ]} /\
     table_rows s1 = table_rows s0).
Proof.
  cbv zeta. split; [reflexivity|]. split.
  - eexists. split; [reflexivity|]. split; [reflexivity|].
    intros H. apply (f_equal (fun m => m !! "users")) in H.
    vm_compute in H. discriminate H.
  - eexists _, _. split; [reflexivity|]. split; [reflexivity|].
    split; reflexivity.
Qed.

(** C3. The table [users] has the schema [required_name] and one row with a
    name and no age. [updateSchema] with a schema that requires [age]
    raises the validation failure, and [getSchema] afterwards returns the
    new schema, not the one that was stored before. *)
Theorem updateSchema_failure_replaces_schema :
  let row1 := obj [("id", number 1); ("name", str "Ann")] in
  exists s0 s1 : store,
    (insert "users" row1 users_with_schema).1 = s0 /\
    getSchema s0 "users" = Found required_name /\
    updateSchema "users" required_age s0
    = (s1, Throw (SchemaValidationError "age" IsRequired)) /\
    getSchema s1 "users" = Found required_age /\
    getSchema s1 "users" <> getSchema s0 "users".
Proof.
  cbv zeta. eexists _, _. split; [reflexivity|]. split; [reflexivity|].
  split; [reflexivity|]. split; [reflexivity|].
  vm_compute. intros H. discriminate H.
Qed.

(** C4. One row with [age] 20 and the pending condition
    [whereOperator('age', '>', 18)]: the read evaluator accepts the row and
    [get] returns it, yet [update] does not treat it as matching and leaves
    it unchanged. With [age] 18 it is the other way round: [get] returns
    nothing and [update] rewrites the row. [update] compares every
    condition with [===], whatever its operator. *)
Theorem update_ignores_operators :
  let older := Condition.Make "age" ">" (Prim (number 18)) in
  let row20 := obj [("id", number 1); ("age", number 20)] in
  let row18 := obj [("id", number 1); ("age", number 18)] in
  let patch := obj [("adult", boolean true)] in
  let with_row := fun r : row => (insert "users" r users_empty).1 in
  where_accepts [older] row20 = Ok true /\
  matches [older] row20 = false /\
  ((whereOperator "age" ">" (Prim (number 18)) ;; get "users")
     (with_row row20)).2 = Ok [row20] /\
  rows_of ((whereOperator "age" ">" (Prim (number 18)) ;;
            update "users" patch) (with_row row20)).1 "users"
  = Some [row20] /\
  where_accepts [older] row18 = Ok false /\
  matches [older] row18 = true /\
  ((whereOperator "age" ">" (Prim (number 18)) ;; get "users")
     (with_row row18)).2 = Ok [] /\
  rows_of ((whereOperator "age" ">" (Prim (number 18)) ;;
            update "users" patch) (with_row row18)).1 "users"
  = Some [obj [("id", number 1); ("age", number 18);
               ("adult", boolean true)]].
Proof. cbv zeta. repeat split; reflexivity. Qed.

(** C5, counterexample. (1) The table holds one row with id -5: the
    formula of the specification gives max(-5, 0) + 1 = 1, [insert] with the
    sentinel assigns -4. (2) A trigger vetoes every insert: two successive
    inserts with the sentinel are both assigned 1. (3) Two tables set to the
    same array: an insert into one changes the next id of the other. (4) The
    only row has the id "7th", not an integer: it counts as 7, not as 0.
    (5) The only row has the largest safe integer as its id: two successive
    inserts with the sentinel are both assigned [2^53]. *)
Lemma auto_increment_not_as_claimed :
  let row1 := obj [("id", number (-5))] in
  let auto := obj [("id", str "AUTO_INCREMENT")] in
  (let s0 := exec (insert "users" row1) users_empty in
   let s1 := exec (insert "users" auto) s0 in
   rows_of s0 "users" = Some [row1] /\
   spec_next_id [row1] = 1 /\
   rows_of s1 "users" = Some [row1; obj [("id", number (-4))]] /\
   _getNextId s0 "users" <> spec_next_id [row1]) /\
  (let s1 := exec (insert "users" auto) guarded_users in
   let s2 := exec (insert "users" auto) s1 in
   _lastInsertId s1 = number 1 /\ _lastInsertId s2 = number 1) /\
  (let s0 :=
     exec (do data <- array_literal [];
           setTable "a" (Some data) None ;; setTable "b" (Some data) None)
       (new plain) in
   _getNextId s0 "a" = 1 /\
   _getNextId (exec (insert "b" (obj [("id", number 5)])) s0) "a" = 6) /\
  (let row7 := obj [("id", str "7th")] in
   let s0 := exec (insert "users" row7) users_empty in
   spec_next_id [row7] = 1 /\ _getNextId s0 "users" = 8) /\
  (let last := obj [("id", number MAX_SAFE_INTEGER)] in
   let s0 := exec (insert "users" last) users_empty in
   let s1 := exec (insert "users" auto) s0 in
   let s2 := exec (insert "users" auto) s1 in
   rows_of s2 "users"
   = Some [last; obj [("id", number (2 ^ 53))];
           obj [("id", number (2 ^ 53))]]).
Proof.
  cbv zeta. split; [|split; [|split; [|split]]].
  - split; [reflexivity|]. split; [reflexivity|]. split; [reflexivity|].
    vm_compute. intros H. discriminate H.
  - split; reflexivity.
  - split; reflexivity.
  - split; reflexivity.
  - vm_compute. reflexivity.
Qed.

(** C5, at a table whose rows carry the ids 1 and "7": the sentinel is
    replaced by 8, and by 9 the next time. *)
Lemma auto_increment_ids_witness :
  let rows := [obj [("id", number 1)]; obj [("id", str "7")]] in
  let s0 := (bulkInsert clock "users" rows users_empty).1 in
  _tables s0 !! "users" = Some 0%nat /\
  heap s0 !! 0%nat = Some rows /\
  safe_ids rows /\
  _getNextId s0 "users" = 8 /\
  exists (newData : row) (s1 : store),
    insert "users" (obj [("id", str "AUTO_INCREMENT")]) s0 = (s1, Ok tt) /\
    read newData "id" = number 8 /\
    _getNextId s1 "users" = 9.
Proof.
  cbv zeta.
  set (rows := [obj [("id", number 1)]; obj [("id", str "7")]]).
  set (s0 := (bulkInsert clock "users" rows users_empty).1).
  pose proof (auto_increment_ids clock s0 "users" 0%nat rows
                (obj [("id", str "AUTO_INCREMENT")])
                eq_refl eq_refl eq_refl (safe_ids_checked rows eq_refl))
    as (_ & _ & _ & _ & (newData & s1 & Hrun & Hid & Hkept & _) & _).
  split; [reflexivity|]. split; [reflexivity|].
  split; [exact (safe_ids_checked rows eq_refl)|]. split; [reflexivity|].
  exists newData, s1. split; [exact Hrun|]. split; [exact Hid|].
  destruct Hkept as (_ & Hnext & _); [unfold vetoed; by vm_compute|].
  destruct (Hnext eq_refl) as [Hnine _]. exact Hnine.
Defined.

(** C6, on three users: two are 25, two are called Jane, one is both. *)
Lemma orWhere_is_conjunction_witness :
  _tables three_users !! "users" = Some 0%nat /\
  no_pending three_users /\
  ((where_ "age" (Prim (number 25)) None ;;
    orWhere "name" (Prim (str "Jane")) ;; get "users") three_users).2
  = Ok [jane].
Proof.
  assert (Hnone : no_pending three_users) by (repeat split).
  pose proof (orWhere_is_conjunction array_sort three_users "users" 0%nat
                "age" "name" (Prim (number 25)) (Prim (str "Jane"))
                eq_refl Hnone) as (Hchain & _).
  split; [reflexivity|]. split; [exact Hnone|].
  rewrite Hchain. reflexivity.
Defined.

(** Soft deletion under an equality, on three users with soft deletion on
    and the pending condition [where('name', 'Jane')]: rows 0 and 2 are
    marked, [john] is the only row a read returns, and all three are still
    stored. *)
Lemma soft_delete_marks_and_hides_witness :
  _softDelete soft_users = true /\
  _tables soft_users !! "users" = Some 0%nat /\
  heap soft_users !! 0%nat = Some [jane; john; june] /\
  exists (s1 : store) (rows1 : list row),
    (where_ "name" (Prim (str "Jane")) None ;; delete "users") soft_users
    = (s1, Ok tt) /\
    rows_of s1 "users" = Some rows1 /\
    List.length rows1 = 3%nat /\
    get "users" s1 = (s1, Ok [john]) /\
    count "users" s1 = (s1, Ok 1%nat).
Proof.
  set (s := (where_ "name" (Prim (str "Jane")) None soft_users).1).
  pose proof (soft_delete_marks_and_hides clock array_sort s "users" 0%nat
                [jane; john; june] eq_refl eq_refl eq_refl clock_nonempty
                (fun cmp rs => EngineFacts.sort_perm cmp rs))
    as (s1 & rows1 & Hrun & Hrows & Hlen & Hyes & Hno & _ & Hget & Hcount
        & _).
  split; [reflexivity|]. split; [reflexivity|]. split; [reflexivity|].
  exists s1, rows1. split; [exact Hrun|]. split; [exact Hrows|].
  split; [exact Hlen|].
  assert (Hlive : List.filter
            (fun r : row => negb (truthy (read r "deleted_at"))) rows1
          = [john]).
  { destruct (Hyes 0%nat jane eq_refl eq_refl) as (t0 & H0 & U0).
    destruct (Hyes 2%nat june eq_refl eq_refl) as (t2 & H2 & U2).
    pose proof (Hno 1%nat john eq_refl eq_refl) as H1.
    destruct rows1 as [|r0 [|r1 [|r2 [|r3 rest]]]]; try discriminate Hlen.
    cbn [lookup list_lookup] in H0, H1, H2.
    injection H0 as ->. injection H1 as ->. injection H2 as ->.
    cbn [List.filter]. rewrite U0, U2. reflexivity. }
  rewrite Hget, Hcount, Hlive. split; reflexivity.
Defined.

(** C7. Three users with soft deletion on and the pending condition
    [whereOperator('age', '>', 30)]: the read evaluator accepts the user
    aged 31 and [get] returns her, yet [delete] under the same condition
    does not treat her as matching: it returns normally and marks no row,
    so she carries no [deleted_at] and [get] and [count] still return all
    three users. [delete] compares every condition with [===], whatever
    its operator, as [update] does. Under the equality [where('age', 31)]
    she is marked, kept in the table and hidden from [get]. *)
Theorem soft_delete_ignores_operators :
  let older := Condition.Make "age" ">" (Prim (number 30)) in
  let pending := whereOperator "age" ">" (Prim (number 30)) in
  let s1 := ((pending ;; delete "users") soft_users).1 in
  let s2 :=
    ((where_ "age" (Prim (number 31)) None ;; delete "users")
       soft_users).1 in
  _softDelete soft_users = true /\
  rows_of soft_users "users" = Some [jane; john; june] /\
  where_accepts [older] june = Ok true /\
  matches [older] june = false /\
  ((pending ;; get "users") soft_users).2 = Ok [june] /\
  ((pending ;; delete "users") soft_users).2 = Ok tt /\
  rows_of s1 "users" = Some [jane; john; june] /\
  read june "deleted_at" = undefined /\
  get "users" s1 = (s1, Ok [jane; john; june]) /\
  count "users" s1 = (s1, Ok 3%nat) /\
  rows_of s2 "users"
  = Some [jane; john; <["deleted_at" := str (clock 0)]> june] /\
  get "users" s2 = (s2, Ok [jane; john]).
Proof. cbv zeta. repeat split; reflexivity. Qed.

(** C8. Two rows with the same key [k]: the comparator of [orderBy('k')]
    answers -1 for (a, b) and for (b, a), so it reports no tie, and V8's
    sort returns the two rows in the opposite order, ascending and
    descending alike. A stable sort by [k] would leave them as they are. *)
Theorem orderBy_reverses_equal_keys :
  let a := obj [("k", number 1); ("n", str "a")] in
  let b := obj [("k", number 1); ("n", str "b")] in
  let s0 := (bulkInsert clock "users" [a; b] users_empty).1 in
  rows_of s0 "users" = Some [a; b] /\
  order_compare "k" "ASC" a b = -1 /\
  order_compare "k" "ASC" b a = -1 /\
  ((orderBy "k" None ;; get "users") s0).2 = Ok [b; a] /\
  ((orderBy "k" (Some "desc") ;; get "users") s0).2 = Ok [b; a].
Proof. cbv zeta. repeat split; reflexivity. Qed.

(** C9, counterexample. A trigger vetoes the insert of a row with id 0: the
    row is not appended, the state holds 0, and [getLastInsertId] returns
    [null], which is not the vetoed row's id. *)
Lemma getLastInsertId_null_after_vetoed_zero :
  let row0 := obj [("id", number 0); ("name", str "Zed")] in
  let s1 := (insert "users" row0 guarded_users).1 in
  rows_of s1 "users" = Some [] /\
  _lastInsertId s1 = number 0 /\
  getLastInsertId s1 = null /\
  getLastInsertId s1 <> read row0 "id".
Proof.
  cbv zeta. split; [reflexivity|]. split; [reflexivity|].
  split; [reflexivity|]. vm_compute. intros H. discriminate H.
Qed.

(** C9, at a vetoed insert of a row with id 7. *)
Lemma insert_records_id_despite_veto_witness :
  let row7 := obj [("id", number 7)] in
  _tables guarded_users !! "users" = Some 0%nat /\
  heap guarded_users !! 0%nat = Some [] /\
  exists s1 : store,
    insert "users" row7 guarded_users = (s1, Ok tt) /\
    rows_of s1 "users" = Some [] /\
    getLastInsertId s1 = number 7.
Proof.
  cbv zeta.
  pose proof (insert_records_id_despite_veto clock guarded_users "users"
                0%nat [] (obj [("id", number 7)]) eq_refl eq_refl)
    as (newData & s1 & Hrun & Hid & Hlast & Hveto & _ & Hget).
  split; [reflexivity|]. split; [reflexivity|].
  exists s1. split; [exact Hrun|].
  split.
  - injection Hrun as <-. reflexivity.
  - rewrite Hget, Hid. reflexivity.
Defined.

(** C10, with two conditions, an order and a limit pending when [get] is
    called on a table that was never created. *)
Lemma missing_table_keeps_conditions_witness :
  let pending :=
    ((where_ "age" (Prim (number 25)) None ;;
      whereLike "name" "%Ja%" ;;
      orderBy "id" (Some "desc") ;; limit 1 None) three_users).1 in
  _tables pending !! "posts" = None /\
  get "posts" pending = (pending, Throw (TableNotFound "posts")) /\
  List.length (_whereConditions (get "posts" pending).1) = 2%nat /\
  (get "users" (get "posts" pending).1).2 = Ok [jane].
Proof.
  cbv zeta.
  set (pending := ((where_ "age" (Prim (number 25)) None ;;
      whereLike "name" "%Ja%" ;;
      orderBy "id" (Some "desc") ;; limit 1 None) three_users).1).
  pose proof (missing_table_keeps_conditions clock array_sort pending "posts"
                ∅ eq_refl) as (Hget & _).
  split; [reflexivity|]. split; [exact Hget|].
  rewrite Hget. split; reflexivity.
Defined.

End Cases.
End VertexDBSpec.

(* ===================================================================== *)
(** ** Properties of the rest of the class *)
(* ===================================================================== *)

Module VertexDBMoreSpec.
Import JS VertexDB Vocabulary VertexDBMore MoreVocabulary.

Section Properties.
Variable clock : nat -> string.
Variable array_sort : (row -> row -> Z) -> list row -> list row.

Local Abbreviation get := (VertexDB.get array_sort).
Local Abbreviation getOne := (VertexDB.getOne array_sort).
Local Abbreviation count := (VertexDB.count array_sort).
Local Abbreviation exists_ := (VertexDB.exists_ array_sort).
Local Abbreviation _applyConditions := (VertexDB._applyConditions array_sort).
Local Abbreviation insert := (VertexDB.insert clock).
Local Abbreviation bulkInsert := (VertexDB.bulkInsert clock).
Local Abbreviation update := (VertexDB.update clock).
Local Abbreviation delete := (VertexDB.delete clock).
Local Abbreviation setTable := (VertexDB.setTable clock).
Local Abbreviation transaction := (VertexDB.transaction clock).
Local Abbreviation backup := (VertexDB.backup clock).
Local Abbreviation distinct := (VertexDBMore.distinct array_sort).
Local Abbreviation sum := (VertexDBMore.sum array_sort).
Local Abbreviation paginate := (VertexDBMore.paginate array_sort).
Local Abbreviation getStats := (VertexDBMore.getStats clock).

(** *** Arrays behind tables *)

Lemma deref_app (s : store) (more : list (list row)) (l : nat) :
  is_Some (heap s !! l) -> default [] ((heap s ++ more) !! l) = deref s l.
Proof.
  intros [rows Hl]. unfold deref.
  by rewrite (lookup_app_l_Some _ _ _ _ Hl), Hl.
Qed.

(** [this._tables.set(tableName, rows)] with a new array: the table has the
    new rows, every other table of a well-formed store keeps its own. *)
Lemma set_new_array_spec (s : store) (tableName : string) (rows : list row) :
  exists s1 : store,
    set_new_array tableName rows s = (s1, Ok tt) /\
    heap s1 = heap s ++ [rows] /\
    _tables s1 = <[tableName := List.length (heap s)]> (_tables s) /\
    rows_of s1 tableName = Some rows /\
    (forall other l, other <> tableName ->
       _tables s !! other = Some l -> is_Some (heap s !! l) ->
       rows_of s1 other = rows_of s other).
Proof.
  eexists. split; [reflexivity|]. cbn. split; [done|]. split; [done|].
  split.
  - unfold rows_of, deref. cbn. rewrite lookup_insert_eq. cbn.
    by rewrite list_lookup_middle.
  - intros other l Hne Hother Hl. unfold rows_of. cbn.
    rewrite lookup_insert_ne, Hother by done. cbn. f_equal.
    by apply deref_app.
Qed.


(** *** Tables and triggers *)

(** X1. On a name that is free, [createTable] returns normally with an
    empty table under that name, leaves the rows of every other table as
    they are, and records the schema when one is given (without one, what
    [getSchema] answers for the name does not change). A second
    [createTable] on the name, with or without a schema, raises
    TableAlreadyExists and changes nothing. *)
Theorem createTable_fresh_then_taken
    (s : store) (tableName : string) (sch : option schema) :
  _tables s !! tableName = None ->
  well_formed s ->
  exists s1 : store,
    createTable tableName sch s = (s1, Ok tt) /\
    rows_of s1 tableName = Some [] /\
    (forall other, other <> tableName -> rows_of s1 other = rows_of s other) /\
    getSchema s1 tableName
    = match sch with
      | Some x => Found x
      | None => getSchema s tableName
      end /\
    (forall sch' : option schema,
       createTable tableName sch' s1
       = (s1, Throw (TableAlreadyExists tableName))) /\
    well_formed s1.
Proof.
  intros Hfree Hwf.
  assert (Hrows : forall m : option (gmap string schema),
    let s1 := set_schemas m
                (set_tables (<[tableName := List.length (heap s)]> (_tables s))
                   (set_heap (heap s ++ [[]]) s)) in
    rows_of s1 tableName = Some [] /\
    (forall other, other <> tableName -> rows_of s1 other = rows_of s other) /\
    (forall sch' : option schema,
       createTable tableName sch' s1
       = (s1, Throw (TableAlreadyExists tableName))) /\
    well_formed s1).
  { intros m s1. split; [|split; [|split]].
    - unfold rows_of, deref. cbn. rewrite lookup_insert_eq. cbn.
      by rewrite list_lookup_middle.
    - intros other Hne. unfold rows_of. cbn.
      rewrite lookup_insert_ne by done.
      destruct (_tables s !! other) as [l|] eqn:Hl; [|done]. cbn. f_equal.
      apply deref_app. by apply (Hwf other).
    - intros sch'. unfold createTable. cbn. by rewrite lookup_insert_eq.
    - intros other l. cbn. intros Hl.
      apply lookup_insert_Some in Hl as [[_ <-] | [_ Hl]].
      + rewrite list_lookup_middle by done. by eexists.
      + apply Hwf in Hl as [rows Hl].
        rewrite (lookup_app_l_Some _ _ _ _ Hl). by eexists. }
  unfold createTable. rewrite Hfree. destruct sch as [x|].
  - eexists. split; [reflexivity|].
    destruct (Hrows (Some (<[tableName := x]> (default ∅ (_schemas s)))))
      as (H1 & H2 & H3 & H4).
    split; [exact H1|]. split; [exact H2|]. split; [|split; [exact H3|exact H4]].
    unfold getSchema. cbn. by rewrite lookup_insert_eq.
  - eexists. split; [reflexivity|].
    destruct (Hrows (_schemas s)) as (H1 & H2 & H3 & H4).
    assert (Heta : set_schemas (_schemas s)
                     (set_tables
                        (<[tableName := List.length (heap s)]> (_tables s))
                        (set_heap (heap s ++ [[]]) s))
                   = set_tables
                       (<[tableName := List.length (heap s)]> (_tables s))
                       (set_heap (heap s ++ [[]]) s)) by done.
    rewrite Heta in *.
    split; [exact H1|]. split; [exact H2|]. split; [done|].
    split; [exact H3|exact H4].
Qed.

(** [_trigger] answers [false] exactly when one of the table's triggers
    returns [false]. *)
Lemma fold_trigger_false (ev : trigger_event)
    (triggers : list (string * trigger)) :
  forall init : bool,
    fold_left
      (fun shouldCommit '(_, t) =>
         match t ev with
         | ReturnsFalse => false
         | ReturnsOther | Raises => shouldCommit
         end) triggers init = false
    <-> init = false \/
        exists n t, (n, t) ∈ triggers /\ t ev = ReturnsFalse.
Proof.
  induction triggers as [|[n t] triggers IH]; intros init; cbn.
  - split; [auto|]. intros [? | (? & ? & H & _)]; [done|].
    by apply elem_of_nil in H.
  - rewrite IH. split.
    + intros [Hinit | (n' & t' & Hin & Hf)].
      * destruct (t ev) eqn:Ht; auto.
        right. exists n, t. split; [apply list_elem_of_here|done].
      * right. exists n', t'. split; [by apply list_elem_of_further|done].
    + intros [-> | (n' & t' & Hin & Hf)].
      * left. by destruct (t ev).
      * apply elem_of_cons in Hin as [[= -> ->] | Hin].
        -- left. by rewrite Hf.
        -- right. by exists n', t'.
Qed.

(** X2. A mutation is vetoed exactly when some trigger registered for the
    table returns [false] on it: triggers that return anything else, and
    triggers that raise, never stop it, and a table without triggers never
    vetoes. *)
Theorem veto_iff_some_trigger_returns_false
    (s : store) (tableName operation : string) (OLD NEW : option row) :
  vetoed s tableName operation OLD NEW
  <-> exists (n : string) (t : trigger),
        (n, t) ∈ default [] (_triggers s !! tableName) /\
        t (TriggerEvent operation OLD NEW) = ReturnsFalse.
Proof.
  unfold vetoed, _trigger. rewrite fold_trigger_false.
  split; [intros [? | ?]; [done|assumption]|auto].
Qed.

(** X3. [dropTrigger] on a trigger that exists removes every trigger of the
    table, not only the one named: afterwards no mutation of the table is
    vetoed, dropping any name for that table fails, and the triggers of
    other tables and all rows are as before. *)
Theorem dropTrigger_drops_all
    (s : store) (tableName triggerName : string) :
  has_trigger s tableName triggerName ->
  exists s1 : store,
    dropTrigger tableName triggerName s = (s1, inr tt) /\
    _triggers s1 !! tableName = None /\
    (forall operation OLD NEW,
       ~ vetoed s1 tableName operation OLD NEW) /\
    (forall other,
       dropTrigger tableName other s1
       = (s1, inl (TriggerNotFound tableName other))) /\
    (forall other, other <> tableName ->
       _triggers s1 !! other = _triggers s !! other) /\
    table_rows s1 = table_rows s.
Proof.
  intros (triggers & t & Htab & Hin).
  unfold dropTrigger. unfold trigger in *. rewrite Htab.
  assert (Hex : existsb (fun '(n, _) => String.eqb n triggerName) triggers
                = true).
  { apply existsb_exists. exists (triggerName, t).
    split; [by apply list_elem_of_In|]. apply String.eqb_refl. }
  rewrite Hex. eexists. split; [reflexivity|]. cbn.
  split; [apply lookup_delete_eq|]. split; [|split; [|split]].
  - intros operation OLD NEW. unfold vetoed, _trigger. cbn.
    unfold trigger. by rewrite lookup_delete_eq.
  - intros other. unfold trigger. by rewrite lookup_delete_eq.
  - intros other Hne. by rewrite lookup_delete_ne.
  - done.
Qed.

(** *** Schema validation *)

Lemma check_row_fails (r : row) (field : string) (rules : Rule.t)
    (sch : schema) :
  (field, rules) ∈ sch ->
  (exists e, check_rules r field rules = Throw e) ->
  exists e, check_row r sch = Throw e.
Proof.
  intros Hin [e He]. induction sch as [|[f x] sch IH].
  - by apply elem_of_nil in Hin.
  - cbn. apply elem_of_cons in Hin as [[= <- <-] | Hin].
    + rewrite He. by eexists.
    + destruct (check_rules r f x); [by apply IH|by eexists].
Qed.

Lemma _validateSchema_fails (data : list row) (sch : schema) (r : row) :
  r ∈ data ->
  (exists e, check_row r sch = Throw e) ->
  exists e, _validateSchema data sch = Throw e.
Proof.
  intros Hin [e He]. induction data as [|x data IH].
  - by apply elem_of_nil in Hin.
  - cbn. apply elem_of_cons in Hin as [<- | Hin].
    + rewrite He. by eexists.
    + destruct (check_row x sch); [by apply IH|by eexists].
Qed.

(** X4. A field with a [type] rule, under a name that is not inherited
    from [Object.prototype], is mandatory whether or not the rule says
    [required]: a row in which the field is absent is rejected (with the
    type violation when [required] is off), and so is every batch that
    contains such a row, under every schema that contains such a rule. *)
Theorem typed_field_is_mandatory
    (r : row) (field ty : string) (rules : Rule.t)
    (data : list row) (sch : schema) :
  inherited field = false ->
  Rule.type rules = Some ty ->
  ty <> "" -> ty <> "undefined" ->
  read r field = undefined ->
  r ∈ data -> (field, rules) ∈ sch ->
  check_rules r field rules
  = Throw (SchemaValidationError field
             (if Rule.required rules then IsRequired else MustBeOfType ty)) /\
  exists e, _validateSchema data sch = Throw e.
Proof.
  intros _ Hty Hne Hund Hread Hdata Hsch.
  assert (Hrule : check_rules r field rules
    = Throw (SchemaValidationError field
               (if Rule.required rules then IsRequired else MustBeOfType ty))).
  { assert (Hu : String.eqb "undefined" ty = false).
    { apply String.eqb_neq. congruence. }
    unfold check_rules. rewrite Hread, Hty.
    destruct (Rule.required rules); [done|].
    cbn [andb strict_eq orb violated typeof truthy].
    by rewrite Hu, (proj2 (String.eqb_neq _ _) Hne). }
  split; [exact Hrule|].
  apply (_validateSchema_fails data sch r Hdata).
  apply (check_row_fails r field rules sch Hsch). by eexists.
Qed.

(** X5. A bound of 0 is not a bound: [min: 0], [max: 0] and [length: 0] are
    falsy and skipped, so the rule [{type: 'number', min: 0}] accepts every
    number, the negative ones included, and a rule set with all three at 0
    checks what the same rule set without them checks. *)
Theorem zero_bounds_are_ignored
    (r : row) (field : string) (required : bool) (ty : option string)
    (pattern : option (string -> bool)) (n : Z) :
  check_rules r field
    (Rule.Make required ty (Some 0) (Some 0) (Some 0) pattern)
  = check_rules r field (Rule.Make required ty None None None pattern) /\
  _validateSchema [ {[ field := number n ]} ]
    [(field, Rule.Make false (Some "number") (Some 0) None None None)]
  = Ok tt.
Proof.
  split.
  - unfold check_rules. cbn. reflexivity.
  - cbn. unfold check_rules, read. rewrite lookup_singleton_eq. cbn.
    reflexivity.
Qed.

(** *** Updates and deletes *)

Lemma mark_deleted_eq (shouldDelete : row -> bool) (table : list row) :
  forall s : store,
    mark_deleted clock shouldDelete table s
    = (set_ticks (List.length (List.filter shouldDelete table) + ticks s) s,
       Ok (marked_rows clock shouldDelete (ticks s) table)).
Proof.
  induction table as [|r table IH]; intros s.
  - by destruct s.
  - cbn [mark_deleted marked_rows List.filter]. unfold bind at 1.
    destruct (shouldDelete r).
    + unfold bind at 1, now, ret at 1. unfold bind at 1.
      rewrite IH. unfold ret. cbn.
      by rewrite Nat.add_succ_r.
    + unfold ret at 1. unfold bind at 1. by rewrite IH.
Qed.

(** X6. [update] and [delete] look at the where-conditions only: pending
    search terms, an order and a limit change nothing in what they do to an
    existing table, so [limit(1).delete(t)] deletes every matching row:
    with and without them the result and the store left behind are the
    same. *)
Theorem writes_ignore_search_order_limit
    (s : store) (tableName : string) (l : nat) (data : row)
    (terms : list (string * value)) (order : option (string * string))
    (lim : option Z) (offset : Z) :
  _tables s !! tableName = Some l ->
  let s' := set_limit lim offset
              (set_orderBy order (set_searchConditions terms s)) in
  update tableName data s' = update tableName data s /\
  delete tableName s' = delete tableName s.
Proof.
  intros Htab s'. split.
  - unfold VertexDB.update. cbn. rewrite Htab.
    destruct (_timestamps s); reflexivity.
  - unfold VertexDB.delete. cbn. rewrite Htab.
    unfold bind, modify, set_new_array.
    destruct (_softDelete s); [|reflexivity].
    rewrite !mark_deleted_eq. reflexivity.
Qed.

Lemma update_row_ext (s' : store) (tableName : string) (updateData : row)
    (rows : list row) :
  map (fun r : row =>
         let shouldUpdate := matches (_whereConditions s') r in
         let newData := if shouldUpdate then spread r updateData else r in
         let shouldUpdate :=
           shouldUpdate &&
           _trigger s' tableName "update" (Some r) (Some newData) in
         if shouldUpdate then newData else r) rows
  = map (fun r : row =>
           if matches (_whereConditions s') r &&
              _trigger s' tableName "update" (Some r)
                (Some (spread r updateData))
           then spread r updateData else r) rows.
Proof.
  apply map_ext. intros r. cbv zeta.
  by destruct (matches (_whereConditions s') r).
Qed.

(** X7. [update] rewrites the table in place: the row count and every
    position are kept; a row that fails the equality test on a pending
    condition, or whose update a trigger vetoes, is left as it is; every
    other row, soft-deleted or not, takes each field of the patch (and
    [updated_at] from the clock when timestamps are on) and keeps its other
    fields. The other tables are untouched and no condition stays
    pending. *)
Theorem update_merges_in_place
    (s : store) (tableName : string) (l : nat) (rows : list row)
    (data : row) :
  _tables s !! tableName = Some l ->
  heap s !! l = Some rows ->
  well_formed s ->
  let updateData :=
    if _timestamps s
    then <["updated_at" := str (clock (ticks s))]> data else data in
  let changes := fun r : row =>
    matches (_whereConditions s) r &&
    _trigger s tableName "update" (Some r) (Some (spread r updateData)) in
  exists (s1 : store) (rows1 : list row),
    update tableName data s = (s1, Ok tt) /\
    rows_of s1 tableName = Some rows1 /\
    List.length rows1 = List.length rows /\
    (forall i r, rows !! i = Some r -> changes r = false ->
       rows1 !! i = Some r) /\
    (forall i r, rows !! i = Some r -> changes r = true ->
       exists r1, rows1 !! i = Some r1 /\
         forall k, r1 !! k = match updateData !! k with
                             | Some v => Some v
                             | None => r !! k
                             end) /\
    (forall other, other <> tableName ->
       rows_of s1 other = rows_of s other) /\
    no_pending s1.
Proof.
  intros Htab Hl Hwf updateData changes.
  set (f := fun r : row => if changes r then spread r updateData else r).
  assert (Hderef : deref s l = rows) by (unfold deref; by rewrite Hl).
  assert (Hrun : exists s0 : store,
    update tableName data s
    = (_resetConditions
         (set_tables (<[tableName := List.length (heap s0)]> (_tables s0))
            (set_heap (heap s0 ++ [map f rows]) s0)), Ok tt) /\
    heap s0 = heap s /\ _tables s0 = _tables s).
  { unfold VertexDB.update. rewrite Htab. subst f changes updateData.
    destruct (_timestamps s).
    - exists (set_ticks (S (ticks s)) s). split; [|done].
      change (deref (set_ticks (S (ticks s)) s) l) with (deref s l).
      rewrite Hderef, update_row_ext. reflexivity.
    - exists s. split; [|done].
      rewrite Hderef, update_row_ext. reflexivity. }
  destruct Hrun as (s0 & Hrun & Hheap & Htabs).
  eexists _, (map f rows). split; [exact Hrun|].
  split; [|split; [|split; [|split; [|split]]]].
  - unfold rows_of, deref. cbn. rewrite lookup_insert_eq. cbn.
    by rewrite list_lookup_middle.
  - apply length_map.
  - intros i r Hi Hc. rewrite list_lookup_fmap, Hi. cbn.
    unfold f. by rewrite Hc.
  - intros i r Hi Hc. exists (spread r updateData). split.
    + rewrite list_lookup_fmap, Hi. cbn. unfold f. by rewrite Hc.
    + intros k. unfold spread. rewrite lookup_union.
      destruct (updateData !! k), (r !! k); done.
  - intros other Hne. unfold rows_of. cbn. rewrite Htabs, Hheap.
    rewrite lookup_insert_ne by done.
    destruct (_tables s !! other) as [l'|] eqn:Hl'; [|done]. cbn. f_equal.
    apply deref_app. by apply (Hwf other).
  - by repeat split.
Qed.

Lemma filter_none {A} (f : A -> bool) (l : list A) :
  (forall x, f x = false) -> List.filter f l = [].
Proof.
  intros Hf. induction l as [|x l IH]; cbn; [done|]. by rewrite Hf.
Qed.

(** X8. With soft deletion off, [delete] keeps, in their order, exactly the
    rows that fail the equality test on a pending condition or whose
    deletion a trigger vetoes. Without pending conditions and without
    triggers the table ends empty but is still there: the next [get]
    returns no row instead of raising. The other tables are untouched and
    no condition stays pending. *)
Theorem hard_delete_removes_matching
    (s : store) (tableName : string) (l : nat) (rows : list row) :
  _softDelete s = false ->
  _tables s !! tableName = Some l ->
  heap s !! l = Some rows ->
  well_formed s ->
  let removed := fun r : row =>
    matches (_whereConditions s) r &&
    _trigger s tableName "delete" (Some r) None in
  exists s1 : store,
    delete tableName s = (s1, Ok tt) /\
    rows_of s1 tableName
    = Some (List.filter (fun r => negb (removed r)) rows) /\
    get tableName s1
    = (s1, Ok (List.filter (fun r => negb (removed r)) rows)) /\
    (_whereConditions s = [] -> _triggers s !! tableName = None ->
     rows_of s1 tableName = Some []) /\
    (forall other, other <> tableName ->
       rows_of s1 other = rows_of s other) /\
    no_pending s1.
Proof.
  intros Hsoft Htab Hl Hwf removed.
  assert (Hderef : deref s l = rows) by (unfold deref; by rewrite Hl).
  assert (Hrows : forall rows1,
    rows_of
      (_resetConditions
         (set_tables (<[tableName := List.length (heap s)]> (_tables s))
            (set_heap (heap s ++ [rows1]) s))) tableName = Some rows1).
  { intros rows1. unfold rows_of, deref. cbn. rewrite lookup_insert_eq. cbn.
    by rewrite list_lookup_middle. }
  eexists. split; [|split; [|split; [|split; [|split]]]].
  - unfold VertexDB.delete. rewrite Htab, Hsoft, Hderef.
    fold removed. unfold bind, set_new_array, modify. reflexivity.
  - apply Hrows.
  - unfold VertexDB.get. cbn. rewrite lookup_insert_eq, Hsoft.
    unfold deref. cbn. rewrite list_lookup_middle by done. cbn.
    unfold VertexDB._applyConditions. cbn. reflexivity.
  - intros Hnone Htrig. rewrite Hrows. f_equal.
    assert (Hall : forall r, removed r = true).
    { intros r. unfold removed, _trigger. rewrite Hnone. cbn.
      unfold trigger in *. by rewrite Htrig. }
    apply filter_none. intros r.
    assert (Hn : negb (removed r) = false) by (by rewrite Hall).
    exact Hn.
  - intros other Hne. unfold rows_of. cbn.
    rewrite lookup_insert_ne by done.
    destruct (_tables s !! other) as [l'|] eqn:Hl'; [|done]. cbn. f_equal.
    apply deref_app. by apply (Hwf other).
  - by repeat split.
Qed.

(** *** Snapshots and transactions *)

Lemma table_rows_restored (s0 s1 : store)
    (rel : gmap string (list relation)) :
  well_formed s0 ->
  heap s0 `prefix_of` heap s1 ->
  table_rows (set_relationships rel (set_tables (_tables s0) s1))
  = table_rows s0.
Proof.
  intros Hwf Hpre. unfold table_rows. cbn.
  apply map_eq. intros tableName. rewrite !lookup_fmap.
  destruct (_tables s0 !! tableName) as [l|] eqn:Hl; [|done]. cbn. f_equal.
  destruct (Hwf tableName l Hl) as [rows Hrows]. unfold deref. cbn.
  by rewrite (prefix_lookup_Some _ _ _ _ Hrows Hpre), Hrows.
Qed.

(** X9. A snapshot holds the tables by reference. Restoring it into any
    later state in which the row arrays of that time were not changed
    (arrays may have been added) gives back the table-to-rows mapping of
    the moment of the backup, while schemas and triggers stay as they are
    at the time of the restore; restoring right after the backup changes
    nothing. *)
Theorem restore_recovers_snapshot (s0 s1 : store) :
  well_formed s0 ->
  _tables s0 !! "__proto__" = None ->
  heap s0 `prefix_of` heap s1 ->
  exists (b : snapshot) (s0' s2 : store),
    backup s0 = (s0', Ok b) /\
    table_rows s0' = table_rows s0 /\
    restore b s1 = (s2, Ok tt) /\
    table_rows s2 = table_rows s0 /\
    _schemas s2 = _schemas s1 /\
    _triggers s2 = _triggers s1 /\
    (restore b s0').1 = s0'.
Proof.
  intros Hwf Hproto Hpre.
  eexists _, _, _. split; [reflexivity|]. cbn.
  rewrite (delete_id _ _ Hproto).
  split; [done|]. split; [reflexivity|].
  split; [by apply table_rows_restored|].
  split; [done|]. split; [done|]. by destruct s0.
Qed.

Lemma adds_arrays_only_bind {A B} (m : M A) (k : A -> M B) :
  adds_arrays_only m -> (forall a, adds_arrays_only (k a)) ->
  adds_arrays_only (bind m k).
Proof.
  intros Hm Hk s. unfold bind. specialize (Hm s).
  destruct (m s) as [s' [a|e]]; cbn in *; [|done].
  etrans; [exact Hm|]. apply Hk.
Qed.

(** The methods that replace a table's array by a new one, and those that
    only touch the pending conditions, change no existing array. [insert]
    is not among them. *)
Lemma rewrites_add_arrays_only :
  (forall tableName data, adds_arrays_only (update tableName data)) /\
  (forall tableName, adds_arrays_only (delete tableName)) /\
  (forall tableName, adds_arrays_only (truncate tableName)) /\
  (forall tableName sch, adds_arrays_only (createTable tableName sch)) /\
  (forall tableName column v,
     adds_arrays_only (addColumn tableName column v)) /\
  (forall tableName column, adds_arrays_only (dropColumn tableName column)) /\
  (forall f v op, adds_arrays_only (where_ f v op)) /\
  (forall f op v, adds_arrays_only (whereOperator f op v)) /\
  (forall tableName, adds_arrays_only (get tableName)) /\
  (forall e, adds_arrays_only (@throw unit e)).
Proof.
  assert (Hnew : forall tableName rows s,
    heap s `prefix_of` heap (set_new_array tableName rows s).1).
  { intros tableName rows s. cbn. by apply prefix_app_r. }
  split; [|split; [|split; [|split; [|split; [|split; [|split; [|split;
    [|split]]]]]]]].
  - intros tableName data s. unfold VertexDB.update.
    destruct (_tables s !! tableName); [|done].
    destruct (_timestamps s); cbn; by apply prefix_app_r.
  - intros tableName s. unfold VertexDB.delete.
    destruct (_tables s !! tableName); [|done].
    unfold bind, modify. destruct (_softDelete s).
    + rewrite mark_deleted_eq. cbn. by apply prefix_app_r.
    + cbn. by apply prefix_app_r.
  - intros tableName s. unfold truncate.
    destruct (_tables s !! tableName); [apply Hnew|done].
  - intros tableName sch s. unfold createTable.
    destruct (_tables s !! tableName); [done|].
    destruct sch; cbn; by apply prefix_app_r.
  - intros tableName column v s. unfold addColumn.
    destruct (_tables s !! tableName); [apply Hnew|done].
  - intros tableName column s. unfold dropColumn.
    destruct (_tables s !! tableName); [apply Hnew|done].
  - intros f v op s. done.
  - intros f op v s. done.
  - intros tableName s. unfold VertexDB.get.
    destruct (_tables s !! tableName); [|done].
    by destruct (VertexDB._applyConditions _ _ _).
  - intros e s. done.
Qed.

(** X10. When the callback changes tables only through methods that build
    new arrays ([update], [delete], [truncate], [createTable], [addColumn],
    [dropColumn], in any sequence) and then raises, [transaction] re-raises
    the failure and the table-to-rows mapping is exactly the one at
    entry. *)
Theorem transaction_rolls_back_rewrites
    (s : store) (callback : M unit) (e : error) :
  well_formed s ->
  _tables s !! "__proto__" = None ->
  adds_arrays_only callback ->
  (callback (backup s).1).2 = Throw e ->
  exists s1 : store,
    transaction callback s = (s1, Throw e) /\
    table_rows s1 = table_rows s.
Proof.
  intros Hwf Hproto Hadds Hraise.
  unfold VertexDB.transaction, bind.
  destruct (VertexDB.backup clock s) as [s0 rb] eqn:Hb.
  unfold VertexDB.backup, _getCurrentTimestamp, bind, now, ret, gets in Hb.
  injection Hb as <- <-. cbn [fst] in Hraise.
  specialize (Hadds (set_ticks (S (ticks s)) s)).
  destruct (callback (set_ticks (S (ticks s)) s)) as [s' r].
  cbn [snd] in Hraise. subst r. cbn [fst] in Hadds.
  eexists. split; [reflexivity|]. cbn.
  rewrite (delete_id _ _ Hproto). by apply table_rows_restored.
Qed.

(** *** Dropping tables, adding and dropping columns *)

(** X11. [dropTable] on an existing table removes the table together with
    its triggers, its schema and its relationships, and every index whose
    key begins with the table's name and a colon; the rows, triggers and
    schemas of the other tables and all other indexes stay. Afterwards the
    table cannot be read or dropped again (TableNotFound), and restoring a
    snapshot taken before the drop brings its rows back without the schema
    and the triggers. *)
Theorem dropTable_removes_everything
    (d : database) (tableName : string) (l : nat) :
  _tables (core d) !! tableName = Some l ->
  well_formed (core d) ->
  _tables (core d) !! "__proto__" = None ->
  exists d1 : database,
    dropTable tableName d = (d1, Ok tt) /\
    rows_of (core d1) tableName = None /\
    _triggers (core d1) !! tableName = None /\
    (forall sch, getSchema (core d1) tableName <> Found sch) /\
    _relationships (core d1) !! tableName = None /\
    (forall key idx,
       (key, idx) ∈ default [] (_indexes d1) <->
       (key, idx) ∈ default [] (_indexes d) /\
       String.prefix (tableName +:+ ":") key = false) /\
    (forall other, other <> tableName ->
       rows_of (core d1) other = rows_of (core d) other /\
       _triggers (core d1) !! other = _triggers (core d) !! other /\
       getSchema (core d1) other = getSchema (core d) other) /\
    on_core (get tableName) d1 = (d1, Throw (TableNotFound tableName)) /\
    dropTable tableName d1 = (d1, Throw (TableNotFound tableName)) /\
    (forall (b : snapshot) (s2 : store),
       (backup (core d)).2 = Ok b ->
       (restore b (core d1)).1 = s2 ->
       rows_of s2 tableName = rows_of (core d) tableName /\
       _triggers s2 !! tableName = None /\
       (forall sch, getSchema s2 tableName <> Found sch)).
Proof.
  intros Htab Hwf Hproto. destruct d as [s idxs]. cbn in *.
  unfold dropTable. cbn. rewrite Htab.
  eexists. split; [reflexivity|]. cbn.
  assert (Hsch : forall sch,
    getSchema
      (set_relationships (base.delete tableName (_relationships s))
         (set_schemas (base.delete tableName <$> _schemas s)
            (set_triggers (base.delete tableName (_triggers s))
               (set_tables (base.delete tableName (_tables s)) s))))
      tableName <> Found sch).
  { intros sch. unfold getSchema. cbn.
    destruct (_schemas s) as [m|]; cbn; [|done].
    by rewrite lookup_delete_eq. }
  split; [unfold rows_of; cbn; by rewrite lookup_delete_eq|].
  split; [apply lookup_delete_eq|]. split; [exact Hsch|].
  split; [apply lookup_delete_eq|].
  split; [|split; [|split; [|split]]].
  - intros key idx. destruct idxs as [idxs|]; cbn.
    + rewrite !list_elem_of_In, filter_In. cbn.
      by rewrite negb_true_iff.
    + split; [intros H; by apply elem_of_nil in H|].
      intros [H _]. by apply elem_of_nil in H.
  - intros other Hne. split; [|split].
    + unfold rows_of. cbn. by rewrite lookup_delete_ne.
    + by rewrite lookup_delete_ne.
    + unfold getSchema. cbn. destruct (_schemas s) as [m|]; cbn; [|done].
      by rewrite lookup_delete_ne.
  - unfold on_core, VertexDB.get. cbn. by rewrite lookup_delete_eq.
  - unfold dropTable. cbn. by rewrite lookup_delete_eq.
  - intros b s2 Hb <-. cbn in Hb. injection Hb as <-. cbn.
    split; [|split].
    + unfold rows_of. cbn. by rewrite (delete_id _ _ Hproto), Htab.
    + apply lookup_delete_eq.
    + intros sch. unfold getSchema. cbn.
      destruct (_schemas s) as [m|]; cbn; [|done].
      by rewrite lookup_delete_eq.
Qed.

(** X12. [addColumn] sets the column in every row of the table, replacing
    whatever value a row had there, with [null] when the default is
    omitted; [dropColumn] removes it from every row, which then has no
    field of its own under that name. Both keep the number and order of
    the rows and leave the pending conditions alone, and dropping a column
    right after adding it gives back the original rows when no row had
    that column before. *)
Theorem addColumn_then_dropColumn
    (s : store) (tableName column : string) (l : nat) (rows : list row)
    (v : value) :
  _tables s !! tableName = Some l ->
  heap s !! l = Some rows ->
  let v' := if strict_eq v undefined then null else v in
  exists s1 s2 : store,
    addColumn tableName column v s = (s1, Ok tt) /\
    rows_of s1 tableName = Some (map (fun r : row => <[column := v']> r) rows) /\
    (forall r, r ∈ default [] (rows_of s1 tableName) ->
       read r column = v' /\ v' <> undefined) /\
    dropColumn tableName column s1 = (s2, Ok tt) /\
    rows_of s2 tableName
    = Some (map (fun r : row => base.delete column r) rows) /\
    (forall r, r ∈ default [] (rows_of s2 tableName) ->
       r !! column = None) /\
    (Forall (fun r : row => r !! column = None) rows ->
     rows_of s2 tableName = Some rows) /\
    _whereConditions s2 = _whereConditions s /\
    _searchConditions s2 = _searchConditions s /\
    _orderBy s2 = _orderBy s /\ _limit s2 = _limit s.
Proof.
  intros Htab Hl v'.
  assert (Hderef : deref s l = rows) by (unfold deref; by rewrite Hl).
  unfold addColumn. rewrite Htab, Hderef. fold v'.
  destruct (set_new_array_spec s tableName
              (map (fun r : row => <[column := v']> r) rows))
    as (s1 & Hrun1 & Hheap1 & Htab1 & Hrows1 & _).
  assert (Hl1 : _tables s1 !! tableName = Some (List.length (heap s)))
    by (rewrite Htab1; apply lookup_insert_eq).
  assert (Hderef1 : deref s1 (List.length (heap s))
                    = map (fun r : row => <[column := v']> r) rows).
  { unfold deref. rewrite Hheap1. by rewrite list_lookup_middle. }
  destruct (set_new_array_spec s1 tableName
              (map (fun r : row => base.delete column r)
                 (map (fun r : row => <[column := v']> r) rows)))
    as (s2 & Hrun2 & Hheap2 & Htab2 & Hrows2 & _).
  assert (Hdel : map (fun r : row => base.delete column r)
                   (map (fun r : row => <[column := v']> r) rows)
                 = map (fun r : row => base.delete column r) rows).
  { rewrite map_map. apply map_ext. intros r. apply delete_insert_eq. }
  rewrite Hdel in *.
  exists s1, s2. split; [exact Hrun1|]. split; [exact Hrows1|].
  split; [|split; [|split; [|split; [|split]]]].
  - rewrite Hrows1. cbn. intros r Hr.
    apply list_elem_of_In, in_map_iff in Hr as (r0 & <- & _).
    unfold read. rewrite lookup_insert_eq. cbn. split; [done|].
    subst v'. unfold strict_eq. case_bool_decide; [done|done].
  - unfold dropColumn. rewrite Hl1, Hderef1. rewrite Hdel. exact Hrun2.
  - exact Hrows2.
  - rewrite Hrows2. cbn. intros r Hr.
    apply list_elem_of_In, in_map_iff in Hr as (r0 & <- & _).
    apply lookup_delete_eq.
  - intros Hnone. rewrite Hrows2. f_equal.
    clear -Hnone. induction Hnone as [|r rows Hr _ IH]; cbn; [done|].
    by rewrite IH, delete_id.
  - injection Hrun1 as <-. injection Hrun2 as <-. done.
Qed.

(** *** Setting a table *)

(** X13. Without timestamps, [setTable] makes the caller's array the table
    itself, whether or not the name was in use, and records no schema: the
    schema argument is only used to validate the rows, and without it
    nothing is validated, not even against a schema recorded for the
    table. A later [insert] into the table therefore pushes onto the
    caller's array. When the rows violate the schema argument the failure
    is raised and the store is unchanged. *)
Theorem setTable_adopts_the_array
    (s : store) (tableName : string) (data : nat) (rows : list row)
    (sch : option schema) (row1 : row) :
  heap s !! data = Some rows ->
  _timestamps s = false ->
  (forall x, sch = Some x -> _validateSchema rows x = Ok tt) ->
  exists s1 : store,
    setTable tableName (Some data) sch s = (s1, Ok tt) /\
    _tables s1 !! tableName = Some data /\
    rows_of s1 tableName = Some rows /\
    heap s1 = heap s /\
    _schemas s1 = _schemas s /\
    (~ vetoed s tableName "insert" None (Some row1) ->
     read row1 "id" <> str "AUTO_INCREMENT" ->
     heap (insert tableName row1 s1).1 !! data = Some (rows ++ [row1])) /\
    (forall x e, _validateSchema rows x = Throw e ->
       setTable tableName (Some data) (Some x) s = (s, Throw e)).
Proof.
  intros Hdata Hts Hvalid.
  assert (Hderef : deref s data = rows) by (unfold deref; by rewrite Hdata).
  assert (Hrun : setTable tableName (Some data) sch s
    = (set_tables (<[tableName := data]> (_tables s)) s, Ok tt)).
  { unfold VertexDB.setTable, bind, ret, gets, lift, modify.
    cbv beta iota.
    destruct sch as [x|]; cbv beta iota;
      [unfold deref; rewrite Hdata;
       change (default [] (Some rows)) with rows;
       rewrite (Hvalid x eq_refl)|];
      by rewrite Hts. }
  eexists. split; [exact Hrun|]. cbn.
  split; [apply lookup_insert_eq|].
  split; [unfold rows_of, deref; cbn; rewrite lookup_insert_eq; cbn;
          by rewrite Hdata|].
  split; [done|]. split; [done|]. split.
  - intros Hveto Hid. unfold vetoed in Hveto.
    unfold VertexDB.insert. cbn. rewrite lookup_insert_eq.
    unfold strict_eq. rewrite bool_decide_eq_false_2 by done.
    rewrite Hts. unfold _trigger in *. cbn.
    destruct (fold_left _ _ _); [|done]. cbn.
    by rewrite list_lookup_alter_eq, Hdata.
  - intros x e Hbad. unfold VertexDB.setTable, bind, ret, gets, lift.
    cbv beta iota. unfold deref. rewrite Hdata.
    change (default [] (Some rows)) with rows. by rewrite Hbad.
Qed.

(** *** Pages *)

Lemma slice_take_drop {A} (l : list A) (a n : Z) :
  0 <= a -> 0 <= n ->
  slice l a (a + n) = take (Z.to_nat n) (drop (Z.to_nat a) l).
Proof.
  intros Ha Hn. unfold slice, relative_index.
  rewrite (proj2 (Z.ltb_ge a 0)) by lia.
  rewrite (proj2 (Z.ltb_ge (a + n) 0)) by lia.
  destruct (Z_le_gt_dec (Z.of_nat (List.length l)) a) as [Hbig | Hsmall].
  - rewrite Z.min_r by lia.
    rewrite !drop_ge by lia. by rewrite !take_nil.
  - rewrite (Z.min_l a) by lia.
    destruct (Z_le_gt_dec (a + n) (Z.of_nat (List.length l))) as [Hin | Hout].
    + rewrite Z.min_l by lia. f_equal. lia.
    + rewrite Z.min_r by lia.
      rewrite !take_ge; [done| |]; rewrite length_drop; lia.
Qed.

(** X14. With only a limit pending, of [lim] rows from offset [off], both
    non-negative, [get] returns the live rows from position [off] on, at
    most [lim] of them and in table order: nothing, without failure, when
    the offset is the number of live rows or more. The limit is then
    reset. *)
Theorem get_returns_the_page
    (s : store) (tableName : string) (l : nat) (lim off : Z) :
  _tables s !! tableName = Some l ->
  _whereConditions s = [] -> _searchConditions s = [] ->
  _orderBy s = None ->
  _limit s = Some lim -> _offset s = off ->
  0 <= off -> 0 <= lim ->
  let live := live_rows s (deref s l) in
  let results := take (Z.to_nat lim) (drop (Z.to_nat off) live) in
  get tableName s = (_resetConditions s, Ok results) /\
  Z.of_nat (List.length results) <= lim /\
  (Z.of_nat (List.length live) <= off -> results = []) /\
  (get tableName ;; get tableName) s = (_resetConditions s, Ok live).
Proof.
  intros Htab Hw Hs Ho Hlim Hoff Hnn Hln live results.
  assert (Hget : get tableName s = (_resetConditions s, Ok results)).
  { unfold VertexDB.get. rewrite Htab.
    unfold VertexDB._applyConditions. rewrite Hw, Hs, Ho, Hlim, Hoff. cbn.
    rewrite slice_take_drop by done. reflexivity. }
  split; [exact Hget|]. split; [|split].
  - subst results. rewrite length_take. lia.
  - intros Hbig. subst results. rewrite drop_ge by lia. apply take_nil.
  - unfold bind. rewrite Hget. unfold VertexDB.get. cbn. rewrite Htab.
    unfold VertexDB._applyConditions. cbn. reflexivity.
Qed.

Lemma ceil_div_positive (n p page : Z) :
  0 <= n -> 0 < p ->
  exists pages : Z,
    ceil_div n p = Finite pages /\
    (pages - 1) * p < n <= pages * p /\
    (page <? pages) = (page * p <? n).
Proof.
  intros Hn Hp. unfold ceil_div.
  rewrite (proj2 (Z.eqb_neq p 0)) by lia.
  exists (- ((- n) `div` p)). split; [done|].
  pose proof (Z.div_mod (- n) p ltac:(lia)) as Hdm.
  pose proof (Z.mod_pos_bound (- n) p Hp) as Hm.
  set (q := (- n) `div` p) in *. set (r := (- n) `mod` p) in *.
  assert (Hnq : n = (- q) * p - r) by lia.
  split; [nia|].
  destruct (Z.ltb_spec page (- q)) as [Hlt | Hge],
           (Z.ltb_spec (page * p) n) as [Hlt' | Hge']; try done.
  - assert (page * p <= (- q - 1) * p) by (apply Z.mul_le_mono_nonneg_r; lia).
    lia.
  - assert ((- q) * p <= page * p) by (apply Z.mul_le_mono_nonneg_r; lia).
    lia.
Qed.

(** X15. [paginate] first counts with the pending conditions and thereby
    resets them, then reads the page without them. For a page size above 0
    and a page number from 1 on: [total] is the number of rows the pending
    conditions select, [totalPages] is [total / perPage] rounded up,
    [hasNextPage] says whether rows are left beyond this page of the count,
    but [data] is cut from all live rows of the table, whatever the
    conditions were. *)
Theorem paginate_counts_filtered_reads_all
    (s : store) (tableName : string) (l : nat) (counted : list row)
    (page perPage : Z) :
  _tables s !! tableName = Some l ->
  _applyConditions s (live_rows s (deref s l)) = Ok counted ->
  0 < perPage -> 1 <= page ->
  let live := live_rows s (deref s l) in
  let n := Z.of_nat (List.length counted) in
  exists (pages : Z) (p : page_result),
    paginate tableName page perPage s = (_resetConditions s, Ok p) /\
    page_data p
    = take (Z.to_nat perPage) (drop (Z.to_nat ((page - 1) * perPage)) live) /\
    total p = List.length counted /\
    totalPages p = Finite pages /\
    (pages - 1) * perPage < n <= pages * perPage /\
    hasNextPage p = (page * perPage <? n) /\
    hasPrevPage p = (1 <? page) /\
    currentPage p = page.
Proof.
  intros Htab Hcount Hpp Hpage live n.
  destruct (ceil_div_positive n perPage page ltac:(lia) Hpp)
    as (pages & Hceil & Hbounds & Hnext).
  exists pages. eexists.
  assert (Hget : get tableName s = (_resetConditions s, Ok counted)).
  { unfold VertexDB.get. rewrite Htab.
    fold (live_rows s (deref s l)). by rewrite Hcount. }
  assert (Hdata :
    (limit perPage (Some ((page - 1) * perPage)) ;; get tableName)
      (_resetConditions s)
    = (_resetConditions s,
       Ok (take (Z.to_nat perPage)
             (drop (Z.to_nat ((page - 1) * perPage)) live)))).
  { unfold bind, limit, modify, VertexDB.get. cbn. rewrite Htab.
    unfold VertexDB._applyConditions. cbn.
    rewrite slice_take_drop by nia. reflexivity. }
  split.
  - unfold VertexDBMore.paginate, VertexDB.count.
    unfold bind at 1. unfold bind at 1. rewrite Hget. unfold ret at 1.
    unfold bind at 1. rewrite Hdata. unfold ret. reflexivity.
  - cbn. fold n. rewrite Hceil. cbn. by rewrite Hnext.
Qed.

(** X16. [exists] does not tell whether the table exists: with nothing
    pending it answers whether the table has a live row, so it is [false]
    for a table that was just created or whose rows are all soft-deleted,
    and it answers [false] under any pending conditions when there is no
    live row. Like every read it resets the conditions. *)
Theorem exists_means_has_live_rows
    (s : store) (tableName : string) (l : nat) :
  _tables s !! tableName = Some l ->
  (forall cmp, array_sort cmp [] = []) ->
  let live := live_rows s (deref s l) in
  (live = [] -> exists_ tableName s = (_resetConditions s, Ok false)) /\
  (no_pending s ->
   exists_ tableName s
   = (_resetConditions s, Ok (negb (bool_decide (live = []))))).
Proof.
  intros Htab Hsort live. split.
  - intros Hnone.
    unfold VertexDB.exists_, VertexDB.count, VertexDB.get, bind.
    rewrite Htab. fold (live_rows s (deref s l)). fold live. rewrite Hnone.
    unfold VertexDB._applyConditions.
    destruct (0 <? List.length (_whereConditions s))%nat; cbn [filter_rows];
      destruct (0 <? List.length (_searchConditions s))%nat; cbn [List.filter];
      destruct (_orderBy s) as [[c dir]|]; rewrite ?Hsort;
      destruct (_limit s); unfold slice; rewrite ?drop_nil, ?take_nil;
      done.
  - intros (Hw & Hs & Ho & Hl).
    unfold VertexDB.exists_, VertexDB.count, VertexDB.get, bind.
    rewrite Htab. fold (live_rows s (deref s l)). fold live.
    unfold VertexDB._applyConditions. rewrite Hw, Hs, Ho, Hl. cbn.
    unfold ret. do 2 f_equal. by destruct live.
Qed.

(** *** What sees soft-deleted rows *)

Lemma marked_rows_length (f : row -> bool) (rows : list row) :
  forall t, List.length (marked_rows clock f t rows) = List.length rows.
Proof.
  induction rows as [|r rows IH]; intros t; cbn; [done|].
  destruct (f r); cbn; by rewrite IH.
Qed.

Lemma marked_rows_all (rows : list row) :
  (forall n, clock n <> "") ->
  forall t,
    List.filter (fun r : row => negb (truthy (read r "deleted_at")))
      (marked_rows clock (fun _ => true) t rows) = [].
Proof.
  intros Hclock. induction rows as [|r rows IH]; intros t; cbn; [done|].
  unfold read at 1. rewrite lookup_insert_eq. cbn.
  destruct (String.eqb_spec (clock t) ""); [by destruct (Hclock t)|].
  cbn. apply IH.
Qed.

(** X17. After a soft [delete] the marked rows are hidden from [get] and
    [count] only. When no condition is pending and the table has no
    trigger, every row is marked: [count] is 0, while [raw] with a filter
    that accepts everything still returns as many rows as before and
    [getStats] still counts them for the table and in the total. Neither
    of the two changes the pending conditions. *)
Theorem raw_and_stats_see_deleted_rows
    (s : store) (tableName : string) (l : nat) (rows : list row)
    (idxs : option (list (string * table_index))) :
  _softDelete s = true ->
  _tables s !! tableName = Some l ->
  heap s !! l = Some rows ->
  tableName <> "__proto__" ->
  _whereConditions s = [] ->
  _triggers s !! tableName = None ->
  (forall n, clock n <> "") ->
  exists (s1 : store) (rows1 : list row) (st : stats) (d2 : database),
    delete tableName s = (s1, Ok tt) /\
    List.length rows1 = List.length rows /\
    count tableName s1 = (s1, Ok 0%nat) /\
    raw tableName (fun _ => true) s1 = (s1, Ok rows1) /\
    getStats (Database s1 idxs) = (d2, st) /\
    fst <$> stats_tables st !! tableName = Some (List.length rows) /\
    (List.length rows <= totalRecords st)%nat /\
    _whereConditions (core d2) = _whereConditions s1.
Proof.
  intros Hsoft Htab Hl Hname Hw Htrig Hclock.
  assert (Hderef : deref s l = rows) by (unfold deref; by rewrite Hl).
  set (rows1 := marked_rows clock (fun _ => true) (ticks s) rows).
  assert (Hdel : exists k,
    delete tableName s
    = (_resetConditions
         (set_tables (<[tableName := List.length (heap s)]> (_tables s))
            (set_heap (heap s ++ [rows1]) (set_ticks k s))), Ok tt)).
  { assert (Hmark : forall t,
      marked_rows clock
        (fun r : row =>
           matches (_whereConditions s) r &&
           _trigger s tableName "delete" (Some r) None) t rows
      = marked_rows clock (fun _ => true) t rows).
    { assert (Hf : forall r : row,
        matches (_whereConditions s) r &&
        _trigger s tableName "delete" (Some r) None = true).
      { intros r. unfold _trigger. rewrite Hw. cbn.
        unfold trigger in *. by rewrite Htrig. }
      clear -Hf. induction rows as [|r rows IH]; intros t; cbn; [done|].
      by rewrite Hf, IH. }
    unfold VertexDB.delete. rewrite Htab, Hsoft, Hderef.
    unfold bind at 1. unfold bind at 1. rewrite mark_deleted_eq, Hmark.
    eexists. unfold set_new_array, modify, bind. cbn. reflexivity. }
  destruct Hdel as [k Hdel].
  eexists _, rows1, _, _. split; [exact Hdel|].
  split; [apply marked_rows_length|].
  assert (Hlen : List.length rows1 = List.length rows)
    by apply marked_rows_length.
  split; [|split; [|split; [reflexivity|split; [|split]]]].
  - unfold VertexDB.count, VertexDB.get, bind. cbn.
    rewrite lookup_insert_eq, Hsoft. unfold deref. cbn.
    rewrite list_lookup_middle by done. cbn.
    subst rows1. rewrite marked_rows_all by done.
    unfold VertexDB._applyConditions. cbn. reflexivity.
  - unfold raw. cbn. rewrite lookup_insert_eq. unfold deref. cbn.
    rewrite list_lookup_middle by done. cbn. do 2 f_equal.
    clear. induction rows1 as [|r rows1 IH]; cbn; [done|]. by rewrite IH.
  - cbn. rewrite lookup_delete_ne by done.
    rewrite lookup_fmap, lookup_insert_eq. cbn. unfold deref. cbn.
    rewrite list_lookup_middle by done. cbn. by rewrite Hlen.
  - cbn.
    set (counts := (fun l0 : nat => _) <$> _).
    assert (Hc : counts !! tableName
                 = Some (List.length rows1,
                         match rows1 with r :: _ => size r | [] => 0%nat end)).
    { subst counts. rewrite lookup_fmap, lookup_insert_eq. cbn.
      unfold deref. cbn. by rewrite list_lookup_middle. }
    rewrite <- Hlen. revert Hc. generalize counts. clear.
    intros counts.
    apply (map_fold_weak_ind
      (fun acc m => forall n c, m !! tableName = Some (n, c) -> (n <= acc)%nat)).
    + intros n c H. by rewrite lookup_empty in H.
    + intros i [n c] m acc Hi IH n' c' Hl.
      apply lookup_insert_Some in Hl as [[_ [= <- <-]] | [_ Hl]]; [lia|].
      specialize (IH _ _ Hl). lia.
  - done.
Qed.

(** *** Indexes *)

Lemma build_index_snoc (columns : list string) (rows : list row) (r : row) :
  build_index columns (rows ++ [r])
  = <[index_key columns r :=
        default [] (build_index columns rows !! index_key columns r) ++ [r]]>
      (build_index columns rows).
Proof. unfold build_index. by rewrite fold_left_app. Qed.

Lemma build_index_lookup (columns : list string) (rows : list row)
    (key : string) :
  build_index columns rows !! key
  = match List.filter
            (fun r => bool_decide (index_key columns r = key)) rows with
    | [] => None
    | group => Some group
    end.
Proof.
  induction rows as [|r rows IH] using rev_ind; [done|].
  rewrite build_index_snoc, List.filter_app. cbn.
  destruct (decide (index_key columns r = key)) as [<- | Hne].
  - rewrite lookup_insert_eq, IH, bool_decide_eq_true_2 by done.
    destruct (List.filter _ rows) as [|x group]; done.
  - rewrite lookup_insert_ne, IH, bool_decide_eq_false_2 by done.
    by rewrite app_nil_r.
Qed.

Lemma map_set_spec {V} (key : string) (v : V) (m : list (string * V)) :
  (key, v) ∈ map_set key v m /\
  (forall k x, k <> key -> (k, x) ∈ map_set key v m <-> (k, x) ∈ m) /\
  (forall x, (key, x) ∈ map_set key v m ->
     x = v \/ exists i, (0 < i)%nat /\ m !! i = Some (key, x)).
Proof.
  induction m as [|[k x] m (IH1 & IH2 & IH3)]; cbn.
  - split; [apply list_elem_of_here|]. split.
    + intros k x Hne. rewrite list_elem_of_singleton. split; [|intros H].
      * intros [= -> ->]. done.
      * by apply elem_of_nil in H.
    + intros x H. apply list_elem_of_singleton in H as [= ->]. by left.
  - destruct (String.eqb_spec k key) as [-> | Hne].
    + split; [apply list_elem_of_here|]. split.
      * intros k' x' Hne'. rewrite !elem_of_cons.
        split; intros [[= -> ->] | H]; try done; by right.
      * intros x' H. apply elem_of_cons in H as [[= ->] | H]; [by left|].
        right. apply list_elem_of_lookup in H as [i Hi].
        exists (S i). split; [lia|done].
    + split; [by apply list_elem_of_further|]. split.
      * intros k' x' Hne'. rewrite !elem_of_cons. by rewrite IH2.
      * intros x' H. apply elem_of_cons in H as [[= -> ->] | H]; [done|].
        destruct (IH3 x' H) as [-> | (i & Hi & Hl)]; [by left|].
        right. exists (S i). split; [lia|done].
Qed.

(** X18. [createIndex] files every stored row of the table, soft-deleted
    ones included, under the [|]-joined text of its column values: looking
    a key up gives the rows with that key in table order, or nothing when
    no row has it. The index is stored under [table:col1+col2...], the
    indexes under other names are kept, and the tables are not touched; on
    a missing table it raises TableNotFound and creates nothing. *)
Theorem createIndex_groups_rows
    (d : database) (tableName : string) (l : nat) (rows : list row)
    (columns : list string) :
  _tables (core d) !! tableName = Some l ->
  heap (core d) !! l = Some rows ->
  let name := tableName +:+ ":" +:+ String.concat "+" columns in
  exists (d1 : database) (idx : table_index),
    createIndex tableName columns d = (d1, Ok tt) /\
    core d1 = core d /\
    (name, idx) ∈ default [] (_indexes d1) /\
    (forall key,
       idx !! key
       = match List.filter
                 (fun r => bool_decide (index_key columns r = key)) rows with
         | [] => None
         | group => Some group
         end) /\
    (forall r, r ∈ rows ->
       exists group, idx !! index_key columns r = Some group /\ r ∈ group) /\
    (forall other x, other <> name ->
       (other, x) ∈ default [] (_indexes d1) <->
       (other, x) ∈ default [] (_indexes d)) /\
    (forall missing, _tables (core d) !! missing = None ->
       createIndex missing columns d = (d, Throw (TableNotFound missing))).
Proof.
  intros Htab Hl name.
  assert (Hderef : deref (core d) l = rows) by (unfold deref; by rewrite Hl).
  destruct (map_set_spec name (build_index columns rows)
              (default [] (_indexes d))) as (Hin & Hother & _).
  eexists _, (build_index columns rows). split.
  { unfold createIndex. rewrite Htab, Hderef. reflexivity. }
  cbn. split; [done|]. split; [exact Hin|].
  split; [apply build_index_lookup|]. split; [|split].
  - intros r Hr. rewrite build_index_lookup.
    assert (Hrin : r ∈ List.filter
              (fun r0 => bool_decide (index_key columns r0
                                      = index_key columns r)) rows).
    { apply list_elem_of_In, filter_In. split; [by apply list_elem_of_In|].
      by apply bool_decide_eq_true_2. }
    destruct (List.filter _ rows) as [|x group] eqn:Hg.
    + by apply elem_of_nil in Hrin.
    + by eexists.
  - exact Hother.
  - intros missing Hmiss. unfold createIndex. by rewrite Hmiss.
Qed.

(** *** Joins *)

#[local] Instance prefix_key_inj (table : string) :
  Inj (=) (=) (fun key : string => table +:+ "_" +:+ key).
Proof.
  intros k1 k2 H. apply (String.app_inj table) in H.
  by apply (String.app_inj "_") in H.
Qed.

Lemma prefixed_lookup (table : string) (r : row) (key : string) :
  table +:+ "_" +:+ key <> "__proto__" ->
  prefixed table r !! (table +:+ "_" +:+ key) = r !! key.
Proof.
  intros Hne. unfold prefixed, prefix_keys. rewrite lookup_delete_ne by done.
  apply (lookup_kmap (fun key : string => table +:+ "_" +:+ key)).
Qed.

Lemma prefixed_lookup_None (table : string) (r : row) (field : string) :
  (forall key, field = table +:+ "_" +:+ key -> r !! key = None) ->
  prefixed table r !! field = None.
Proof.
  intros Hnone. unfold prefixed, prefix_keys.
  destruct (decide (field = "__proto__")) as [-> | Hne];
    [apply lookup_delete_eq|].
  rewrite lookup_delete_ne by done.
  apply lookup_kmap_None; [apply _|]. intros key Hkey. by apply Hnone.
Qed.

Lemma own_proto_lookup (first second : row) (field : string) :
  field <> "__proto__" -> own_proto first second !! field = None.
Proof.
  intros Hne. unfold own_proto.
  destruct (first !! "__proto__") as [[| | | |]|]; try apply lookup_empty.
  destruct (second !! "__proto__"); [|apply lookup_empty].
  by apply lookup_singleton_ne.
Qed.

Lemma find_first {A} (f : A -> bool) (l : list A) (j : nat) (x : A) :
  l !! j = Some x -> f x = true ->
  (forall j' y, (j' < j)%nat -> l !! j' = Some y -> f y = false) ->
  List.find f l = Some x.
Proof.
  revert j. induction l as [|a l IH]; intros [|j] Hj Hx Hbefore; try done.
  - cbn in Hj. injection Hj as ->. cbn. by rewrite Hx.
  - cbn. rewrite (Hbefore 0%nat a) by (lia || done).
    apply (IH j); [done|done|].
    intros j' y Hlt Hy. apply (Hbefore (S j') y); [lia|done].
Qed.

(** X19. [join] returns one row for each row of the first table, in order,
    over all stored rows of both tables. A row whose key value no row of
    the second table has under [key2] comes back as it is, unprefixed. A
    row with a match is replaced by a new row built from it and from the
    first matching row of the second table: each field of the match under
    [table2_field], each field of the row itself under [table1_field]
    unless the match already fills that name (for names other than
    [__proto__]). If either table is missing the failure names no
    table. *)
Theorem join_prefixes_first_match
    (s : store) (table1 table2 key1 key2 : string)
    (data1 data2 : list row) :
  rows_of s table1 = Some data1 ->
  rows_of s table2 = Some data2 ->
  exists joined : list row,
    join table1 table2 key1 key2 s = inr joined /\
    List.length joined = List.length data1 /\
    (forall i row1, data1 !! i = Some row1 ->
       (forall row2, row2 ∈ data2 -> read row2 key2 <> read row1 key1) ->
       joined !! i = Some row1) /\
    (forall i row1 j row2,
       data1 !! i = Some row1 -> data2 !! j = Some row2 ->
       read row2 key2 = read row1 key1 ->
       (forall j' y, (j' < j)%nat -> data2 !! j' = Some y ->
          read y key2 <> read row1 key1) ->
       exists r, joined !! i = Some r /\
         (forall k v, table2 +:+ "_" +:+ k <> "__proto__" ->
            row2 !! k = Some v ->
            r !! (table2 +:+ "_" +:+ k) = Some v) /\
         (forall k, table1 +:+ "_" +:+ k <> "__proto__" ->
            (forall k', table1 +:+ "_" +:+ k = table2 +:+ "_" +:+ k' ->
               row2 !! k' = None) ->
            r !! (table1 +:+ "_" +:+ k) = row1 !! k)) /\
    (forall missing other,
       rows_of s missing = None ->
       join missing other key1 key2 s = inl TablesNotFound /\
       join other missing key1 key2 s = inl TablesNotFound).
Proof.
  intros H1 H2. eexists. split.
  { unfold join. rewrite H1, H2. reflexivity. }
  unfold join_rows. split; [apply length_map|]. split; [|split].
  - intros i row1 Hi Hnone. rewrite list_lookup_fmap, Hi. cbn.
    destruct (List.find _ data2) as [m|] eqn:Hfind; [|done].
    apply find_some in Hfind as [Hin Hm].
    unfold strict_eq in Hm. apply bool_decide_eq_true in Hm.
    destruct (Hnone m); [by apply list_elem_of_In|done].
  - intros i row1 j row2 Hi Hj Hmatch Hfirst.
    rewrite list_lookup_fmap, Hi. cbn.
    rewrite (find_first _ data2 j row2 Hj).
    + eexists. split; [reflexivity|]. split.
      * intros k v Hk Hv.
        rewrite !lookup_union, own_proto_lookup, prefixed_lookup, Hv by done.
        destruct (prefixed table1 row1 !! _); reflexivity.
      * intros k Hk Hfree. rewrite !lookup_union, own_proto_lookup by done.
        rewrite (prefixed_lookup_None table2 row2) by exact Hfree.
        rewrite prefixed_lookup by done. destruct (row1 !! k); reflexivity.
    + unfold strict_eq. by apply bool_decide_eq_true_2.
    + intros j' y Hlt Hy. unfold strict_eq.
      apply bool_decide_eq_false_2. by apply (Hfirst j').
  - intros missing other Hmiss. unfold join. rewrite Hmiss.
    split; [done|]. by destruct (rows_of s other).
Qed.

(** *** Bulk inserts *)

Lemma next_id_is_safe
    (s : store) (tableName : string) (rows : list row) :
  rows_of s tableName = Some rows ->
  safe_ids rows ->
  _getNextId s tableName <= MAX_SAFE_INTEGER ->
  isSafeInteger (_getNextId s tableName) = true.
Proof.
  intros Hrows Hsafe Hle.
  destruct (VertexDBSpec._getNextId_spec s tableName rows Hrows Hsafe)
    as (Hempty & _ & Hex).
  apply JSFacts.isSafeInteger_spec. split; [|done].
  destruct (decide (rows = [])) as [-> | Hne].
  - rewrite Hempty by done. by vm_compute.
  - destruct (Hex Hne) as (r & Hr & ->).
    apply Hsafe, JSFacts.isSafeInteger_spec in Hr. lia.
Qed.

Lemma next_id_after_push
    (s s1 : store) (tableName : string) (rows : list row) (newData : row) :
  rows_of s tableName = Some rows ->
  rows_of s1 tableName = Some (rows ++ [newData]) ->
  safe_ids rows ->
  isSafeInteger (_getNextId s tableName) = true ->
  read newData "id" = number (_getNextId s tableName) ->
  safe_ids (rows ++ [newData]) /\
  _getNextId s1 tableName = _getNextId s tableName + 1.
Proof.
  intros Hrows Hrows1 Hsafe Hn Hid.
  assert (Hnew : id_number newData = _getNextId s tableName).
  { unfold id_number. by rewrite Hid, JSFacts.parseInt_number. }
  assert (Hsafe1 : safe_ids (rows ++ [newData])).
  { intros r Hr. apply elem_of_app in Hr as [Hr | Hr]; [by apply Hsafe|].
    apply list_elem_of_singleton in Hr as ->. by rewrite Hnew. }
  split; [done|].
  destruct (VertexDBSpec._getNextId_spec s tableName rows Hrows Hsafe)
    as (_ & Hlt & _).
  destruct (VertexDBSpec._getNextId_spec s1 tableName _ Hrows1 Hsafe1)
    as (_ & Hlt1 & Hex1).
  destruct Hex1 as (r & Hr & Hn1); [by destruct rows|].
  assert (Hgt : _getNextId s tableName < _getNextId s1 tableName).
  { rewrite <- Hnew. apply Hlt1. apply elem_of_app. right.
    apply list_elem_of_here. }
  apply elem_of_app in Hr as [Hr | Hr].
  - specialize (Hlt r Hr). lia.
  - apply list_elem_of_singleton in Hr as ->. lia.
Qed.

(** X20. [bulkInsert] of rows that all carry the AUTO_INCREMENT sentinel,
    into a table without triggers whose id numbers are safe integers,
    appends one row per element, in order, and numbers them consecutively
    from the table's next id, as long as the last of these numbers is a
    safe integer; the last-insert id is the id of the last element. *)
Theorem bulkInsert_numbers_consecutively
    (tableName : string) (l : nat) (dataArray : list row) :
  forall (s : store) (rows : list row),
  _tables s !! tableName = Some l ->
  heap s !! l = Some rows ->
  _triggers s !! tableName = None ->
  Forall (fun data => read data "id" = str "AUTO_INCREMENT") dataArray ->
  safe_ids rows ->
  _getNextId s tableName + Z.of_nat (List.length dataArray) - 1
  <= MAX_SAFE_INTEGER ->
  exists (s1 : store) (news : list row),
    bulkInsert tableName dataArray s = (s1, Ok tt) /\
    rows_of s1 tableName = Some (rows ++ news) /\
    List.length news = List.length dataArray /\
    (forall i r, news !! i = Some r ->
       read r "id" = number (_getNextId s tableName + Z.of_nat i)) /\
    (dataArray <> [] ->
     _lastInsertId s1
     = number (_getNextId s tableName
               + Z.of_nat (List.length dataArray) - 1)).
Proof.
  induction dataArray as [|data rest IH];
    intros s rows Htab Hl Htrig Hauto Hsafe Hbound.
  - exists s, []. rewrite app_nil_r. split; [done|].
    split; [unfold rows_of, deref; by rewrite Htab; cbn; rewrite Hl|].
    split; [done|]. split; [intros i r Hi; by destruct i|done].
  - apply Forall_cons in Hauto as [Hid Hauto].
    assert (Hrows : rows_of s tableName = Some rows).
    { unfold rows_of, deref. by rewrite Htab; cbn; rewrite Hl. }
    cbn [List.length] in Hbound.
    assert (Hn : isSafeInteger (_getNextId s tableName) = true).
    { apply (next_id_is_safe s tableName rows); [done|done|lia]. }
    destruct (VertexDBSpec.insert_spec clock s tableName l data Htab)
      as (newData & s0 & Hrun & Hnew & Hlast & Ht & Htr & _ & Hheap).
    unfold strict_eq in Hnew. rewrite bool_decide_eq_true_2 in Hnew by done.
    assert (Hgo : _trigger s tableName "insert" None (Some newData) = true).
    { unfold _trigger. unfold trigger in *. by rewrite Htrig. }
    rewrite Hgo in Hheap.
    assert (Hl0 : heap s0 !! l = Some (rows ++ [newData])).
    { by rewrite Hheap, list_lookup_alter_eq, Hl. }
    assert (Hrows0 : rows_of s0 tableName = Some (rows ++ [newData])).
    { unfold rows_of, deref. by rewrite Ht, Htab; cbn; rewrite Hl0. }
    destruct (next_id_after_push s s0 tableName rows newData
                Hrows Hrows0 Hsafe Hn Hnew) as [Hsafe0 Hnext].
    destruct (IH s0 (rows ++ [newData])) as (s1 & news & Hrest & Hr1 & Hlen
                                             & Hids & Hlastid);
      [by rewrite Ht|done|by rewrite Htr|done|done|lia|].
    exists s1, (newData :: news).
    split; [cbn [VertexDB.bulkInsert]; unfold bind; by rewrite Hrun|].
    split; [by rewrite Hr1, <- app_assoc|].
    split; [by cbn; rewrite Hlen|]. split.
    + intros [|i] r Hi; cbn in Hi.
      * injection Hi as <-. rewrite Hnew. f_equal. lia.
      * rewrite (Hids i r Hi), Hnext. f_equal. lia.
    + intros _. destruct rest as [|data' rest'].
      * cbn in Hrest. injection Hrest as <-.
        rewrite Hlast, Hnew. f_equal. cbn. lia.
      * rewrite Hlastid by done. rewrite Hnext. f_equal.
        cbn [List.length]. lia.
Qed.

(** *** Derived values *)

Lemma filter_filter_comm {A} (p q : A -> bool) (l : list A) :
  List.filter p (List.filter q l) = List.filter q (List.filter p l).
Proof.
  induction l as [|x l IH]; [done|]. cbn.
  destruct (q x) eqn:Hq, (p x) eqn:Hp; cbn; rewrite ?Hq, ?Hp, IH; done.
Qed.

Lemma filter_filter_absorb {A} (p q : A -> bool) (l : list A) :
  (forall x, q x = false -> p x = false) ->
  List.filter p (List.filter q l) = List.filter p l.
Proof.
  intros Hpq. induction l as [|x l IH]; [done|]. cbn.
  destruct (q x) eqn:Hq; cbn.
  - by rewrite IH.
  - by rewrite (Hpq x Hq), IH.
Qed.

Lemma first_occurrences_filter (p : value -> bool) (vs : list value) :
  first_occurrences (List.filter p vs)
  = List.filter p (first_occurrences vs).
Proof.
  induction vs as [|v vs IH]; [done|]. cbn.
  destruct (p v) eqn:Hp; cbn.
  - by rewrite IH, filter_filter_comm.
  - rewrite IH. symmetry. apply filter_filter_absorb.
    intros x Hx. apply negb_false_iff in Hx. unfold strict_eq in Hx.
    by apply bool_decide_eq_true in Hx as ->.
Qed.

Lemma first_occurrences_elem (vs : list value) (v : value) :
  v ∈ first_occurrences vs <-> v ∈ vs.
Proof.
  induction vs as [|x vs IH]; [done|]. cbn.
  rewrite !elem_of_cons, !list_elem_of_In, filter_In, <- !list_elem_of_In, IH.
  unfold strict_eq. split.
  - intros [-> | [Hin _]]; auto.
  - intros [-> | Hin]; [by left|].
    destruct (decide (v = x)) as [-> | Hne]; [by left|].
    right. split; [done|]. by rewrite bool_decide_eq_false_2.
Qed.

Lemma first_occurrences_NoDup (vs : list value) :
  NoDup (first_occurrences vs).
Proof.
  induction vs as [|x vs IH]; cbn; [apply NoDup_nil_2|].
  apply NoDup_cons. split.
  - rewrite list_elem_of_In, filter_In. intros [_ Hx].
    unfold strict_eq in Hx. by rewrite bool_decide_eq_true_2 in Hx.
  - apply NoDup_ListNoDup, List.NoDup_filter. by apply NoDup_ListNoDup.
Qed.

Lemma filter_is_sublist {A} (p : A -> bool) (l : list A) :
  sublist (List.filter p l) l.
Proof.
  induction l as [|y l IHl]; cbn; [done|].
  destruct (p y); [by apply sublist_skip|by apply sublist_cons].
Qed.

Lemma first_occurrences_sublist (vs : list value) :
  sublist (first_occurrences vs) vs.
Proof.
  induction vs as [|x vs IH]; cbn; [done|].
  apply sublist_skip. etrans; [apply filter_is_sublist|exact IH].
Qed.

Lemma filter_new_value (seen vs : list value) (v : value) :
  List.filter (fun x => negb (array_includes (seen ++ [v]) x)) vs
  = List.filter (fun x => negb (strict_eq x v))
      (List.filter (fun x => negb (array_includes seen x)) vs).
Proof.
  induction vs as [|x vs IHvs]; [done|]. cbn.
  unfold array_includes in *. rewrite existsb_app. cbn.
  rewrite orb_false_r, negb_orb.
  destruct (existsb (strict_eq x) seen); cbn;
    [|destruct (strict_eq x v); cbn]; by rewrite IHvs.
Qed.

Lemma set_values_fold (vs : list value) :
  forall seen : list value,
    fold_left
      (fun seen v => if array_includes seen v then seen else seen ++ [v])
      vs seen
    = seen ++ first_occurrences
                (List.filter (fun x => negb (array_includes seen x)) vs).
Proof.
  induction vs as [|v vs IH]; intros seen; cbn; [by rewrite app_nil_r|].
  destruct (array_includes seen v) eqn:Hin; cbn; [apply IH|].
  rewrite IH, <- app_assoc. cbn. do 2 f_equal.
  rewrite <- first_occurrences_filter. f_equal. apply filter_new_value.
Qed.


Lemma append_empty (x : string) : x +:+ "" = x.
Proof.
  induction x as [|a x IH]; [done|].
  change (String a x +:+ "") with (String a (x +:+ "")). by rewrite IH.
Qed.

Lemma append_append (x y z : string) : (x +:+ y) +:+ z = x +:+ y +:+ z.
Proof.
  induction x as [|a x IH]; [done|].
  change (String a (x +:+ y) +:+ z = String a (x +:+ y +:+ z)).
  change (String a ((x +:+ y) +:+ z) = String a (x +:+ y +:+ z)).
  by rewrite IH.
Qed.

Lemma column_magnitude_nonneg (column : string) (rows : list row) :
  0 <= column_magnitude column rows.
Proof.
  unfold column_magnitude. induction rows as [|r rows IH]; cbn; lia.
Qed.

Lemma sum_fold_numbers (column : string) (results : list row) :
  forall a : Z,
    Forall (fun r => ~ nonempty_string (read r column)) results ->
    Z.abs a + column_magnitude column results <= 2 ^ 53 ->
    fold_left (fun sum r => add sum (or_zero (read r column)))
      results (number a)
    = number (a + column_total column results).
Proof.
  unfold column_magnitude, column_total.
  induction results as [|r results IH]; intros a Hall Hbound;
    cbn [fold_left map foldr] in *.
  - f_equal. lia.
  - apply Forall_cons in Hall as [Hr Hall].
    pose proof (column_magnitude_nonneg column results) as Hpos.
    unfold column_magnitude in Hpos.
    assert (Hstep : add (number a) (or_zero (read r column))
                    = number (a + numeric_value (read r column))).
    { assert (Hexact : number_add a (numeric_value (read r column))
                       = a + numeric_value (read r column)).
      { apply JSFacts.round_double_exact. lia. }
      unfold or_zero. destruct (read r column) as [| |[|]|n|x] eqn:Hv;
        cbn in *; try (by rewrite Hexact).
      - destruct (n =? 0) eqn:Hn; cbn; [|by rewrite Hexact].
        apply Z.eqb_eq in Hn as ->. by rewrite Hexact.
      - destruct (String.eqb x "") eqn:Hx; cbn; [by rewrite Hexact|].
        exfalso. apply Hr. exists x. split; [done|].
        intros ->. by rewrite String.eqb_refl in Hx. }
    rewrite Hstep, IH by (done || lia). f_equal. lia.
Qed.

Lemma sum_fold_text (column : string) (results : list row) :
  forall x : string,
    exists rest : string,
      fold_left (fun sum r => add sum (or_zero (read r column)))
        results (str x)
      = str (x +:+ rest).
Proof.
  induction results as [|r results IH]; intros x; cbn [fold_left].
  - exists "". by rewrite append_empty.
  - cbn [add]. destruct (IH (x +:+ ToString (or_zero (read r column))))
      as (rest & ->).
    eexists. by rewrite append_append.
Qed.

(** X22. For a column name that is not inherited, [sum] adds the column
    over the rows that [get] returns, counting a number as itself, [true]
    as 1 and a missing or other falsy value as 0, as long as no value is a
    non-empty string and the absolute values add up to a safe integer (so
    that no sum on the way is rounded); from the first non-empty string on
    it concatenates, and the result is a string that starts with the total
    so far followed by that string. *)
Theorem sum_adds_until_a_string
    (s s1 : store) (tableName column : string) (results : list row) :
  inherited column = false ->
  get tableName s = (s1, Ok results) ->
  (Forall (fun r => ~ nonempty_string (read r column)) results ->
   column_magnitude column results <= MAX_SAFE_INTEGER ->
   sum tableName column s
   = (s1, Ok (number (column_total column results)))) /\
  (forall before r after x,
     results = before ++ r :: after ->
     Forall (fun r => ~ nonempty_string (read r column)) before ->
     column_magnitude column before <= MAX_SAFE_INTEGER ->
     read r column = str x -> x <> "" ->
     exists rest : string,
       sum tableName column s
       = (s1, Ok (str (ToString (number (column_total column before))
                       +:+ x +:+ rest)))).
Proof.
  intros _ Hget.
  assert (Hmax : MAX_SAFE_INTEGER <= 2 ^ 53) by (by vm_compute).
  split.
  - intros Hall Hbound. unfold VertexDBMore.sum, bind. rewrite Hget. cbn [ret].
    rewrite sum_fold_numbers by (done || cbn [Z.abs]; lia). done.
  - intros before r after x -> Hall Hbound Hx Hne.
    unfold VertexDBMore.sum, bind. rewrite Hget. cbn [ret].
    rewrite fold_left_app, sum_fold_numbers by (done || cbn [Z.abs]; lia).
    cbn [fold_left].
    assert (Hz : or_zero (read r column) = str x).
    { unfold or_zero. rewrite Hx. cbn.
      destruct (String.eqb x "") eqn:E; [|done].
      by apply String.eqb_eq in E. }
    rewrite Hz. cbn [add Z.add].
    destruct (sum_fold_text column after
                (ToString (number (column_total column before)) +:+ x))
      as (rest & Hrest).
    exists rest. rewrite Z.add_0_l, Hrest. by rewrite append_append.
Qed.

(** *** Truncation *)

(** X23. [truncate] on an existing table empties it without consulting
    the delete triggers or the soft-delete setting: the table reads as an
    empty array, its next automatic id is 1 again while the last-insert id
    stays, the rows move nowhere (arrays handed out earlier are unchanged),
    and triggers, schemas, pending conditions and the other tables are
    kept. *)
Theorem truncate_empties_and_restarts_ids
    (s : store) (tableName : string) (l : nat) :
  _tables s !! tableName = Some l ->
  well_formed s ->
  exists s1 : store,
    truncate tableName s = (s1, Ok tt) /\
    rows_of s1 tableName = Some [] /\
    _getNextId s1 tableName = 1 /\
    _lastInsertId s1 = _lastInsertId s /\
    heap s `prefix_of` heap s1 /\
    _triggers s1 = _triggers s /\
    _schemas s1 = _schemas s /\
    _whereConditions s1 = _whereConditions s /\
    (forall other, other <> tableName ->
       rows_of s1 other = rows_of s other).
Proof.
  intros Htab Hwf.
  destruct (set_new_array_spec s tableName [])
    as (s1 & Hrun & Hheap & Htables & Hrows & Hothers).
  exists s1. split; [unfold truncate; by rewrite Htab|].
  split; [done|]. split; [unfold _getNextId; by rewrite Hrows|].
  unfold set_new_array in Hrun. injection Hrun as <-. cbn.
  split; [done|]. split; [by eexists|]. do 3 (split; [done|]).
  intros other Hne.
  destruct (_tables s !! other) as [l'|] eqn:Hother.
  - by apply (Hothers other l' Hne Hother), Hwf with other.
  - unfold rows_of. cbn. by rewrite lookup_insert_ne, Hother.
Qed.

(** *** Conditions that cannot be evaluated *)

(** X24. A pending LIKE condition whose value is not a string, or IN
    condition whose value is neither an array nor a string, in first
    position, makes every read of a table with a live row raise a
    TypeError; the read leaves the store as it was, so the condition is
    still pending and the next read of such a table raises again. *)
Theorem ill_typed_condition_raises_and_stays
    (s : store) (tableName field operator : string) (l : nat)
    (v : operand) (rest : list Condition.t) :
  _tables s !! tableName = Some l ->
  _whereConditions s = Condition.Make field operator v :: rest ->
  (operator = "LIKE" /\ (forall p, v <> Prim (str p))) \/
  (operator = "IN" /\ exists p, v = Prim p /\ forall x, p <> str x) ->
  live_rows s (deref s l) <> [] ->
  get tableName s = (s, Throw TypeError) /\
  getOne tableName s = (s, Throw TypeError) /\
  count tableName s = (s, Throw TypeError) /\
  exists_ tableName s = (s, Throw TypeError) /\
  get tableName (get tableName s).1 = (s, Throw TypeError).
Proof.
  intros Htab Hw Hbad Hlive.
  assert (Hget : get tableName s = (s, Throw TypeError)).
  { unfold VertexDB.get. rewrite Htab. fold (live_rows s (deref s l)).
    destruct (live_rows s (deref s l)) as [|r live]; [done|].
    unfold VertexDB._applyConditions. rewrite Hw.
    cbn [List.length Nat.ltb Nat.leb filter_rows where_accepts every].
    assert (He : eval_condition r (Condition.Make field operator v)
                 = Throw TypeError).
    { destruct Hbad as [[-> Hv] | [-> (p & -> & Hp)]].
      - unfold eval_condition. cbn.
        destruct v as [[| | | |p]|vs]; try done. by destruct (Hv p).
      - unfold eval_condition. cbn.
        destruct p as [| | | |x]; try done. by destruct (Hp x). }
    by rewrite He. }
  split; [done|].
  split; [unfold VertexDB.getOne, bind; by rewrite Hget|].
  split; [unfold VertexDB.count, bind; by rewrite Hget|].
  split; [unfold VertexDB.exists_, VertexDB.count, bind; by rewrite Hget|].
  by rewrite Hget.
Qed.

(** *** Registering triggers *)

(** X25. On an existing table [createTrigger] registers a trigger under a
    name that is free there: from then on a mutation of the table is kept
    exactly when it was kept before and the new trigger does not return
    [false], and other tables are unaffected. Under a name that is taken
    it raises TriggerAlreadyExists and the store, with the trigger first
    registered under that name, stays as it was. *)
Theorem createTrigger_adds_one_veto
    (s : store) (tableName triggerName : string) (t : trigger) (l : nat) :
  _tables s !! tableName = Some l ->
  let taken :=
    existsb (fun '(n, _) => String.eqb n triggerName)
      (default [] (_triggers s !! tableName)) in
  (taken = false ->
   exists s1 : store,
     createTrigger tableName triggerName t s = (s1, Ok tt) /\
     has_trigger s1 tableName triggerName /\
     (forall operation OLD NEW,
        _trigger s1 tableName operation OLD NEW
        = match t (TriggerEvent operation OLD NEW) with
          | ReturnsFalse => false
          | _ => _trigger s tableName operation OLD NEW
          end) /\
     (forall other, other <> tableName ->
        _triggers s1 !! other = _triggers s !! other) /\
     table_rows s1 = table_rows s) /\
  (taken = true ->
   createTrigger tableName triggerName t s
   = (s, Throw (TriggerAlreadyExists triggerName))).
Proof.
  intros Htab taken. subst taken. unfold VertexDB.createTrigger.
  rewrite Htab. split; intros Htaken; unfold trigger in *; rewrite Htaken.
  - eexists. split; [reflexivity|]. cbn. split; [|split; [|split]].
    + exists (default [] (_triggers s !! tableName) ++ [(triggerName, t)]), t.
      split; [apply lookup_insert_eq|]. apply elem_of_app. right.
      apply list_elem_of_here.
    + intros operation OLD NEW. unfold _trigger. cbn. unfold trigger.
      rewrite lookup_insert_eq.
      change (default [] (Some ?x)) with x.
      rewrite fold_left_app. cbn [fold_left].
      by destruct (t (TriggerEvent operation OLD NEW)).
    + intros other Hne. by rewrite lookup_insert_ne.
    + done.
  - f_equal.
    destruct (_triggers s !! tableName) as [triggers|] eqn:Htr.
    all: unfold trigger in *.
    2: { rewrite Htr in Htaken. discriminate Htaken. }
    rewrite Htr. change (default [] (Some triggers)) with triggers.
    rewrite insert_id by done. by destruct s.
Qed.

End Properties.

(* --------------------------------------------------------------------- *)
(** ** The properties on concrete stores *)
(* --------------------------------------------------------------------- *)

Section Cases.
Import Scenario MoreScenario.

Local Abbreviation get := (VertexDB.get array_sort).
Local Abbreviation count := (VertexDB.count array_sort).
Local Abbreviation exists_ := (VertexDB.exists_ array_sort).
Local Abbreviation insert := (VertexDB.insert clock).
Local Abbreviation bulkInsert := (VertexDB.bulkInsert clock).
Local Abbreviation update := (VertexDB.update clock).
Local Abbreviation delete := (VertexDB.delete clock).
Local Abbreviation setTable := (VertexDB.setTable clock).
Local Abbreviation transaction := (VertexDB.transaction clock).
Local Abbreviation backup := (VertexDB.backup clock).
Local Abbreviation distinct := (VertexDBMore.distinct array_sort).
Local Abbreviation sum := (VertexDBMore.sum array_sort).
Local Abbreviation paginate := (VertexDBMore.paginate array_sort).
Local Abbreviation getStats := (VertexDBMore.getStats clock).

Lemma well_formed_one_table
    (s : store) (tableName : string) (l : nat) (rows : list row) :
  _tables s = {[ tableName := l ]} -> heap s !! l = Some rows ->
  well_formed s.
Proof.
  intros Ht Hl t l' H. rewrite Ht in H.
  apply lookup_singleton_Some in H as [_ <-]. by eexists.
Qed.

Lemma well_formed_users_empty : well_formed users_empty.
Proof. by apply (well_formed_one_table _ "users" 0%nat []). Qed.

Lemma well_formed_three_users : well_formed three_users.
Proof.
  by apply (well_formed_one_table _ "users" 0%nat [jane; john; june]).
Qed.

(** X1, on a store that has [users] only. *)
Lemma createTable_fresh_then_taken_witness :
  _tables users_empty !! "orders" = None /\
  well_formed users_empty /\
  exists s1 : store,
    createTable "orders" None users_empty = (s1, Ok tt) /\
    rows_of s1 "orders" = Some [] /\
    createTable "orders" (Some required_name) s1
    = (s1, Throw (TableAlreadyExists "orders")).
Proof.
  pose proof (createTable_fresh_then_taken users_empty "orders" None
                eq_refl well_formed_users_empty)
    as (s1 & Hrun & Hrows & _ & _ & Htaken & _).
  split; [reflexivity|]. split; [exact well_formed_users_empty|].
  exists s1. split; [exact Hrun|]. split; [exact Hrows|]. apply Htaken.
Defined.

(** X3, on [users] with the triggers [audit] and [deny]. *)
Lemma dropTrigger_drops_all_witness :
  has_trigger two_triggers "users" "audit" /\
  exists s1 : store,
    dropTrigger "users" "audit" two_triggers = (s1, inr tt) /\
    dropTrigger "users" "deny" s1
    = (s1, inl (TriggerNotFound "users" "deny")).
Proof.
  assert (Hhas : has_trigger two_triggers "users" "audit").
  { exists [("audit", allow_all); ("deny", veto_all)], allow_all.
    split; [reflexivity|]. apply list_elem_of_here. }
  pose proof (dropTrigger_drops_all two_triggers "users" "audit" Hhas)
    as (s1 & Hrun & _ & _ & Hgone & _).
  split; [exact Hhas|]. exists s1. split; [exact Hrun|]. apply Hgone.
Defined.

(** X4, on a row without the typed field [name]. *)
Lemma typed_field_is_mandatory_witness :
  let r := obj [("id", number 1)] in
  let rules := Rule.Make false (Some "string") None None None None in
  inherited "name" = false /\
  read r "name" = undefined /\
  check_rules r "name" rules
  = Throw (SchemaValidationError "name" (MustBeOfType "string")) /\
  exists e, _validateSchema [r] [("name", rules)] = Throw e.
Proof.
  cbv zeta.
  pose proof (typed_field_is_mandatory (obj [("id", number 1)]) "name"
                "string" (Rule.Make false (Some "string") None None None None)
                [obj [("id", number 1)]]
                [("name",
                  Rule.Make false (Some "string") None None None None)]
                eq_refl eq_refl ltac:(discriminate) ltac:(discriminate)
                eq_refl (list_elem_of_here _ _) (list_elem_of_here _ _))
    as (Hrule & Hall).
  split; [reflexivity|]. split; [reflexivity|].
  split; [exact Hrule|exact Hall].
Defined.

(** X6, on three users. *)
Lemma writes_ignore_search_order_limit_witness :
  _tables three_users !! "users" = Some 0%nat /\
  delete "users"
    (set_limit (Some 1) 0
       (set_orderBy (Some ("age", "ASC"))
          (set_searchConditions [("name", str "jo")] three_users)))
  = delete "users" three_users.
Proof.
  pose proof (writes_ignore_search_order_limit clock three_users "users"
                0%nat ∅ [("name", str "jo")] (Some ("age", "ASC"))
                (Some 1) 0 eq_refl) as (_ & Hdel).
  split; [reflexivity|exact Hdel].
Defined.

Lemma well_formed_janes : well_formed janes.
Proof.
  by apply (well_formed_one_table _ "users" 0%nat [jane; john; june]).
Qed.

(** X7, on three users under [where('name', 'Jane')]: the second row is
    kept, the first is merged with the data. *)
Lemma update_merges_in_place_witness :
  _tables janes !! "users" = Some 0%nat /\
  heap janes !! 0%nat = Some [jane; john; june] /\
  well_formed janes /\
  exists (s1 : store) (rows1 : list row),
    update "users" (obj [("age", number 40)]) janes = (s1, Ok tt) /\
    rows_of s1 "users" = Some rows1 /\
    rows1 !! 1%nat = Some john /\
    no_pending s1.
Proof.
  pose proof (update_merges_in_place clock janes "users" 0%nat
                [jane; john; june] (obj [("age", number 40)])
                eq_refl eq_refl well_formed_janes)
    as (s1 & rows1 & Hrun & Hrows & _ & Hkeep & _ & _ & Hreset).
  split; [reflexivity|]. split; [reflexivity|].
  split; [exact well_formed_janes|].
  exists s1, rows1. split; [exact Hrun|]. split; [exact Hrows|].
  split; [|exact Hreset]. by apply (Hkeep 1%nat john).
Defined.

(** X8, on three users under [where('name', 'Jane')]. *)
Lemma hard_delete_removes_matching_witness :
  _softDelete janes = false /\
  _tables janes !! "users" = Some 0%nat /\
  heap janes !! 0%nat = Some [jane; john; june] /\
  well_formed janes /\
  exists s1 : store,
    delete "users" janes = (s1, Ok tt) /\
    rows_of s1 "users" = Some [john] /\
    get "users" s1 = (s1, Ok [john]).
Proof.
  pose proof (hard_delete_removes_matching clock array_sort janes "users"
                0%nat [jane; john; june] eq_refl eq_refl eq_refl
                well_formed_janes)
    as (s1 & Hrun & Hrows & Hget & _).
  split; [reflexivity|]. split; [reflexivity|]. split; [reflexivity|].
  split; [exact well_formed_janes|].
  exists s1. split; [exact Hrun|]. split; [exact Hrows|exact Hget].
Defined.

(** X9: three users are backed up, all are deleted, the backup is
    restored. *)
Lemma restore_recovers_snapshot_witness :
  let s1 := exec (delete "users") three_users in
  well_formed three_users /\
  _tables three_users !! "__proto__" = None /\
  heap three_users `prefix_of` heap s1 /\
  rows_of s1 "users" = Some [] /\
  exists (b : snapshot) (s0' s2 : store),
    backup three_users = (s0', Ok b) /\
    restore b s1 = (s2, Ok tt) /\
    table_rows s2 = table_rows three_users.
Proof.
  cbv zeta.
  assert (Hprefix : heap three_users
                    `prefix_of` heap (exec (delete "users") three_users)).
  { by exists [[]]. }
  pose proof (restore_recovers_snapshot clock three_users
                (exec (delete "users") three_users)
                well_formed_three_users eq_refl Hprefix)
    as (b & s0' & s2 & Hbackup & _ & Hrestore & Hrows & _).
  split; [exact well_formed_three_users|]. split; [reflexivity|].
  split; [exact Hprefix|]. split; [reflexivity|].
  exists b, s0', s2. split; [exact Hbackup|].
  split; [exact Hrestore|exact Hrows].
Defined.

Lemma rewrite_then_fail_adds_arrays_only : adds_arrays_only rewrite_then_fail.
Proof.
  destruct (rewrites_add_arrays_only clock array_sort)
    as (Hupdate & _ & _ & _ & _ & _ & _ & _ & _ & Hthrow).
  apply adds_arrays_only_bind; [apply Hupdate|intros _; apply Hthrow].
Qed.

(** X10, on three users and a callback that updates all of them and then
    fails. *)
Lemma transaction_rolls_back_rewrites_witness :
  well_formed three_users /\
  _tables three_users !! "__proto__" = None /\
  adds_arrays_only rewrite_then_fail /\
  (rewrite_then_fail (backup three_users).1).2 = Throw (Raised "boom") /\
  exists s1 : store,
    transaction rewrite_then_fail three_users = (s1, Throw (Raised "boom")) /\
    table_rows s1 = table_rows three_users.
Proof.
  pose proof (transaction_rolls_back_rewrites clock three_users
                rewrite_then_fail (Raised "boom")
                well_formed_three_users eq_refl
                rewrite_then_fail_adds_arrays_only eq_refl)
    as (s1 & Hrun & Hrows).
  split; [exact well_formed_three_users|]. split; [reflexivity|].
  split; [exact rewrite_then_fail_adds_arrays_only|].
  split; [reflexivity|].
  exists s1. split; [exact Hrun|exact Hrows].
Defined.

(** X11, on three users. *)
Lemma dropTable_removes_everything_witness :
  let d := Database three_users None in
  _tables (core d) !! "users" = Some 0%nat /\
  well_formed (core d) /\
  _tables (core d) !! "__proto__" = None /\
  exists d1 : database,
    dropTable "users" d = (d1, Ok tt) /\
    rows_of (core d1) "users" = None /\
    dropTable "users" d1 = (d1, Throw (TableNotFound "users")).
Proof.
  cbv zeta.
  pose proof (dropTable_removes_everything clock array_sort
                (Database three_users None) "users" 0%nat
                eq_refl well_formed_three_users eq_refl)
    as (d1 & Hrun & Hrows & _ & _ & _ & _ & _ & _ & Hagain & _).
  split; [reflexivity|]. split; [exact well_formed_three_users|].
  split; [reflexivity|].
  exists d1. split; [exact Hrun|]. split; [exact Hrows|exact Hagain].
Defined.

(** X12, on three users and a column they do not have. *)
Lemma addColumn_then_dropColumn_witness :
  _tables three_users !! "users" = Some 0%nat /\
  heap three_users !! 0%nat = Some [jane; john; june] /\
  exists s1 s2 : store,
    addColumn "users" "active" undefined three_users = (s1, Ok tt) /\
    (forall r, r ∈ default [] (rows_of s1 "users") ->
       read r "active" = null) /\
    dropColumn "users" "active" s1 = (s2, Ok tt) /\
    rows_of s2 "users" = Some [jane; john; june].
Proof.
  pose proof (addColumn_then_dropColumn three_users "users" "active" 0%nat
                [jane; john; june] undefined eq_refl eq_refl)
    as (s1 & s2 & Hadd & _ & Hread & Hdrop & _ & _ & Hback & _).
  split; [reflexivity|]. split; [reflexivity|].
  exists s1, s2. split; [exact Hadd|].
  split; [intros r Hr; apply (Hread r Hr)|]. split; [exact Hdrop|].
  apply Hback. by repeat constructor.
Defined.

(** X13: the array of [users] is also registered as [people]; an insert
    into [people] shows in that array. *)
Lemma setTable_adopts_the_array_witness :
  let row9 := obj [("id", number 9)] in
  heap three_users !! 0%nat = Some [jane; john; june] /\
  _timestamps three_users = false /\
  exists s1 : store,
    setTable "people" (Some 0%nat) None three_users = (s1, Ok tt) /\
    rows_of s1 "people" = Some [jane; john; june] /\
    heap (insert "people" row9 s1).1 !! 0%nat
    = Some [jane; john; june; row9].
Proof.
  cbv zeta.
  pose proof (setTable_adopts_the_array clock three_users "people" 0%nat
                [jane; john; june] None (obj [("id", number 9)])
                eq_refl eq_refl
                (fun x (H : None = Some x) =>
                   False_ind _ (eq_ind None
                     (fun o => match o with None => True | Some _ => False end)
                     I _ H)))
    as (s1 & Hrun & _ & Hrows & _ & _ & Hinsert & _).
  split; [reflexivity|]. split; [reflexivity|].
  exists s1. split; [exact Hrun|]. split; [exact Hrows|].
  apply Hinsert.
  - unfold vetoed. by vm_compute.
  - discriminate.
Defined.

(** X14, on three users under [limit(2, 1)]. *)
Lemma get_returns_the_page_witness :
  _tables second_and_third !! "users" = Some 0%nat /\
  _limit second_and_third = Some 2 /\
  _offset second_and_third = 1 /\
  get "users" second_and_third
  = (_resetConditions second_and_third, Ok [john; june]) /\
  (get "users" ;; get "users") second_and_third
  = (_resetConditions second_and_third, Ok [jane; john; june]).
Proof.
  pose proof (get_returns_the_page array_sort second_and_third "users"
                0%nat 2 1 eq_refl eq_refl eq_refl eq_refl eq_refl eq_refl
                ltac:(lia) ltac:(lia))
    as (Hget & _ & _ & Htwice).
  split; [reflexivity|]. split; [reflexivity|]. split; [reflexivity|].
  split; [exact Hget|exact Htwice].
Defined.

(** X15, on three users under [where('name', 'Jane')], second page of
    one: the total is 2, the page is the second of all three users. *)
Lemma paginate_counts_filtered_reads_all_witness :
  _tables janes !! "users" = Some 0%nat /\
  _applyConditions array_sort janes (live_rows janes (deref janes 0%nat))
  = Ok [jane; june] /\
  exists p : page_result,
    paginate "users" 2 1 janes = (_resetConditions janes, Ok p) /\
    page_data p = [john] /\
    total p = 2%nat /\
    hasNextPage p = false.
Proof.
  pose proof (paginate_counts_filtered_reads_all array_sort janes "users"
                0%nat [jane; june] 2 1 eq_refl eq_refl
                ltac:(lia) ltac:(lia))
    as (pages & p & Hrun & Hdata & Htotal & _ & _ & Hnext & _).
  split; [reflexivity|]. split; [reflexivity|].
  exists p. split; [exact Hrun|]. split; [exact Hdata|].
  split; [exact Htotal|exact Hnext].
Defined.

(** X16, on a table that was just created. *)
Lemma exists_means_has_live_rows_witness :
  _tables users_empty !! "users" = Some 0%nat /\
  (forall cmp, array_sort cmp [] = []) /\
  exists_ "users" users_empty = (_resetConditions users_empty, Ok false).
Proof.
  pose proof (exists_means_has_live_rows array_sort users_empty "users"
                0%nat eq_refl (fun cmp => eq_refl))
    as (Hnone & _).
  split; [reflexivity|]. split; [intros cmp; reflexivity|].
  by apply Hnone.
Defined.

(** X17, on three users with soft deletion on. *)
Lemma raw_and_stats_see_deleted_rows_witness :
  _softDelete soft_users = true /\
  _tables soft_users !! "users" = Some 0%nat /\
  heap soft_users !! 0%nat = Some [jane; john; june] /\
  _whereConditions soft_users = [] /\
  _triggers soft_users !! "users" = None /\
  exists (s1 : store) (rows1 : list row) (st : stats) (d2 : database),
    delete "users" soft_users = (s1, Ok tt) /\
    List.length rows1 = 3%nat /\
    count "users" s1 = (s1, Ok 0%nat) /\
    raw "users" (fun _ => true) s1 = (s1, Ok rows1) /\
    getStats (Database s1 None) = (d2, st) /\
    fst <$> stats_tables st !! "users" = Some 3%nat.
Proof.
  pose proof (raw_and_stats_see_deleted_rows clock array_sort soft_users
                "users" 0%nat [jane; john; june] None
                eq_refl eq_refl eq_refl ltac:(discriminate) eq_refl eq_refl
                VertexDBSpec.clock_nonempty)
    as (s1 & rows1 & st & d2 & Hrun & Hlen & Hcount & Hraw & Hstats & Hn & _).
  do 5 (split; [reflexivity|]).
  exists s1, rows1, st, d2. split; [exact Hrun|]. split; [exact Hlen|].
  split; [exact Hcount|]. split; [exact Hraw|]. split; [exact Hstats|].
  exact Hn.
Defined.

(** X18, on three users indexed by name. *)
Lemma createIndex_groups_rows_witness :
  let d := Database three_users None in
  _tables (core d) !! "users" = Some 0%nat /\
  heap (core d) !! 0%nat = Some [jane; john; june] /\
  exists (d1 : database) (idx : table_index),
    createIndex "users" ["name"] d = (d1, Ok tt) /\
    ("users:name", idx) ∈ default [] (_indexes d1) /\
    idx !! index_key ["name"] jane = Some [jane; june].
Proof.
  cbv zeta.
  pose proof (createIndex_groups_rows (Database three_users None) "users"
                0%nat [jane; john; june] ["name"] eq_refl eq_refl)
    as (d1 & idx & Hrun & _ & Hin & Hgroups & _).
  split; [reflexivity|]. split; [reflexivity|].
  exists d1, idx. split; [exact Hrun|]. split; [exact Hin|].
  rewrite Hgroups. reflexivity.
Defined.

(** X19, on three users and two orders of the first: the first user is
    joined with the first of its orders, the second is returned as it
    is. *)
Lemma join_prefixes_first_match_witness :
  rows_of shop "users" = Some [jane; john; june] /\
  rows_of shop "orders" = Some [order1; order2] /\
  exists joined : list row,
    join "users" "orders" "id" "user_id" shop = inr joined /\
    List.length joined = 3%nat /\
    joined !! 1%nat = Some john /\
    exists r, joined !! 0%nat = Some r /\
      r !! "orders_total" = Some (number 30).
Proof.
  pose proof (join_prefixes_first_match shop "users" "orders" "id" "user_id"
                [jane; john; june] [order1; order2] eq_refl eq_refl)
    as (joined & Hrun & Hlen & Hnone & Hsome & _).
  split; [reflexivity|]. split; [reflexivity|].
  exists joined. split; [exact Hrun|]. split; [exact Hlen|]. split.
  - apply Hnone; [reflexivity|].
    intros row2 Hin.
    apply elem_of_cons in Hin as [-> | Hin]; [by vm_compute|].
    apply list_elem_of_singleton in Hin as ->. by vm_compute.
  - destruct (Hsome 0%nat jane 0%nat order1 eq_refl eq_refl eq_refl)
      as (r & Hr & Hfields & _).
    { intros j' y Hlt. lia. }
    exists r. split; [exact Hr|].
    apply (Hfields "total" (number 30)); [discriminate|reflexivity].
Defined.

(** X20, on three users and two rows with the sentinel id. *)
Lemma bulkInsert_numbers_consecutively_witness :
  _tables three_users !! "users" = Some 0%nat /\
  heap three_users !! 0%nat = Some [jane; john; june] /\
  _triggers three_users !! "users" = None /\
  safe_ids [jane; john; june] /\
  _getNextId three_users "users" = 4 /\
  exists (s1 : store) (news : list row),
    bulkInsert "users" [auto "Ann"; auto "Bob"] three_users = (s1, Ok tt) /\
    rows_of s1 "users" = Some ([jane; john; june] ++ news) /\
    (forall r, news !! 1%nat = Some r -> read r "id" = number 5) /\
    _lastInsertId s1 = number 5.
Proof.
  assert (Hsafe : safe_ids [jane; john; june])
    by exact (VertexDBSpec.safe_ids_checked [jane; john; june] eq_refl).
  pose proof (bulkInsert_numbers_consecutively clock "users" 0%nat
                [auto "Ann"; auto "Bob"] three_users [jane; john; june]
                eq_refl eq_refl eq_refl
                ltac:(repeat constructor) Hsafe
                ltac:(vm_compute; discriminate))
    as (s1 & news & Hrun & Hrows & _ & Hids & Hlast).
  do 3 (split; [reflexivity|]). split; [exact Hsafe|].
  split; [reflexivity|].
  exists s1, news. split; [exact Hrun|]. split; [exact Hrows|].
  split; [intros r Hr; exact (Hids 1%nat r Hr)|].
  apply Hlast. discriminate.
Defined.


(** X22, on the ages of three users. *)
Lemma sum_adds_until_a_string_witness :
  inherited "age" = false /\
  get "users" three_users
  = (_resetConditions three_users, Ok [jane; john; june]) /\
  column_magnitude "age" [jane; john; june] = 81 /\
  sum "users" "age" three_users
  = (_resetConditions three_users, Ok (number 81)).
Proof.
  pose proof (sum_adds_until_a_string array_sort three_users
                (_resetConditions three_users) "users" "age"
                [jane; john; june] eq_refl eq_refl)
    as (Hnumbers & _).
  split; [reflexivity|]. split; [reflexivity|]. split; [reflexivity|].
  apply Hnumbers.
  - repeat constructor; intros (x & Hx & _); vm_compute in Hx; discriminate.
  - vm_compute. discriminate.
Defined.

(** X23, on three users. *)
Lemma truncate_empties_and_restarts_ids_witness :
  _tables three_users !! "users" = Some 0%nat /\
  well_formed three_users /\
  _getNextId three_users "users" = 4 /\
  exists s1 : store,
    truncate "users" three_users = (s1, Ok tt) /\
    rows_of s1 "users" = Some [] /\
    _getNextId s1 "users" = 1 /\
    _lastInsertId s1 = _lastInsertId three_users.
Proof.
  pose proof (truncate_empties_and_restarts_ids three_users "users" 0%nat
                eq_refl well_formed_three_users)
    as (s1 & Hrun & Hrows & Hnext & Hlast & _).
  split; [reflexivity|]. split; [exact well_formed_three_users|].
  split; [reflexivity|].
  exists s1. split; [exact Hrun|]. split; [exact Hrows|].
  split; [exact Hnext|exact Hlast].
Defined.

(** X24, on three users under [where('name', 'LIKE', 5)]. *)
Lemma ill_typed_condition_raises_and_stays_witness :
  _tables like_five !! "users" = Some 0%nat /\
  _whereConditions like_five
  = [Condition.Make "name" "LIKE" (Prim (number 5))] /\
  live_rows like_five (deref like_five 0%nat) <> [] /\
  get "users" like_five = (like_five, Throw TypeError) /\
  count "users" like_five = (like_five, Throw TypeError).
Proof.
  assert (Hlive : live_rows like_five (deref like_five 0%nat) <> []).
  { intros H. vm_compute in H. discriminate H. }
  assert (Hvalue : forall p, Prim (number 5) <> Prim (str p)).
  { intros p H. discriminate H. }
  pose proof (ill_typed_condition_raises_and_stays array_sort like_five
                "users" "name" "LIKE" 0%nat (Prim (number 5)) []
                eq_refl eq_refl (or_introl (conj eq_refl Hvalue)) Hlive)
    as (Hget & _ & Hcount & _).
  split; [reflexivity|]. split; [reflexivity|]. split; [exact Hlive|].
  split; [exact Hget|exact Hcount].
Defined.

(** X25, on [users] with the vetoing trigger [deny]: registering [audit]
    changes no verdict, registering [deny] again fails. *)
Lemma createTrigger_adds_one_veto_witness :
  _tables guarded_users !! "users" = Some 0%nat /\
  (exists s1 : store,
     createTrigger "users" "audit" allow_all guarded_users = (s1, Ok tt) /\
     has_trigger s1 "users" "audit" /\
     _trigger s1 "users" "insert" None (Some jane) = false) /\
  createTrigger "users" "deny" allow_all guarded_users
  = (guarded_users, Throw (TriggerAlreadyExists "deny")).
Proof.
  pose proof (createTrigger_adds_one_veto guarded_users "users" "audit"
                allow_all 0%nat eq_refl) as (Hfree & _).
  pose proof (createTrigger_adds_one_veto guarded_users "users" "deny"
                allow_all 0%nat eq_refl) as (_ & Htaken).
  split; [reflexivity|]. split.
  - destruct (Hfree eq_refl) as (s1 & Hrun & Hhas & Hverdict & _).
    exists s1. split; [exact Hrun|]. split; [exact Hhas|].
    rewrite Hverdict. reflexivity.
  - apply Htaken. reflexivity.
Defined.

End Cases.
End VertexDBMoreSpec.
